(** * LexOS frontend: conversation and crew-orchestration state layer

    A shallow embedding of the client-side state layer of the LexOS
    frontend:

    - [lib/socket.ts]   : the push-channel client ([Socket]);
    - [store/chatStore.ts] : the conversation store ([ChatStore]);
    - [components/chat/ChatContainer.tsx] : the send-turn handler
      ([ChatContainer]);
    - [store/agentStore.ts] : the agent and crew store ([AgentStore]).

    Arrays are lists, [string | null] and optional fields are [option],
    string unions are inductive types.  The two ambient effects of the
    code, [Date.now()] and [uuidv4()], are read from an oracle through a
    small state monad ([Eff]).  A call that awaits the backend is cut at
    its [await]: the synchronous segments before and after it are
    separate definitions, and the operation itself is their composition
    when nothing else touches the store in between. *)

From Stdlib Require Import ZArith QArith List String Ascii Bool Lia.
From Stdlib Require Import DecimalString DecimalZ DecimalNat.
Import ListNotations.
Local Open Scope string_scope.
Local Open Scope Z_scope.

(** ** Ambient effects: the clock and the identifier source *)

(** What [Date.now()] and [uuidv4()] return, call after call. *)
Record World : Type := {
  clock : nat -> Z;
  uuids : nat -> string
}.

(** How many readings of each have been consumed so far. *)
Record Cursor : Type := {
  ticks : nat;
  draws : nat
}.

Definition Eff (A : Type) : Type := World -> Cursor -> A * Cursor.

Definition ret {A : Type} (a : A) : Eff A := fun _ c => (a, c).

Definition bind {A B : Type} (m : Eff A) (k : A -> Eff B) : Eff B :=
  fun w c => let (a, c') := m w c in k a w c'.

Declare Scope eff_scope.
Delimit Scope eff_scope with eff.
Notation "x <- m ;; k" := (bind m (fun x => k))
  (at level 100, m at next level, right associativity) : eff_scope.
Local Open Scope eff_scope.

Definition Date_now : Eff Z :=
  fun w c => (clock w (ticks c), {| ticks := S (ticks c); draws := draws c |}).

Definition uuidv4 : Eff string :=
  fun w c => (uuids w (draws c), {| ticks := ticks c; draws := S (draws c) |}).

(** [Array.prototype.map] with an effectful callback that also receives
    the index; elements are visited left to right. *)
Fixpoint mapiM_from {A B : Type} (i : nat) (f : nat -> A -> Eff B) (l : list A)
  : Eff (list B) :=
  match l with
  | [] => ret []
  | x :: xs =>
      y <- f i x ;;
      ys <- mapiM_from (S i) f xs ;;
      ret (y :: ys)
  end.

Definition mapiM {A B : Type} (f : nat -> A -> Eff B) (l : list A) : Eff (list B) :=
  mapiM_from 0 f l.

Definition mapM {A B : Type} (f : A -> Eff B) (l : list A) : Eff (list B) :=
  mapiM (fun _ => f) l.

(** [Array.prototype.flatMap], same conventions. *)
Definition flatMapiM {A B : Type} (f : nat -> A -> Eff (list B)) (l : list A)
  : Eff (list B) :=
  yss <- mapiM f l ;;
  ret (List.concat yss).

(** The result of awaiting a backend call: the promise resolves with a
    value or rejects with an error. *)
Inductive Settled (A : Type) : Type :=
| Resolved (a : A)
| Rejected (e : string).
Arguments Resolved {A} a.
Arguments Rejected {A} e.

(** The result of running an [async] function to its end. *)
Inductive Completion (A : Type) : Type :=
| Returned (a : A)
| Thrown (e : string).
Arguments Returned {A} a.
Arguments Thrown {A} e.

(** ** JavaScript odds and ends *)

(** Truthiness of a [string | null]: [null] and the empty string are falsy. *)
Definition truthy (a : option string) : bool :=
  match a with
  | Some s => negb (String.eqb s "")
  | None => false
  end.

(** [a === s] for [a : string | null] and [s : string]. *)
Definition is_id (a : option string) (s : string) : bool :=
  match a with
  | Some x => String.eqb x s
  | None => false
  end.

(** Template-literal rendering of numbers. *)
Definition string_of_nat (n : nat) : string :=
  NilZero.string_of_uint (Nat.to_uint n).

Definition string_of_Z (z : Z) : string :=
  NilZero.string_of_int (Z.to_int z).

(** [Array.prototype.findIndex]: the first index whose element passes, [-1]
    when none does. *)
Fixpoint findIndex_from {A : Type} (i : Z) (p : A -> bool) (l : list A) : Z :=
  match l with
  | [] => -1
  | x :: xs => if p x then i else findIndex_from (i + 1) p xs
  end.

Definition findIndex {A : Type} (p : A -> bool) (l : list A) : Z :=
  findIndex_from 0 p l.

(** [String.prototype.trim] on strings of Latin-1 code units: the white
    space and line terminators among them are tab, line feed, vertical
    tab, form feed, carriage return, space and no-break space. *)
Definition is_space (ch : ascii) : bool :=
  let n := nat_of_ascii ch in
  ((9 <=? n)%nat && (n <=? 13)%nat) || (n =? 32)%nat || (n =? 160)%nat.

Fixpoint trimStart (s : string) : string :=
  match s with
  | EmptyString => EmptyString
  | String ch rest => if is_space ch then trimStart rest else s
  end.

Fixpoint trimEnd (s : string) : string :=
  match s with
  | EmptyString => EmptyString
  | String ch rest =>
      match trimEnd rest with
      | EmptyString => if is_space ch then EmptyString else String ch EmptyString
      | kept => String ch kept
      end
  end.

Definition trim (s : string) : string := trimEnd (trimStart s).

(** A point in time as a number: a count of milliseconds since the
    epoch, or [NaN]. *)
Inductive TimeValue : Type := Millis (ms : Z) | NaN.

(** The largest count of milliseconds a [Date] can hold, on either side
    of the epoch. *)
Definition max_time : Z := 8640000000000000.

(** [new Date(n).getTime()] for an integer [n]: [n] itself for an instant
    a [Date] can hold, [NaN] for any other. *)
Definition Date_getTime (n : Z) : TimeValue :=
  if Z.abs n <=? max_time then Millis n else NaN.

(** [t + k], where [NaN] stays [NaN]. *)
Definition plus_millis (t : TimeValue) (k : Z) : TimeValue :=
  match t with
  | Millis n => Millis (n + k)
  | NaN => NaN
  end.

(** [Record<string, any>] as the backend fills it: the keys the client
    reads.  [md_timestamp] is the epoch-millisecond number the backend
    sent, an integer of any size. *)
Record Metadata : Type := {
  md_timestamp : option Z;
  md_model_used : option string;
  md_provider : option string;
  md_tokens_used : option Z;
  md_cost : option Q
}.

(** * lib/socket.ts *)
Module Socket.

Inductive Role : Type := user | assistant | system.

Record ChatMessage : Type := {
  msg_id : string;
  msg_role : Role;
  msg_content : string;
  msg_timestamp : TimeValue;
  msg_model : option string;
  msg_provider : option string;
  msg_tokens : option Z;
  msg_cost : option Q;
  msg_metadata : option Metadata
}.

Record ChatRequest : Type := {
  prompt : string;
  conversation_id : option string;
  system_prompt : option string;
  max_tokens : option Z;
  temperature : option Q;
  top_p : option Q;
  task_type : option string;
  user_id : option string
}.

Record ChatResponse : Type := {
  text : string;
  model_used : string;
  provider : string;
  tokens_used : Z;
  cost : Q;
  latency_ms : Z;
  metadata : option Metadata;
  error : option string
}.

(** What the server puts on the wire: the response, ideally with the
    [message_id] of the request it answers.  The ['message'] listener
    types its argument as [ChatResponse], which has no such field. *)
Record PushEvent : Type := {
  echoed_message_id : option string;
  body : ChatResponse
}.

(** What the client emitted on the socket: the request fields and the
    [message_id] tagged onto them. *)
Record Emitted : Type := {
  request : ChatRequest;
  message_id : string
}.

(** The socket.io object as far as the client uses it. *)
Record SocketIO : Type := {
  outbox : list Emitted
}.

Section Client.

(** Whatever the registered callbacks act on. *)
Variable W : Type.

Definition Handler : Type := ChatResponse -> W -> W.
Definition ConnectionHandler : Type := bool -> W -> W.

Record WebSocketClient : Type := {
  socket : option SocketIO;
  clientId : string;
  messageHandlers : list (string * Handler);
  connectionHandlers : list ConnectionHandler
}.

(** [Map.prototype.set]: an existing key keeps its place and takes the
    new value, a new key goes last. *)
Fixpoint Map_set (k : string) (h : Handler) (m : list (string * Handler))
  : list (string * Handler) :=
  match m with
  | [] => [(k, h)]
  | (k', h') :: m' =>
      if String.eqb k' k then (k, h) :: m' else (k', h') :: Map_set k h m'
  end.

Definition connect (c : WebSocketClient) : WebSocketClient :=
  match socket c with
  | Some _ => c
  | None =>
      {| socket := Some {| outbox := [] |};
         clientId := clientId c;
         messageHandlers := messageHandlers c;
         connectionHandlers := connectionHandlers c |}
  end.

Definition disconnect (c : WebSocketClient) : WebSocketClient :=
  match socket c with
  | None => c
  | Some _ =>
      {| socket := None;
         clientId := clientId c;
         messageHandlers := messageHandlers c;
         connectionHandlers := connectionHandlers c |}
  end.

Definition not_connected : ChatResponse :=
  {| text := "Error: WebSocket not connected";
     model_used := "none";
     provider := "none";
     tokens_used := 0;
     cost := 0%Q;
     latency_ms := 0;
     metadata := None;
     error := Some "WebSocket not connected" |}.

Definition sendMessage (req : ChatRequest) (onResponse : Handler)
    (cw : WebSocketClient * W) : Eff (WebSocketClient * W) :=
  let (c, w) := cw in
  let c1 := match socket c with None => connect c | Some _ => c end in
  messageId <- uuidv4 ;;
  let handlers := Map_set messageId onResponse (messageHandlers c1) in
  match socket c1 with
  | Some io =>
      ret ({| socket := Some {| outbox := outbox io ++
                                  [{| request := req; message_id := messageId |}] |};
              clientId := clientId c1;
              messageHandlers := handlers;
              connectionHandlers := connectionHandlers c1 |}, w)
  | None =>
      ret ({| socket := None;
              clientId := clientId c1;
              messageHandlers := handlers;
              connectionHandlers := connectionHandlers c1 |},
           onResponse not_connected w)
  end.

(** [this.messageHandlers.forEach(handler => handler(response))]:
    insertion order, every entry. *)
Definition handleMessage (c : WebSocketClient) (response : ChatResponse) (w : W) : W :=
  fold_left (fun acc kh => snd kh response acc) (messageHandlers c) w.

(** The ['message'] listener installed by [connect]. *)
Definition on_message (ev : PushEvent) (cw : WebSocketClient * W)
  : WebSocketClient * W :=
  (fst cw, handleMessage (fst cw) (body ev) (snd cw)).

Definition onConnectionChange (h : ConnectionHandler) (c : WebSocketClient)
  : WebSocketClient :=
  {| socket := socket c;
     clientId := clientId c;
     messageHandlers := messageHandlers c;
     connectionHandlers := connectionHandlers c ++ [h] |}.

Definition notifyConnectionHandlers (c : WebSocketClient) (connected : bool) (w : W) : W :=
  fold_left (fun acc h => h connected acc) (connectionHandlers c) w.

End Client.

Arguments socket {W} _.
Arguments clientId {W} _.
Arguments messageHandlers {W} _.
Arguments connectionHandlers {W} _.
Arguments Build_WebSocketClient {W} _ _ _ _.
Arguments Map_set {W} _ _ _.
Arguments connect {W} _.
Arguments disconnect {W} _.
Arguments sendMessage {W} _ _ _.
Arguments handleMessage {W} _ _ _.
Arguments on_message {W} _ _.

End Socket.

(** * lib/api.ts *)
Module Api.

Record ChatRequest : Type := {
  prompt : string;
  conversation_id : option string;
  system_prompt : option string;
  max_tokens : option Z;
  temperature : option Q;
  top_p : option Q;
  stream : option bool;
  user_id : option string;
  force_provider : option string;
  task_type : option string
}.

Record ChatResponse : Type := {
  text : string;
  model_used : string;
  provider : string;
  tokens_used : Z;
  cost : Q;
  latency_ms : Z;
  metadata : option Metadata
}.

Record ConversationMessage : Type := {
  user : string;
  assistant : string;
  cm_metadata : Metadata
}.

Record ConversationHistoryResponse : Type := {
  history : list ConversationMessage
}.

(** One entry of [CrewRequest.tasks] as [createCrew] builds it. *)
Record CrewTaskRequest : Type := {
  description : string;
  agent_index : Z;
  expected_output : string
}.

Record CrewRequest : Type := {
  crew_name : string;
  agent_templates : list string;
  tasks : list CrewTaskRequest;
  process_type : option string
}.

Record CrewResponse : Type := {
  crew_id : string
}.

Record CrewRunResponse : Type := {
  run_crew_id : string;
  result : string;
  duration : Z
}.

Record CrewTemplatesResponse : Type := {
  tpl_agent_templates : list string;
  tpl_tools : list string
}.

(** [apiClient], as far as the stores call it: each endpoint answers a
    request by resolving or rejecting. *)
Record apiClient : Type := {
  chat_send : ChatRequest -> Settled ChatResponse;
  memory_getConversation : string -> Settled ConversationHistoryResponse;
  crew_create : CrewRequest -> Settled CrewResponse;
  crew_run : string -> Settled CrewRunResponse;
  crew_getTemplates : Settled CrewTemplatesResponse
}.

End Api.

(** * store/chatStore.ts *)
Module ChatStore.

Import Socket.

Record Conversation : Type := {
  conv_id : string;
  conv_title : string;
  conv_messages : list ChatMessage;
  conv_createdAt : Z;
  conv_updatedAt : Z;
  conv_systemPrompt : option string
}.

Record ChatState : Type := {
  conversations : list Conversation;
  activeConversationId : option string;
  isLoading : bool;
  error : option string
}.

Definition initial : ChatState :=
  {| conversations := [];
     activeConversationId := None;
     isLoading := false;
     error := None |}.

(** [{ ...conv, messages, updatedAt }] *)
Definition with_messages (conv : Conversation) (ms : list ChatMessage) (now : Z)
  : Conversation :=
  {| conv_id := conv_id conv;
     conv_title := conv_title conv;
     conv_messages := ms;
     conv_createdAt := conv_createdAt conv;
     conv_updatedAt := now;
     conv_systemPrompt := conv_systemPrompt conv |}.

(** [set({ conversations })] *)
Definition set_conversations (s : ChatState) (cs : list Conversation) : ChatState :=
  {| conversations := cs;
     activeConversationId := activeConversationId s;
     isLoading := isLoading s;
     error := error s |}.

(** [{ ...msg, content }] *)
Definition with_content (m : ChatMessage) (content : string) : ChatMessage :=
  {| msg_id := msg_id m;
     msg_role := msg_role m;
     msg_content := content;
     msg_timestamp := msg_timestamp m;
     msg_model := msg_model m;
     msg_provider := msg_provider m;
     msg_tokens := msg_tokens m;
     msg_cost := msg_cost m;
     msg_metadata := msg_metadata m |}.

Definition createConversation (title : option string) (systemPrompt : option string)
    (s : ChatState) : Eff (string * ChatState) :=
  id <- uuidv4 ;;
  created <- Date_now ;;
  updated <- Date_now ;;
  let conversation :=
    {| conv_id := id;
       conv_title := match title with Some t => t | None => "New Conversation" end;
       conv_messages := [];
       conv_createdAt := created;
       conv_updatedAt := updated;
       conv_systemPrompt := systemPrompt |} in
  ret (id, {| conversations := conversation :: conversations s;
              activeConversationId := Some id;
              isLoading := isLoading s;
              error := error s |}).

Definition setActiveConversation (id : string) (s : ChatState) : ChatState :=
  {| conversations := conversations s;
     activeConversationId := Some id;
     isLoading := isLoading s;
     error := error s |}.

(** The three message operations share one shape: nothing without a
    truthy active identifier, otherwise every conversation carrying that
    identifier gets new messages and a fresh [updatedAt]. *)
Definition on_active (f : list ChatMessage -> list ChatMessage) (s : ChatState)
  : Eff ChatState :=
  if negb (truthy (activeConversationId s)) then ret s
  else
    updatedConversations <-
      mapM (fun conv =>
              if is_id (activeConversationId s) (conv_id conv)
              then now <- Date_now ;; ret (with_messages conv (f (conv_messages conv)) now)
              else ret conv)
           (conversations s) ;;
    ret (set_conversations s updatedConversations).

Definition addMessage (message : ChatMessage) : ChatState -> Eff ChatState :=
  on_active (fun ms => ms ++ [message])%list.

Definition updateMessage (id content : string) : ChatState -> Eff ChatState :=
  on_active (List.map (fun msg =>
                         if String.eqb (msg_id msg) id then with_content msg content
                         else msg)).

Definition deleteMessage (id : string) : ChatState -> Eff ChatState :=
  on_active (List.filter (fun msg => negb (String.eqb (msg_id msg) id))).

Definition deleteConversation (id : string) (s : ChatState) : ChatState :=
  let updatedConversations :=
    List.filter (fun conv => negb (String.eqb (conv_id conv) id)) (conversations s) in
  let newActiveId :=
    if is_id (activeConversationId s) id
    then match updatedConversations with
         | conv :: _ => Some (conv_id conv)
         | [] => None
         end
    else activeConversationId s in
  {| conversations := updatedConversations;
     activeConversationId := newActiveId;
     isLoading := isLoading s;
     error := error s |}.

Definition clearConversations (s : ChatState) : ChatState :=
  {| conversations := [];
     activeConversationId := None;
     isLoading := isLoading s;
     error := error s |}.

(** [new Date(item.metadata.timestamp || Date.now()).getTime()]: the
    clock is read only when the backend's timestamp is missing or [0],
    and a number that is no instant a [Date] can hold comes back as
    [NaN]. *)
Definition timestamp_or_now (md : Metadata) : Eff TimeValue :=
  n <- match md_timestamp md with
       | Some t => if t =? 0 then Date_now else ret t
       | None => Date_now
       end ;;
  ret (Date_getTime n).

(** The callback of [history.map]. *)
Definition history_user (index : nat) (item : Api.ConversationMessage) : Eff ChatMessage :=
  stamp <- Date_now ;;
  t <- timestamp_or_now (Api.cm_metadata item) ;;
  ret {| msg_id := "history-" ++ string_of_nat index ++ "-" ++ string_of_Z stamp;
         msg_role := user;
         msg_content := Api.user item;
         msg_timestamp := t;
         msg_model := None;
         msg_provider := None;
         msg_tokens := None;
         msg_cost := None;
         msg_metadata := Some (Api.cm_metadata item) |}.

(** The callback of [.flatMap].  [history[index]] is [undefined] beyond
    the end of the history, where reading [item.assistant] would throw;
    the indices handed to the callback are those of the array [map]
    returned, which has the length of the history, so that branch is
    never taken. *)
Definition history_pair (history : list Api.ConversationMessage)
    (index : nat) (userMsg : ChatMessage) : Eff (list ChatMessage) :=
  match nth_error history index with
  | None => ret [userMsg]
  | Some item =>
      stamp <- Date_now ;;
      t <- timestamp_or_now (Api.cm_metadata item) ;;
      let assistantMsg :=
        {| msg_id := "history-" ++ string_of_nat index ++ "-assistant-" ++ string_of_Z stamp;
           msg_role := assistant;
           msg_content := Api.assistant item;
           msg_timestamp := plus_millis t 1;
           msg_model := md_model_used (Api.cm_metadata item);
           msg_provider := md_provider (Api.cm_metadata item);
           msg_tokens := md_tokens_used (Api.cm_metadata item);
           msg_cost := md_cost (Api.cm_metadata item);
           msg_metadata := Some (Api.cm_metadata item) |} in
      ret [userMsg; assistantMsg]
  end.

Definition history_messages (history : list Api.ConversationMessage) : Eff (list ChatMessage) :=
  users <- mapiM history_user history ;;
  flatMapiM (history_pair history) users.

(** [loadConversationHistory] up to its [await]. *)
Definition loadConversationHistory_start (s : ChatState) : ChatState :=
  {| conversations := conversations s;
     activeConversationId := activeConversationId s;
     isLoading := true;
     error := None |}.

(** ... resumed with the backend's answer: *)
Definition loadConversationHistory_resolved (conversationId : string)
    (response : Api.ConversationHistoryResponse) (s : ChatState) : Eff ChatState :=
  messages <- history_messages (Api.history response) ;;
  updatedConversations <-
    mapM (fun conv =>
            if String.eqb (conv_id conv) conversationId
            then now <- Date_now ;; ret (with_messages conv messages now)
            else ret conv)
         (conversations s) ;;
  ret {| conversations := updatedConversations;
         activeConversationId := activeConversationId s;
         isLoading := false;
         error := error s |}.

(** ... resumed in the [catch] block: *)
Definition loadConversationHistory_rejected (s : ChatState) : ChatState :=
  {| conversations := conversations s;
     activeConversationId := activeConversationId s;
     isLoading := false;
     error := Some "Failed to load conversation history" |}.

Definition loadConversationHistory (api : Api.apiClient) (conversationId : string)
    (s : ChatState) : Eff ChatState :=
  let s1 := loadConversationHistory_start s in
  match Api.memory_getConversation api conversationId with
  | Resolved response => loadConversationHistory_resolved conversationId response s1
  | Rejected _ => ret (loadConversationHistory_rejected s1)
  end.

Definition setError (e : option string) (s : ChatState) : ChatState :=
  {| conversations := conversations s;
     activeConversationId := activeConversationId s;
     isLoading := isLoading s;
     error := e |}.

Definition setLoading (loading : bool) (s : ChatState) : ChatState :=
  {| conversations := conversations s;
     activeConversationId := activeConversationId s;
     isLoading := loading;
     error := error s |}.

(** [{ ...conv, title, updatedAt }] *)
Definition with_title (conv : Conversation) (title : string) (now : Z) : Conversation :=
  {| conv_id := conv_id conv;
     conv_title := title;
     conv_messages := conv_messages conv;
     conv_createdAt := conv_createdAt conv;
     conv_updatedAt := now;
     conv_systemPrompt := conv_systemPrompt conv |}.

(** [{ ...conv, systemPrompt, updatedAt }] *)
Definition with_systemPrompt (conv : Conversation) (systemPrompt : string) (now : Z)
  : Conversation :=
  {| conv_id := conv_id conv;
     conv_title := conv_title conv;
     conv_messages := conv_messages conv;
     conv_createdAt := conv_createdAt conv;
     conv_updatedAt := now;
     conv_systemPrompt := Some systemPrompt |}.

Definition updateConversationTitle (id title : string) (s : ChatState) : Eff ChatState :=
  updatedConversations <-
    mapM (fun conv =>
            if String.eqb (conv_id conv) id
            then now <- Date_now ;; ret (with_title conv title now)
            else ret conv)
         (conversations s) ;;
  ret (set_conversations s updatedConversations).

Definition updateSystemPrompt (id systemPrompt : string) (s : ChatState) : Eff ChatState :=
  updatedConversations <-
    mapM (fun conv =>
            if String.eqb (conv_id conv) id
            then now <- Date_now ;; ret (with_systemPrompt conv systemPrompt now)
            else ret conv)
         (conversations s) ;;
  ret (set_conversations s updatedConversations).

End ChatStore.

(** * components/chat/ChatInput.tsx *)
Module ChatInput.

(** The text being typed. *)
Record InputState : Type := {
  message : string
}.

(** [handleSubmit]: what is handed to [onSendMessage], if anything, and
    the text left in the box. *)
Definition handleSubmit (isLoading : bool) (st : InputState) : option string * InputState :=
  if negb (String.eqb (trim (message st)) "") && negb isLoading
  then (Some (message st), {| message := "" |})
  else (None, st).

End ChatInput.

(** * components/chat/ChatContainer.tsx *)
Module ChatContainer.

Import Socket ChatStore.

(** [ModelSettings] of store/settingsStore.ts. *)
Record ModelSettings : Type := {
  temperature : Q;
  maxTokens : Z;
  topP : Q;
  preferredProvider : option string;
  preferredModel : option string
}.

Definition failure_notice : string :=
  "Sorry, there was an error processing your request. Please try again.".

(** What the handler keeps across its [await]. *)
Record InFlight : Type := {
  assistantMessageId : string;
  chat_request : Api.ChatRequest
}.

(** [handleSendMessage] up to its [await].  [rendered] is the store
    snapshot the component last rendered with: the handler closes over
    its [activeConversationId] and [activeConversation], while
    [addMessage] works on the store as it is now. *)
Definition handleSendMessage_start (settings : ModelSettings) (content : string)
    (rendered s : ChatState) : Eff (option InFlight * ChatState) :=
  if negb (truthy (activeConversationId rendered)) then ret (None, s)
  else
    uid <- uuidv4 ;;
    t_user <- Date_now ;;
    let userMessage :=
      {| msg_id := uid; msg_role := user; msg_content := content;
         msg_timestamp := Millis t_user;
         msg_model := None; msg_provider := None; msg_tokens := None;
         msg_cost := None; msg_metadata := None |} in
    s1 <- addMessage userMessage s ;;
    aid <- uuidv4 ;;
    t_assistant <- Date_now ;;
    let assistantMessage :=
      {| msg_id := aid; msg_role := assistant; msg_content := "...";
         msg_timestamp := Millis t_assistant;
         msg_model := None; msg_provider := None; msg_tokens := None;
         msg_cost := None; msg_metadata := None |} in
    s2 <- addMessage assistantMessage s1 ;;
    let activeConversation :=
      List.find (fun conv => is_id (activeConversationId rendered) (conv_id conv))
                (conversations rendered) in
    let req :=
      {| Api.prompt := content;
         Api.conversation_id := activeConversationId rendered;
         Api.system_prompt :=
           match activeConversation with
           | Some conv => conv_systemPrompt conv
           | None => None
           end;
         Api.max_tokens := Some (maxTokens settings);
         Api.temperature := Some (temperature settings);
         Api.top_p := Some (topP settings);
         Api.stream := None;
         Api.user_id := None;
         Api.force_provider :=
           if truthy (preferredProvider settings) then preferredProvider settings else None;
         Api.task_type := None |} in
    ret (Some {| assistantMessageId := aid; chat_request := req |}, s2).

(** ... resumed after [apiClient.chat.send] resolved.  The handler builds
    [updatedAssistantMessage] and then hands only the text to
    [updateMessage]. *)
Definition handleSendMessage_resolved (fl : InFlight) (response : Api.ChatResponse)
    (s : ChatState) : Eff ChatState :=
  t <- Date_now ;;
  let updatedAssistantMessage :=
    {| msg_id := assistantMessageId fl; msg_role := assistant;
       msg_content := Api.text response;
       msg_timestamp := Millis t;
       msg_model := Some (Api.model_used response);
       msg_provider := Some (Api.provider response);
       msg_tokens := Some (Api.tokens_used response);
       msg_cost := Some (Api.cost response);
       msg_metadata := Api.metadata response |} in
  updateMessage (assistantMessageId fl) (Api.text response) s.

(** ... resumed in the [catch] block. *)
Definition handleSendMessage_rejected (fl : InFlight) (s : ChatState) : Eff ChatState :=
  updateMessage (assistantMessageId fl) failure_notice s.

(** The whole handler when the store is left alone while it awaits. *)
Definition handleSendMessage (api : Api.apiClient) (settings : ModelSettings)
    (content : string) (rendered s : ChatState) : Eff ChatState :=
  started <- handleSendMessage_start settings content rendered s ;;
  match started with
  | (None, s') => ret s'
  | (Some fl, s') =>
      match Api.chat_send api (chat_request fl) with
      | Resolved response => handleSendMessage_resolved fl response s'
      | Rejected _ => handleSendMessage_rejected fl s'
      end
  end.

(** The effect that keeps a conversation selected.  It closes over the
    [conversations] and [activeConversationId] of the render it belongs
    to and acts on the store. *)
Definition ensureConversation (rendered s : ChatState) : Eff ChatState :=
  match conversations rendered with
  | [] =>
      created <- createConversation (Some "New Conversation") None s ;;
      ret (setActiveConversation (fst created) (snd created))
  | conv :: _ =>
      if negb (truthy (activeConversationId rendered))
      then ret (setActiveConversation (conv_id conv) s)
      else ret s
  end.

End ChatContainer.

(** * store/agentStore.ts *)
Module AgentStore.

Inductive ProcessType : Type := sequential | hierarchical.
Inductive CrewStatus : Type := idle | running | completed | failed.
Inductive TaskStatus : Type :=
  task_pending | task_running | task_completed | task_failed.

Record Agent : Type := {
  agent_id : string;
  agent_name : string;
  agent_role : string;
  agent_goal : string;
  agent_template : string;
  agent_model : string;
  agent_tools : list string;
  agent_createdAt : Z;
  agent_updatedAt : Z
}.

Record Task : Type := {
  task_id : string;
  task_description : string;
  task_agentId : string;
  task_expectedOutput : string;
  task_status : TaskStatus;
  task_result : option string;
  task_createdAt : Z;
  task_updatedAt : Z
}.

Record Crew : Type := {
  crew_id : string;
  crew_name : string;
  crew_agents : list string;
  crew_tasks : list Task;
  crew_processType : ProcessType;
  crew_status : CrewStatus;
  crew_result : option string;
  crew_createdAt : Z;
  crew_updatedAt : Z;
  crew_completedAt : option Z;
  crew_duration : option Z
}.

Record AgentState : Type := {
  agents : list Agent;
  crews : list Crew;
  availableTemplates : list string;
  availableTools : list string;
  isLoading : bool;
  error : option string
}.

(** [Omit<Crew, 'id' | 'createdAt' | 'updatedAt' | 'status'>] *)
Record CrewData : Type := {
  data_name : string;
  data_agents : list string;
  data_tasks : list Task;
  data_processType : ProcessType;
  data_result : option string;
  data_completedAt : option Z;
  data_duration : option Z
}.

(** [Partial<Omit<Crew, 'id' | 'createdAt' | 'updatedAt'>>]: [None] is a
    key the patch does not have; for the optional fields of [Crew] a
    key may be there and hold [undefined]. *)
Record CrewPatch : Type := {
  patch_name : option string;
  patch_agents : option (list string);
  patch_tasks : option (list Task);
  patch_processType : option ProcessType;
  patch_status : option CrewStatus;
  patch_result : option (option string);
  patch_completedAt : option (option Z);
  patch_duration : option (option Z)
}.

Definition process_type_tag (p : ProcessType) : string :=
  match p with
  | sequential => "sequential"
  | hierarchical => "hierarchical"
  end.

(** [set({ isLoading, error })] *)
Definition set_flags (loading : bool) (err : option string) (s : AgentState) : AgentState :=
  {| agents := agents s;
     crews := crews s;
     availableTemplates := availableTemplates s;
     availableTools := availableTools s;
     isLoading := loading;
     error := err |}.

(** [set({ crews, isLoading, error })] *)
Definition set_crews (cs : list Crew) (loading : bool) (err : option string)
    (s : AgentState) : AgentState :=
  {| agents := agents s;
     crews := cs;
     availableTemplates := availableTemplates s;
     availableTools := availableTools s;
     isLoading := loading;
     error := err |}.

(** [state.crews.map(crew => crew.id === id ? f(crew) : crew)] *)
Definition map_crew (id : string) (f : Crew -> Eff Crew) (cs : list Crew) : Eff (list Crew) :=
  mapM (fun crew => if String.eqb (crew_id crew) id then f crew else ret crew) cs.

(** [{ ...crew, status, updatedAt }] *)
Definition with_status (crew : Crew) (st : CrewStatus) (now : Z) : Crew :=
  {| crew_id := crew_id crew;
     crew_name := crew_name crew;
     crew_agents := crew_agents crew;
     crew_tasks := crew_tasks crew;
     crew_processType := crew_processType crew;
     crew_status := st;
     crew_result := crew_result crew;
     crew_createdAt := crew_createdAt crew;
     crew_updatedAt := now;
     crew_completedAt := crew_completedAt crew;
     crew_duration := crew_duration crew |}.

(** [crew.id = apiCrewId] *)
Definition assign_id (crew : Crew) (id : string) : Crew :=
  {| crew_id := id;
     crew_name := crew_name crew;
     crew_agents := crew_agents crew;
     crew_tasks := crew_tasks crew;
     crew_processType := crew_processType crew;
     crew_status := crew_status crew;
     crew_result := crew_result crew;
     crew_createdAt := crew_createdAt crew;
     crew_updatedAt := crew_updatedAt crew;
     crew_completedAt := crew_completedAt crew;
     crew_duration := crew_duration crew |}.

Definition patched {A : Type} (p : option A) (old : A) : A :=
  match p with Some v => v | None => old end.

(** [{ ...crew, ...updates, updatedAt }] *)
Definition apply_patch (crew : Crew) (updates : CrewPatch) (now : Z) : Crew :=
  {| crew_id := crew_id crew;
     crew_name := patched (patch_name updates) (crew_name crew);
     crew_agents := patched (patch_agents updates) (crew_agents crew);
     crew_tasks := patched (patch_tasks updates) (crew_tasks crew);
     crew_processType := patched (patch_processType updates) (crew_processType crew);
     crew_status := patched (patch_status updates) (crew_status crew);
     crew_result := patched (patch_result updates) (crew_result crew);
     crew_createdAt := crew_createdAt crew;
     crew_updatedAt := now;
     crew_completedAt := patched (patch_completedAt updates) (crew_completedAt crew);
     crew_duration := patched (patch_duration updates) (crew_duration crew) |}.

(** What [createCrew] keeps across its [await]: the crew it built and the
    request it sends. *)
Record Draft : Type := {
  draft_crew : Crew;
  draft_request : Api.CrewRequest
}.

(** [createCrew] up to its [await]. *)
Definition createCrew_start (crewData : CrewData) (s : AgentState)
  : Eff (Draft * AgentState) :=
  let s1 := set_flags true None s in
  id <- uuidv4 ;;
  created <- Date_now ;;
  updated <- Date_now ;;
  let crew :=
    {| crew_id := id;
       crew_name := data_name crewData;
       crew_agents := data_agents crewData;
       crew_tasks := data_tasks crewData;
       crew_processType := data_processType crewData;
       crew_status := idle;
       crew_result := data_result crewData;
       crew_createdAt := created;
       crew_updatedAt := updated;
       crew_completedAt := data_completedAt crewData;
       crew_duration := data_duration crewData |} in
  let apiCrewData :=
    {| Api.crew_name := crew_name crew;
       Api.agent_templates :=
         List.map (fun agentId =>
                     match List.find (fun a => String.eqb (agent_id a) agentId) (agents s1) with
                     | Some agent =>
                         if String.eqb (agent_template agent) "" then "researcher"
                         else agent_template agent
                     | None => "researcher"
                     end)
                  (crew_agents crew);
       Api.tasks :=
         List.map (fun task =>
                     {| Api.description := task_description task;
                        Api.agent_index :=
                          findIndex (fun agentId => String.eqb agentId (task_agentId task))
                                    (crew_agents crew);
                        Api.expected_output := task_expectedOutput task |})
                  (crew_tasks crew);
       Api.process_type := Some (process_type_tag (crew_processType crew)) |} in
  ret ({| draft_crew := crew; draft_request := apiCrewData |}, s1).

(** ... resumed after [apiClient.crew.create] resolved: *)
Definition createCrew_resolved (d : Draft) (response : Api.CrewResponse) (s : AgentState)
  : Completion string * AgentState :=
  let apiCrewId := Api.crew_id response in
  let crew := assign_id (draft_crew d) apiCrewId in
  (Returned apiCrewId, set_crews (crews s ++ [crew]) false (error s) s).

(** ... resumed in the [catch] block, which ends in [throw error]: *)
Definition createCrew_rejected (e : string) (s : AgentState)
  : Completion string * AgentState :=
  (Thrown e, set_flags false (Some "Failed to create crew") s).

Definition createCrew (api : Api.apiClient) (crewData : CrewData) (s : AgentState)
  : Eff (Completion string * AgentState) :=
  started <- createCrew_start crewData s ;;
  let (d, s1) := started in
  match Api.crew_create api (draft_request d) with
  | Resolved response => ret (createCrew_resolved d response s1)
  | Rejected e => ret (createCrew_rejected e s1)
  end.

Definition updateCrew (id : string) (updates : CrewPatch) (s : AgentState) : Eff AgentState :=
  cs <- map_crew id (fun crew => now <- Date_now ;; ret (apply_patch crew updates now))
                 (crews s) ;;
  ret (set_crews cs (isLoading s) (error s) s).

Definition deleteCrew (id : string) (s : AgentState) : AgentState :=
  set_crews (List.filter (fun crew => negb (String.eqb (crew_id crew) id)) (crews s))
            (isLoading s) (error s) s.

(** [runCrew] up to its [await]: the two [set] calls. *)
Definition runCrew_start (id : string) (s : AgentState) : Eff AgentState :=
  let s1 := set_flags true None s in
  cs <- map_crew id (fun crew => now <- Date_now ;; ret (with_status crew running now))
                 (crews s1) ;;
  ret (set_crews cs (isLoading s1) (error s1) s1).

(** ... resumed after [apiClient.crew.run] resolved: *)
Definition runCrew_resolved (id : string) (response : Api.CrewRunResponse) (s : AgentState)
  : Eff AgentState :=
  cs <- map_crew id
          (fun crew =>
             done <- Date_now ;;
             now <- Date_now ;;
             ret {| crew_id := crew_id crew;
                    crew_name := crew_name crew;
                    crew_agents := crew_agents crew;
                    crew_tasks := crew_tasks crew;
                    crew_processType := crew_processType crew;
                    crew_status := completed;
                    crew_result := Some (Api.result response);
                    crew_createdAt := crew_createdAt crew;
                    crew_updatedAt := now;
                    crew_completedAt := Some done;
                    crew_duration := Some (Api.duration response) |})
          (crews s) ;;
  ret (set_crews cs false (error s) s).

(** ... resumed in the [catch] block, which returns normally: *)
Definition runCrew_rejected (id : string) (s : AgentState) : Eff AgentState :=
  cs <- map_crew id (fun crew => now <- Date_now ;; ret (with_status crew failed now))
                 (crews s) ;;
  ret (set_crews cs false (Some "Failed to run crew") s).

Definition runCrew (api : Api.apiClient) (id : string) (s : AgentState)
  : Eff (Completion unit * AgentState) :=
  s1 <- runCrew_start id s ;;
  match Api.crew_run api id with
  | Resolved response => s2 <- runCrew_resolved id response s1 ;; ret (Returned tt, s2)
  | Rejected _ => s2 <- runCrew_rejected id s1 ;; ret (Returned tt, s2)
  end.

Definition fetchTemplates_resolved (response : Api.CrewTemplatesResponse) (s : AgentState)
  : AgentState :=
  {| agents := agents s;
     crews := crews s;
     availableTemplates := Api.tpl_agent_templates response;
     availableTools := Api.tpl_tools response;
     isLoading := false;
     error := error s |}.

Definition fetchTemplates (api : Api.apiClient) (s : AgentState)
  : Completion unit * AgentState :=
  let s1 := set_flags true None s in
  match Api.crew_getTemplates api with
  | Resolved response => (Returned tt, fetchTemplates_resolved response s1)
  | Rejected _ => (Returned tt, set_flags false (Some "Failed to fetch agent templates") s1)
  end.


(** [Partial<Omit<Agent, 'id' | 'createdAt' | 'updatedAt'>>] *)
Record AgentPatch : Type := {
  apatch_name : option string;
  apatch_role : option string;
  apatch_goal : option string;
  apatch_template : option string;
  apatch_model : option string;
  apatch_tools : option (list string)
}.

(** [set({ agents })] *)
Definition set_agents (l : list Agent) (s : AgentState) : AgentState :=
  {| agents := l;
     crews := crews s;
     availableTemplates := availableTemplates s;
     availableTools := availableTools s;
     isLoading := isLoading s;
     error := error s |}.


(** [{ ...agent, ...updates, updatedAt }] *)
Definition apply_agent_patch (agent : Agent) (updates : AgentPatch) (now : Z) : Agent :=
  {| agent_id := agent_id agent;
     agent_name := patched (apatch_name updates) (agent_name agent);
     agent_role := patched (apatch_role updates) (agent_role agent);
     agent_goal := patched (apatch_goal updates) (agent_goal agent);
     agent_template := patched (apatch_template updates) (agent_template agent);
     agent_model := patched (apatch_model updates) (agent_model agent);
     agent_tools := patched (apatch_tools updates) (agent_tools agent);
     agent_createdAt := agent_createdAt agent;
     agent_updatedAt := now |}.

Definition updateAgent (id : string) (updates : AgentPatch) (s : AgentState) : Eff AgentState :=
  l <- mapM (fun agent =>
               if String.eqb (agent_id agent) id
               then now <- Date_now ;; ret (apply_agent_patch agent updates now)
               else ret agent)
            (agents s) ;;
  ret (set_agents l s).


Definition setLoading (loading : bool) (s : AgentState) : AgentState :=
  set_flags loading (error s) s.

Definition setError (e : option string) (s : AgentState) : AgentState :=
  set_flags (isLoading s) e s.

End AgentStore.

(** * lib/utils.ts *)
Module Utils.

(** [str.substring(0, n)]: a negative [n] counts as [0], an [n] beyond
    the end as the length. *)
Definition substring0 (n : Z) (str : string) : string :=
  String.substring 0 (Z.to_nat n) str.

(** [truncate(str, length)], for an integer [length]. *)
Definition truncate (str : string) (length : Z) : string :=
  if Z.of_nat (String.length str) >? length
  then substring0 length str ++ "..."
  else str.

Definition is_digit (ch : ascii) : bool :=
  let n := nat_of_ascii ch in (48 <=? n)%nat && (n <=? 57)%nat.

(** [\w]: letters, digits and the underscore. *)
Definition is_word (ch : ascii) : bool :=
  let n := nat_of_ascii ch in
  is_digit ch
  || ((65 <=? n)%nat && (n <=? 90)%nat)
  || ((97 <=? n)%nat && (n <=? 122)%nat)
  || (n =? 95)%nat.

Definition starts_with_digit (l : list ascii) : bool :=
  match l with
  | ch :: _ => is_digit ch
  | [] => false
  end.

(** [(?=(\d{3})+(?!\d))] at the head of [l]: one or more groups of three
    digits, after which no digit follows. *)
Fixpoint groups_of_three (l : list ascii) : bool :=
  match l with
  | d1 :: d2 :: d3 :: rest =>
      is_digit d1 && is_digit d2 && is_digit d3
      && (negb (starts_with_digit rest) || groups_of_three rest)
  | _ => false
  end.

(** [\B] between two neighbours; beyond either end counts as a
    non-word character. *)
Definition non_boundary (prev next : option ascii) : bool :=
  let word o := match o with Some ch => is_word ch | None => false end in
  Bool.eqb (word prev) (word next).

(** [.replace(/\B(?=(\d{3})+(?!\d))/g, ",")]: a comma goes in at every
    position where the pattern matches the empty string.  At the very
    end the look-ahead finds no digit, so nothing goes in there. *)
Fixpoint insert_commas (prev : option ascii) (l : list ascii) : list ascii :=
  match l with
  | [] => []
  | ch :: rest =>
      (if non_boundary prev (Some ch) && groups_of_three l then [","%char] else [])
        ++ ch :: insert_commas (Some ch) rest
  end.

(** [formatNumber(num)] for an integer [num]; [toString] is the built-in
    of the number type. *)
Definition formatNumber (toString : Z -> string) (num : Z) : string :=
  string_of_list_ascii (insert_commas None (list_ascii_of_string (toString num))).

(** [name.split(" ")] *)
Fixpoint split_space (s : string) : list string :=
  match s with
  | EmptyString => [EmptyString]
  | String ch rest =>
      if Ascii.eqb ch " "
      then EmptyString :: split_space rest
      else match split_space rest with
           | word :: words => String ch word :: words
           | [] => [String ch EmptyString]
           end
  end.

(** [n[0]]: [undefined] for the empty string. *)
Definition first_unit (s : string) : option ascii :=
  match s with
  | EmptyString => None
  | String ch _ => Some ch
  end.

(** [.join("")] of code units, where [undefined] contributes nothing. *)
Fixpoint join_units (l : list (option ascii)) : string :=
  match l with
  | [] => EmptyString
  | Some ch :: rest => String ch (join_units rest)
  | None :: rest => join_units rest
  end.

(** [getInitials(name)]; [toUpperCase] is the built-in of the string
    type. *)
Definition getInitials (toUpperCase : string -> string) (name : string) : string :=
  toUpperCase (join_units (List.map first_unit (split_space name))).

End Utils.

(** * components/agents/AgentManager.tsx *)
Module AgentManager.

Import AgentStore.

(** [Omit<Task, 'id' | 'createdAt' | 'updatedAt' | 'status' | 'result'>] *)
Record FormTask : Type := {
  ft_description : string;
  ft_agentId : string;
  ft_expectedOutput : string
}.

(** The state of the new-crew form. *)
Record NewCrew : Type := {
  nc_name : string;
  nc_agents : list string;
  nc_tasks : list FormTask;
  nc_processType : ProcessType
}.

Definition blank_crew : NewCrew :=
  {| nc_name := ""; nc_agents := []; nc_tasks := []; nc_processType := sequential |}.

(** The fields [handleUpdateTask] can be asked to write. *)
Inductive TaskField : Type := field_description | field_agentId | field_expectedOutput.

(** [onChange] of the name input and of the process-type select. *)
Definition setName (name : string) (form : NewCrew) : NewCrew :=
  {| nc_name := name; nc_agents := nc_agents form; nc_tasks := nc_tasks form;
     nc_processType := nc_processType form |}.

Definition setProcessType (p : ProcessType) (form : NewCrew) : NewCrew :=
  {| nc_name := nc_name form; nc_agents := nc_agents form; nc_tasks := nc_tasks form;
     nc_processType := p |}.

(** [onChange] of an agent's checkbox. *)
Definition toggleAgent (checked : bool) (agentId : string) (form : NewCrew) : NewCrew :=
  {| nc_name := nc_name form;
     nc_agents :=
       if checked then nc_agents form ++ [agentId]
       else List.filter (fun id => negb (String.eqb id agentId)) (nc_agents form);
     nc_tasks := nc_tasks form;
     nc_processType := nc_processType form |}.

(** With no agent selected the handler alerts and returns. *)
Definition handleAddTask (form : NewCrew) : NewCrew :=
  match nc_agents form with
  | [] => form
  | first :: _ =>
      {| nc_name := nc_name form;
         nc_agents := nc_agents form;
         nc_tasks := nc_tasks form ++
                     [{| ft_description := "";
                         ft_agentId := first;
                         ft_expectedOutput := "Comprehensive analysis" |}];
         nc_processType := nc_processType form |}
  end.

(** [{ ...task, [field]: value }] *)
Definition write_field (field : TaskField) (value : string) (task : FormTask) : FormTask :=
  match field with
  | field_description =>
      {| ft_description := value; ft_agentId := ft_agentId task;
         ft_expectedOutput := ft_expectedOutput task |}
  | field_agentId =>
      {| ft_description := ft_description task; ft_agentId := value;
         ft_expectedOutput := ft_expectedOutput task |}
  | field_expectedOutput =>
      {| ft_description := ft_description task; ft_agentId := ft_agentId task;
         ft_expectedOutput := value |}
  end.

(** [tasks.map((task, i) => i === index ? f(task) : task)] *)
Fixpoint map_at {A : Type} (index : nat) (f : A -> A) (l : list A) {struct l} : list A :=
  match l, index with
  | [], _ => []
  | x :: xs, O => f x :: xs
  | x :: xs, S n => x :: map_at n f xs
  end.

(** [tasks.filter((_, i) => i !== index)] *)
Fixpoint remove_at {A : Type} (index : nat) (l : list A) {struct l} : list A :=
  match l, index with
  | [], _ => []
  | _ :: xs, O => xs
  | x :: xs, S n => x :: remove_at n xs
  end.

Definition handleUpdateTask (index : nat) (field : TaskField) (value : string)
    (form : NewCrew) : NewCrew :=
  {| nc_name := nc_name form;
     nc_agents := nc_agents form;
     nc_tasks := map_at index (write_field field value) (nc_tasks form);
     nc_processType := nc_processType form |}.

Definition handleRemoveTask (index : nat) (form : NewCrew) : NewCrew :=
  {| nc_name := nc_name form;
     nc_agents := nc_agents form;
     nc_tasks := remove_at index (nc_tasks form);
     nc_processType := nc_processType form |}.

(** The draft [handleCreateCrew] hands to [createCrew]. *)
Definition draft_of (form : NewCrew) : CrewData :=
  {| data_name := nc_name form;
     data_agents := nc_agents form;
     data_tasks :=
       List.map (fun task =>
                   {| task_id := "";
                      task_description := ft_description task;
                      task_agentId := ft_agentId task;
                      task_expectedOutput := ft_expectedOutput task;
                      task_status := task_pending;
                      task_result := None;
                      task_createdAt := 0;
                      task_updatedAt := 0 |})
                (nc_tasks form);
     data_processType := nc_processType form;
     data_result := None;
     data_completedAt := None;
     data_duration := None |}.

(** The form and whether it is shown. *)
Record CrewPanel : Type := {
  newCrew : NewCrew;
  showNewCrewForm : bool
}.

(** [handleCreateCrew]: nothing without a name, an agent and a task;
    otherwise [createCrew], after which the form is cleared and hidden;
    an error thrown by [createCrew] is caught and logged. *)
Definition handleCreateCrew (api : Api.apiClient) (panel : CrewPanel) (s : AgentState)
  : Eff (Completion unit * CrewPanel * AgentState) :=
  let form := newCrew panel in
  if negb (String.eqb (nc_name form) "")
     && (0 <? Z.of_nat (List.length (nc_agents form)))
     && (0 <? Z.of_nat (List.length (nc_tasks form)))
  then
    r <- createCrew api (draft_of form) s ;;
    match fst r with
    | Returned _ =>
        ret (Returned tt, {| newCrew := blank_crew; showNewCrewForm := false |}, snd r)
    | Thrown _ => ret (Returned tt, panel, snd r)
    end
  else ret (Returned tt, panel, s).

Definition handleRunCrew (api : Api.apiClient) (crewId : string) (s : AgentState)
  : Eff (Completion unit * AgentState) :=
  runCrew api crewId s.

End AgentManager.

(** * Vocabulary of the statements *)

(** A computation never hands clock readings back. *)
Definition advances {A : Type} (m : Eff A) : Prop :=
  forall w c, (ticks c <= ticks (snd (m w c)))%nat.

(** ** The push channel, driven from outside *)
Module SocketRuns.

Import Socket.

(** Everything that can happen to the client: its own methods and the
    arrival of a push message. *)
Inductive ClientOp (W : Type) : Type :=
| OpConnect
| OpDisconnect
| OpSend (req : ChatRequest) (onResponse : Handler W)
| OpMessage (ev : PushEvent).
Arguments OpConnect {W}.
Arguments OpDisconnect {W}.
Arguments OpSend {W} req onResponse.
Arguments OpMessage {W} ev.

Definition apply_op {W : Type} (op : ClientOp W) (cw : WebSocketClient W * W)
  : Eff (WebSocketClient W * W) :=
  match op with
  | OpConnect => ret (connect (fst cw), snd cw)
  | OpDisconnect => ret (disconnect (fst cw), snd cw)
  | OpSend req h => sendMessage req h cw
  | OpMessage ev => ret (on_message ev cw)
  end.

Fixpoint run_ops {W : Type} (ops : list (ClientOp W)) (cw : WebSocketClient W * W)
  : Eff (WebSocketClient W * W) :=
  match ops with
  | [] => ret cw
  | op :: rest => (cw' <- apply_op op cw ;; run_ops rest cw')%eff
  end.

(** Callbacks that only record their invocation: which callback ran, on
    which response. *)
Definition Trace : Type := list (string * ChatResponse).

Definition recorder (name : string) : Handler Trace :=
  fun r tr => (tr ++ [(name, r)])%list.

(** A client whose pending exchanges are exactly [ks], each with the
    recorder of its own identifier. *)
Definition pending (ks : list string) : WebSocketClient Trace :=
  {| socket := Some {| outbox := [] |};
     clientId := "client";
     messageHandlers := List.map (fun k => (k, recorder k)) ks;
     connectionHandlers := [] |}.

(** The identifiers with a registered callback. *)
Definition registered {W : Type} (c : WebSocketClient W) : list string :=
  List.map fst (messageHandlers c).

Definition world0 : World :=
  {| clock := fun n => 1000 + Z.of_nat n;
     uuids := fun n => "m" ++ string_of_nat (S n) |}.

Definition cursor0 : Cursor := {| ticks := 0; draws := 0 |}.

Definition fresh_client : WebSocketClient Trace :=
  {| socket := None;
     clientId := "client";
     messageHandlers := [];
     connectionHandlers := [] |}.

Definition ask (p : string) : ChatRequest :=
  {| prompt := p;
     conversation_id := None;
     system_prompt := None;
     max_tokens := None;
     temperature := None;
     top_p := None;
     task_type := None;
     user_id := None |}.

Definition reply (t : string) : ChatResponse :=
  {| text := t;
     model_used := "model";
     provider := "provider";
     tokens_used := 1;
     cost := 0%Q;
     latency_ms := 1;
     metadata := None;
     error := None |}.

End SocketRuns.

(** ** The conversation store, on concrete inputs *)
Module ChatRuns.

Import Socket ChatStore.

Definition cursor0 : Cursor := {| ticks := 0; draws := 0 |}.

(** A clock that advances by one unit per reading, and identifiers
    [c1], [c2], ... *)
Definition world0 : World :=
  {| clock := fun n => Z.of_nat n;
     uuids := fun n => "c" ++ string_of_nat (S n) |}.

Definition note (id content : string) : ChatMessage :=
  {| msg_id := id; msg_role := user; msg_content := content; msg_timestamp := Millis 0;
     msg_model := None; msg_provider := None; msg_tokens := None;
     msg_cost := None; msg_metadata := None |}.

(** Three conversations created one after the other; the user then goes
    back to the oldest one, writes in it, and returns to the newest. *)
Definition three_conversations : ChatState :=
  fst ((r1 <- createConversation None None initial ;;
        r2 <- createConversation None None (snd r1) ;;
        r3 <- createConversation None None (snd r2) ;;
        s4 <- addMessage (note "n1" "hello") (setActiveConversation "c1" (snd r3)) ;;
        ret (setActiveConversation "c3" s4))%eff world0 cursor0).

(** The conversation(s) the store designates as active. *)
Definition active_conversations (s : ChatState) : list Conversation :=
  List.filter (fun conv => is_id (activeConversationId s) (conv_id conv)) (conversations s).

Definition no_metadata : Metadata :=
  {| md_timestamp := None; md_model_used := None; md_provider := None;
     md_tokens_used := None; md_cost := None |}.

Definition turn (u a : string) (md : Metadata) : Api.ConversationMessage :=
  {| Api.user := u; Api.assistant := a; Api.cm_metadata := md |}.

(** Metadata that carries a timestamp and nothing else. *)
Definition sent_at (t : Z) : Metadata :=
  {| md_timestamp := Some t; md_model_used := None; md_provider := None;
     md_tokens_used := None; md_cost := None |}.

(** The two turns of the spec's scenario, as a backend without turn
    timestamps returns them. *)
Definition two_turns : list Api.ConversationMessage :=
  [turn "a" "b" no_metadata; turn "c" "d" no_metadata].

(** A clock that moves on by one millisecond after its fourth reading:
    for two turns, between the [map] pass and the [flatMap] pass. *)
Definition late_tick : World :=
  {| clock := fun n => if (n <? 4)%nat then 1000 else 1001;
     uuids := fun n => "c" ++ string_of_nat (S n) |}.

(** The timestamps of a reconstructed pair come from two readings of the
    clock, the user's first. *)
Definition two_readings (w : World) (u a : ChatMessage) : Prop :=
  exists j j', (j < j')%nat
               /\ msg_timestamp u = Date_getTime (clock w j)
               /\ msg_timestamp a = plus_millis (Date_getTime (clock w j')) 1.

(** How the timestamps of one reconstructed pair relate to the turn
    they come from: taken from the turn when it carries a timestamp,
    otherwise from two readings of the clock. *)
Definition stamped (w : World) (item : Api.ConversationMessage) (u a : ChatMessage) : Prop :=
  match md_timestamp (Api.cm_metadata item) with
  | Some t =>
      if t =? 0
      then two_readings w u a
      else msg_timestamp u = Date_getTime t
           /\ msg_timestamp a = plus_millis (Date_getTime t) 1
  | None => two_readings w u a
  end.

(** A clock whose readings are instants a [Date] can hold, as those of
    [Date.now()] are. *)
Definition time_valued (w : World) : Prop :=
  forall n, Z.abs (clock w n) <= max_time.

(** A clock that never goes backwards. *)
Definition monotone (w : World) : Prop :=
  forall i j, (i <= j)%nat -> clock w i <= clock w j.

(** A backend that only knows one conversation. *)
Definition history_backend (id : string) (h : list Api.ConversationMessage) : Api.apiClient :=
  {| Api.chat_send := fun _ => Rejected "unavailable";
     Api.memory_getConversation :=
       fun cid => if String.eqb cid id then Resolved {| Api.history := h |}
                  else Rejected "not found";
     Api.crew_create := fun _ => Rejected "unavailable";
     Api.crew_run := fun _ => Rejected "unavailable";
     Api.crew_getTemplates := Rejected "unavailable" |}.

(** One conversation, active, holding one earlier message. *)
Definition one_conversation : ChatState :=
  fst ((r1 <- createConversation None None initial ;;
        addMessage (note "n1" "earlier") (snd r1))%eff world0 cursor0).

End ChatRuns.

(** ** The send-turn handler, on concrete inputs *)
Module ContainerRuns.

Import Socket ChatStore ChatContainer.

(** [DEFAULT_MODEL_SETTINGS] of store/settingsStore.ts. *)
Definition default_settings : ModelSettings :=
  {| temperature := 7 # 10;
     maxTokens := 1024;
     topP := 9 # 10;
     preferredProvider := None;
     preferredModel := None |}.

(** A backend whose chat endpoint answers every request with [r]. *)
Definition answering (r : Settled Api.ChatResponse) : Api.apiClient :=
  {| Api.chat_send := fun _ => r;
     Api.memory_getConversation := fun _ => Rejected "unavailable";
     Api.crew_create := fun _ => Rejected "unavailable";
     Api.crew_run := fun _ => Rejected "unavailable";
     Api.crew_getTemplates := Rejected "unavailable" |}.

Definition hi_there : Api.ChatResponse :=
  {| Api.text := "hi there";
     Api.model_used := "qwen2.5-72b";
     Api.provider := "local";
     Api.tokens_used := 12;
     Api.cost := 3 # 1000;
     Api.latency_ms := 80;
     Api.metadata :=
       Some {| md_timestamp := Some 1700000000000;
               md_model_used := Some "qwen2.5-72b";
               md_provider := Some "local";
               md_tokens_used := Some 12;
               md_cost := Some (3 # 1000) |} |}.

(** A fresh session after the container's first effect has run:
    [createConversation('New Conversation')], then
    [setActiveConversation] on the new identifier. *)
Definition fresh_session : ChatState :=
  let r := fst (createConversation (Some "New Conversation") None initial
                                   ChatRuns.world0 ChatRuns.cursor0) in
  setActiveConversation (fst r) (snd r).

(** The cursor once that conversation exists. *)
Definition after_creation : Cursor := {| ticks := 2; draws := 1 |}.

(** Identifier and messages of every conversation. *)
Definition view (s : ChatState) : list (string * list ChatMessage) :=
  List.map (fun conv => (conv_id conv, conv_messages conv)) (conversations s).

(** What [updateMessage] does to one message. *)
Definition rewritten (id content : string) (msg : ChatMessage) : ChatMessage :=
  if String.eqb (msg_id msg) id then with_content msg content else msg.

(** The provenance a message carries. *)
Definition provenance (m : ChatMessage)
  : option string * option string * option Z * option Q * option Metadata :=
  (msg_model m, msg_provider m, msg_tokens m, msg_cost m, msg_metadata m).

End ContainerRuns.

(** ** The crew store, on concrete inputs *)
Module AgentRuns.

Import AgentStore.

Definition cursor0 : Cursor := {| ticks := 0; draws := 0 |}.

Definition world0 : World :=
  {| clock := fun n => 1000 + Z.of_nat n;
     uuids := fun n => "local-" ++ string_of_nat (S n) |}.

Definition empty_store : AgentState :=
  {| agents := [];
     crews := [];
     availableTemplates := [];
     availableTools := [];
     isLoading := false;
     error := None |}.

(** A backend given by what its crew endpoints answer. *)
Definition crew_backend (create : Settled Api.CrewResponse)
    (run : Settled Api.CrewRunResponse) : Api.apiClient :=
  {| Api.chat_send := fun _ => Rejected "unavailable";
     Api.memory_getConversation := fun _ => Rejected "unavailable";
     Api.crew_create := fun _ => create;
     Api.crew_run := fun _ => run;
     Api.crew_getTemplates := Rejected "Network Error" |}.

Definition issues (id : string) : Settled Api.CrewResponse :=
  Resolved {| Api.crew_id := id |}.

Definition finishes (text : string) : Settled Api.CrewRunResponse :=
  Resolved {| Api.run_crew_id := "abc123"; Api.result := text; Api.duration := 42 |}.

Definition draft_task (d agent : string) : Task :=
  {| task_id := "";
     task_description := d;
     task_agentId := agent;
     task_expectedOutput := "Comprehensive analysis";
     task_status := task_pending;
     task_result := None;
     task_createdAt := 0;
     task_updatedAt := 0 |}.

(** The draft of the spec's scenario: two agents, one task. *)
Definition two_agents_one_task : CrewData :=
  {| data_name := "research crew";
     data_agents := ["agent-1"; "agent-2"];
     data_tasks := [draft_task "survey the field" "agent-2"];
     data_processType := sequential;
     data_result := None;
     data_completedAt := None;
     data_duration := None |}.

(** The store after that draft was created with backend identifier
    [abc123]. *)
Definition one_idle_crew : AgentState :=
  snd (fst (createCrew (crew_backend (issues "abc123") (Rejected "unused"))
                       two_agents_one_task empty_store world0 cursor0)).

Definition after_one_crew : Cursor := {| ticks := 2; draws := 1 |}.

(** A patch that carries a status and nothing else. *)
Definition mark (st : CrewStatus) : CrewPatch :=
  {| patch_name := None;
     patch_agents := None;
     patch_tasks := None;
     patch_processType := None;
     patch_status := Some st;
     patch_result := None;
     patch_completedAt := None;
     patch_duration := None |}.

(** Identifier and status of every crew, in list order. *)
Definition statuses (s : AgentState) : list (string * CrewStatus) :=
  List.map (fun crew => (crew_id crew, crew_status crew)) (crews s).

(** The transitions of the state machine in the specification. *)
Definition allowed (from to : CrewStatus) : bool :=
  match from, to with
  | idle, running => true
  | running, completed => true
  | running, failed => true
  | completed, running => true
  | failed, running => true
  | _, _ => false
  end.

(** One observation of a crew to the next: nothing happened to its
    status, or an allowed transition did. *)
Definition lawful (from to : CrewStatus) : Prop :=
  from = to \/ allowed from to = true.

(** The store in which a failed run has left no other trace than the
    status [failed] of the targeted crews and the error message. *)
Definition only_failed_and_error (id : string) (s : AgentState) : AgentState :=
  {| agents := agents s;
     crews := List.map (fun crew => if String.eqb (crew_id crew) id
                                    then with_status crew failed (crew_updatedAt crew)
                                    else crew)
                       (crews s);
     availableTemplates := availableTemplates s;
     availableTools := availableTools s;
     isLoading := isLoading s;
     error := Some "Failed to run crew" |}.

(** How many crews carry an identifier. *)
Definition entries (id : string) (s : AgentState) : nat :=
  List.length (List.filter (fun crew => String.eqb (crew_id crew) id) (crews s)).

End AgentRuns.

(** ** The conversation store, driven from outside *)
Module ChatOps.

Import Socket ChatStore ChatContainer.

(** The identifiers of the conversations, in list order. *)
Definition ids (s : ChatState) : list string :=
  List.map conv_id (conversations s).

(** The selection is empty or designates a conversation of the list. *)
Definition selection_valid (s : ChatState) : Prop :=
  match activeConversationId s with
  | None => True
  | Some a => In a (ids s)
  end.

(** The state keeps its conversation identifiers and its selection. *)
Definition same_frame (s s' : ChatState) : Prop :=
  ids s' = ids s /\ activeConversationId s' = activeConversationId s.

(** [addMessage] called once per message, in list order. *)
Fixpoint addMessages (ms : list ChatMessage) (s : ChatState) : Eff ChatState :=
  match ms with
  | [] => ret s
  | m :: rest => (s' <- addMessage m s ;; addMessages rest s')%eff
  end.

(** Every action of the store, the send-turn handler and the selection
    effect.  A conversation is selected the way the sidebar does it: by
    clicking one of the listed conversations. *)
Inductive ChatOp : Type :=
| OpCreate (title systemPrompt : option string)
| OpSelectListed (n : nat)
| OpAddMessage (m : ChatMessage)
| OpUpdateMessage (id content : string)
| OpDeleteMessage (id : string)
| OpDeleteConversation (id : string)
| OpClear
| OpLoadHistory (api : Api.apiClient) (id : string)
| OpSetError (e : option string)
| OpSetLoading (loading : bool)
| OpUpdateTitle (id title : string)
| OpUpdateSystemPrompt (id systemPrompt : string)
| OpSend (api : Api.apiClient) (settings : ModelSettings) (content : string)
| OpEnsure.

Definition apply_op (op : ChatOp) (s : ChatState) : Eff ChatState :=
  match op with
  | OpCreate title systemPrompt =>
      (r <- createConversation title systemPrompt s ;; ret (snd r))%eff
  | OpSelectListed n =>
      match nth_error (conversations s) n with
      | Some conv => ret (setActiveConversation (conv_id conv) s)
      | None => ret s
      end
  | OpAddMessage m => addMessage m s
  | OpUpdateMessage id content => updateMessage id content s
  | OpDeleteMessage id => deleteMessage id s
  | OpDeleteConversation id => ret (deleteConversation id s)
  | OpClear => ret (clearConversations s)
  | OpLoadHistory api id => loadConversationHistory api id s
  | OpSetError e => ret (setError e s)
  | OpSetLoading loading => ret (setLoading loading s)
  | OpUpdateTitle id title => updateConversationTitle id title s
  | OpUpdateSystemPrompt id systemPrompt => updateSystemPrompt id systemPrompt s
  | OpSend api settings content => handleSendMessage api settings content s s
  | OpEnsure => ensureConversation s s
  end.

Fixpoint run_ops (ops : list ChatOp) (s : ChatState) : Eff ChatState :=
  match ops with
  | [] => ret s
  | op :: rest => (s' <- apply_op op s ;; run_ops rest s')%eff
  end.

End ChatOps.

(** ** The new-crew form, driven from outside *)
Module FormOps.

Import AgentStore AgentManager.

(** What the user can do to the form short of unchecking an agent: check
    an agent, name the crew, pick the process type, add a task, type a
    task's description or expected output, assign a task to one of the
    offered agents (the select offers the crew's members, in order),
    remove a task. *)
Inductive FormOp : Type :=
| FCheck (agentId : string)
| FSetName (name : string)
| FSetProcessType (p : ProcessType)
| FAddTask
| FDescribe (index : nat) (value : string)
| FExpect (index : nat) (value : string)
| FAssign (index : nat) (choice : nat)
| FRemoveTask (index : nat).

Definition apply_form_op (op : FormOp) (form : NewCrew) : NewCrew :=
  match op with
  | FCheck agentId => toggleAgent true agentId form
  | FSetName name => setName name form
  | FSetProcessType p => setProcessType p form
  | FAddTask => handleAddTask form
  | FDescribe index value => handleUpdateTask index field_description value form
  | FExpect index value => handleUpdateTask index field_expectedOutput value form
  | FAssign index choice =>
      match nth_error (nc_agents form) choice with
      | Some agentId => handleUpdateTask index field_agentId agentId form
      | None => form
      end
  | FRemoveTask index => handleRemoveTask index form
  end.

Definition run_form (ops : list FormOp) (form : NewCrew) : NewCrew :=
  fold_left (fun f op => apply_form_op op f) ops form.

(** Every task of the form is assigned to a member of the crew. *)
Definition assigned_to_members (form : NewCrew) : Prop :=
  Forall (fun task => In (ft_agentId task) (nc_agents form)) (nc_tasks form).

(** The tasks of the request [createCrew] builds from a form. *)
Definition requested_tasks (form : NewCrew) (s : AgentState) (w : World) (c : Cursor)
  : list Api.CrewTaskRequest :=
  Api.tasks (draft_request (fst (fst (createCrew_start (draft_of form) s w c)))).

End FormOps.

(** ** Words for the remaining statements *)
Module MoreVocabulary.

(** [Map.prototype.get] *)
Fixpoint Map_get {W : Type} (k : string) (m : list (string * Socket.Handler W))
  : option (Socket.Handler W) :=
  match m with
  | [] => None
  | (k', h) :: m' => if String.eqb k' k then Some h else Map_get k m'
  end.

(** Every character of the text is white space. *)
Fixpoint all_space (s : string) : bool :=
  match s with
  | EmptyString => true
  | String ch rest => is_space ch && all_space rest
  end.

(** The characters that start a word: not a space, and first of the
    text or right after a space. *)
Fixpoint word_starts (after_space : bool) (s : string) : string :=
  match s with
  | EmptyString => EmptyString
  | String ch rest =>
      if Ascii.eqb ch " " then word_starts true rest
      else if after_space then String ch (word_starts false rest)
           else word_starts false rest
  end.

(** A text no character of which is a space. *)
Fixpoint spaceless (s : string) : bool :=
  match s with
  | EmptyString => true
  | String ch rest => negb (Ascii.eqb ch " ") && spaceless rest
  end.

Definition all_digits (l : list ascii) : Prop :=
  Forall (fun ch => Utils.is_digit ch = true) l.

(** A text made of decimal digits. *)
Definition digit_string (s : string) : Prop :=
  all_digits (list_ascii_of_string s).

(** The text without its commas. *)
Definition strip_commas (l : list ascii) : list ascii :=
  List.filter (fun ch => negb (Ascii.eqb ch ","%char)) l.

(** Reading a decimal numeral back. *)
Definition parse_decimal (l : list ascii) : option Z :=
  option_map Z.of_int (NilZero.int_of_string (string_of_list_ascii l)).

(** [Number.MAX_SAFE_INTEGER] *)
Definition MAX_SAFE_INTEGER : Z := 9007199254740991.

(** What the built-in [toString] gives for a safe integer: its decimal
    digits, after a minus sign for a negative one.  Nothing is said
    about larger numbers, which it renders with an exponent from
    [10^21] on. *)
Definition decimal_on_safe_integers (toString : Z -> string) : Prop :=
  forall z, Z.abs z <= MAX_SAFE_INTEGER -> toString z = string_of_Z z.

(** A rendering of that kind: plain decimal below [10^21], with an
    exponent beyond. *)
Definition plain_or_exponent (z : Z) : string :=
  if Z.abs z <? 10 ^ 21 then string_of_Z z
  else if z <? 0 then "-1e+21" else "1e+21".

End MoreVocabulary.

(** A computation draws no identifier. *)
Definition keeps_draws {A : Type} (m : Eff A) : Prop :=
  forall w c, draws (snd (m w c)) = draws c.

(** * Running effectful code, and a few facts about lists *)

Lemma bind_run {A B : Type} (m : Eff A) (k : A -> Eff B) w c :
  bind m k w c = k (fst (m w c)) w (snd (m w c)).
Proof. unfold bind. destruct (m w c); reflexivity. Qed.

Lemma ret_run {A : Type} (a : A) w c : ret a w c = (a, c).
Proof. reflexivity. Qed.

Lemma advances_ret {A : Type} (a : A) : advances (ret a).
Proof. intros w c; simpl; lia. Qed.

Lemma advances_Date_now : advances Date_now.
Proof. intros w c; simpl; lia. Qed.

Lemma advances_uuidv4 : advances uuidv4.
Proof. intros w c; simpl; lia. Qed.

Lemma advances_bind {A B : Type} (m : Eff A) (k : A -> Eff B) :
  advances m -> (forall a, advances (k a)) -> advances (bind m k).
Proof.
  intros Hm Hk w c. rewrite bind_run.
  specialize (Hm w c). specialize (Hk (fst (m w c)) w (snd (m w c))). lia.
Qed.

Create HintDb eff.
#[local] Hint Resolve advances_ret advances_Date_now advances_uuidv4 advances_bind : eff.

Lemma mapiM_from_cons {A B : Type} (f : nat -> A -> Eff B) i x xs w c :
  mapiM_from i f (x :: xs) w c =
  (fst (f i x w c) :: fst (mapiM_from (S i) f xs w (snd (f i x w c))),
   snd (mapiM_from (S i) f xs w (snd (f i x w c)))).
Proof.
  simpl. rewrite bind_run, bind_run, ret_run. reflexivity.
Qed.

Lemma advances_mapiM_from {A B : Type} (f : nat -> A -> Eff B) :
  (forall i x, advances (f i x)) ->
  forall l i, advances (mapiM_from i f l).
Proof.
  intros Hf l; induction l as [|x xs IH]; intros i w c.
  - simpl; lia.
  - rewrite mapiM_from_cons; simpl.
    specialize (Hf i x w c). specialize (IH (S i) w (snd (f i x w c))). lia.
Qed.

Lemma mapiM_from_length {A B : Type} (f : nat -> A -> Eff B) w :
  forall l i c, List.length (fst (mapiM_from i f l w c)) = List.length l.
Proof.
  induction l as [|x xs IH]; intros i c.
  - reflexivity.
  - rewrite mapiM_from_cons; simpl. now rewrite IH.
Qed.

(** The [n]-th output is the callback run on the [n]-th input, at some
    cursor between the start and the end of the traversal. *)
Lemma mapiM_from_nth {A B : Type} (f : nat -> A -> Eff B) w :
  (forall i x, advances (f i x)) ->
  forall l i c n x,
    nth_error l n = Some x ->
    exists c0,
      nth_error (fst (mapiM_from i f l w c)) n = Some (fst (f (i + n)%nat x w c0))
      /\ (ticks c <= ticks c0)%nat
      /\ (ticks (snd (f (i + n)%nat x w c0)) <= ticks (snd (mapiM_from i f l w c)))%nat.
Proof.
  intros Hf l; induction l as [|y ys IH]; intros i c n x Hn.
  - destruct n; discriminate.
  - rewrite mapiM_from_cons; simpl. destruct n as [|n]; simpl in Hn.
    + injection Hn as ->. exists c. rewrite Nat.add_0_r. repeat split; auto.
      apply (advances_mapiM_from f Hf ys (S i) w).
    + destruct (IH (S i) (snd (f i y w c)) n x Hn) as (c0 & E & Hlo & Hhi).
      exists c0. replace (i + S n)%nat with (S i + n)%nat by lia.
      repeat split; auto. specialize (Hf i y w c). lia.
Qed.

(** Element by element, [map] with an effectful callback. *)
Lemma mapM_Forall2 {A B : Type} (f : A -> Eff B) w :
  (forall x, advances (f x)) ->
  forall l c,
    Forall2 (fun x y => exists c0, (ticks c <= ticks c0)%nat /\ y = fst (f x w c0))
            l (fst (mapM f l w c)).
Proof.
  intros Hf. unfold mapM, mapiM. generalize 0%nat.
  intros i l; revert i. induction l as [|x xs IH]; intros i c.
  - constructor.
  - rewrite mapiM_from_cons; simpl. constructor.
    + exists c; split; auto.
    + eapply Forall2_impl; [|apply IH].
      intros a b (c0 & Hle & ->). exists c0; split; auto.
      specialize (Hf x w c). lia.
Qed.

Lemma advances_mapM {A B : Type} (f : A -> Eff B) l :
  (forall x, advances (f x)) -> advances (mapM f l).
Proof. intros Hf. apply advances_mapiM_from. intros _; apply Hf. Qed.

Lemma Forall2_diag {A : Type} (R : A -> A -> Prop) l x :
  Forall2 R l l -> In x l -> R x x.
Proof.
  induction l as [|y ys IH]; intros H Hin; [destruct Hin|].
  inversion H; subst. destruct Hin as [->|Hin]; auto.
Qed.

Lemma filter_head_find {A : Type} (p : A -> bool) (l : list A) :
  hd_error (List.filter p l) = List.find p l.
Proof.
  induction l as [|x xs IH]; simpl; [reflexivity|].
  destruct (p x); simpl; auto.
Qed.

Lemma map_untouched {A : Type} (p : A -> bool) (g : A -> A) (l : list A) :
  (forall x, In x l -> p x = false) ->
  List.map (fun x => if p x then g x else x) l = l.
Proof.
  induction l as [|x xs IH]; simpl; intros H; [reflexivity|].
  rewrite (H x) by auto. f_equal. apply IH. auto.
Qed.

Lemma filter_untouched {A : Type} (p : A -> bool) (l : list A) :
  (forall x, In x l -> p x = true) -> List.filter p l = l.
Proof.
  induction l as [|x xs IH]; simpl; intros H; [reflexivity|].
  rewrite (H x) by auto. f_equal. apply IH. auto.
Qed.

Lemma Forall2_impl_In {A B : Type} (R R' : A -> B -> Prop) l l' :
  (forall x y, In x l -> R x y -> R' x y) -> Forall2 R l l' -> Forall2 R' l l'.
Proof.
  intros H HF; induction HF as [|a b l l' Hab _ IH]; constructor.
  - apply H; [left; reflexivity|assumption].
  - apply IH. intros x y Hin; apply H; right; assumption.
Qed.

Lemma Forall2_In_l {A B : Type} (R : A -> B -> Prop) l l' x :
  Forall2 R l l' -> In x l -> exists y, In y l' /\ R x y.
Proof.
  induction 1 as [|a b l l' Hab _ IH]; intros Hin; [destruct Hin|].
  destruct Hin as [->|Hin].
  - exists b; split; [left; reflexivity|assumption].
  - destruct (IH Hin) as (y & Hy & HR). exists y; split; [right|]; assumption.
Qed.

Lemma Forall2_map_eq {A B C : Type} (g : A -> C) (h : B -> C) l l' :
  Forall2 (fun x y => h y = g x) l l' -> List.map h l' = List.map g l.
Proof. induction 1; simpl; congruence. Qed.

Lemma Forall2_compose {A B C : Type} (R : A -> B -> Prop) (S : B -> C -> Prop) l1 l2 l3 :
  Forall2 R l1 l2 -> Forall2 S l2 l3 ->
  Forall2 (fun a c => exists b, R a b /\ S b c) l1 l3.
Proof.
  intros H; revert l3. induction H as [|a b l1 l2 Hab _ IH]; intros l3 H3;
    inversion H3; subst; constructor; eauto.
Qed.


(** * The push channel *)
Module SocketSpec.

Import Socket SocketRuns.

Lemma recorders_fold (r : ChatResponse) (ks : list string) :
  forall tr : Trace,
    fold_left (fun acc (kh : string * Handler Trace) => snd kh r acc)
              (List.map (fun k => (k, recorder k)) ks) tr
    = (tr ++ List.map (fun k => (k, r)) ks)%list.
Proof.
  induction ks as [|k ks IH]; intros tr; simpl.
  - now rewrite app_nil_r.
  - rewrite IH. unfold recorder. now rewrite <- app_assoc.
Qed.

Lemma Map_set_keeps {W : Type} (k k' : string) (h : Handler W) m :
  In k (List.map fst m) -> In k (List.map fst (Map_set k' h m)).
Proof.
  induction m as [|[k0 h0] m IH]; simpl; intros Hin; [tauto|].
  destruct (String.eqb_spec k0 k') as [->|Hne]; simpl; tauto.
Qed.

Lemma sendMessage_registered {W : Type} req (h : Handler W) c x w cur :
  registered (fst (fst (sendMessage req h (c, x) w cur)))
  = List.map fst (Map_set (uuids w (draws cur)) h (messageHandlers c)).
Proof.
  unfold sendMessage, registered. rewrite bind_run. simpl.
  destruct (socket c) as [io|] eqn:E; simpl.
  - rewrite E. reflexivity.
  - unfold connect. rewrite E. reflexivity.
Qed.

Lemma apply_op_keeps {W : Type} (op : ClientOp W) cw w cur k :
  In k (registered (fst cw)) ->
  In k (registered (fst (fst (apply_op op cw w cur)))).
Proof.
  destruct cw as [c x]. destruct op; unfold apply_op; intros Hin.
  - rewrite ret_run; simpl. unfold connect. destruct (socket c); exact Hin.
  - rewrite ret_run; simpl. unfold disconnect. destruct (socket c); exact Hin.
  - rewrite sendMessage_registered. now apply Map_set_keeps.
  - exact Hin.
Qed.

Lemma on_message_pending (ks : list string) (ev : PushEvent) (tr : Trace) :
  on_message ev (pending ks, tr)
  = (pending ks, (tr ++ List.map (fun k => (k, body ev)) ks)%list).
Proof.
  unfold on_message, handleMessage; simpl. now rewrite recorders_fold.
Qed.

(** C3, as the code has it: an incoming push message is handed to every
    registered callback, in registration order, whatever message
    identifier it echoes -- also when that identifier is the key of one
    of the registered callbacks.  For any client, two push messages with
    the same body have the same effect, whatever they echo; for a client
    whose callbacks record their invocations, every callback is recorded
    once per message, in order. *)
Theorem handleMessage_broadcasts_to_all :
  (forall (W : Type) (c : WebSocketClient W) (e1 e2 : option string)
          (r : ChatResponse) (w : W),
      on_message {| echoed_message_id := e1; body := r |} (c, w)
      = on_message {| echoed_message_id := e2; body := r |} (c, w))
  /\ (forall (ks : list string) (echoed : option string) (r : ChatResponse) (tr : Trace),
         on_message {| echoed_message_id := echoed; body := r |} (pending ks, tr)
         = (pending ks, (tr ++ List.map (fun k => (k, r)) ks)%list)).
Proof.
  split.
  - reflexivity.
  - intros ks echoed r tr. apply on_message_pending.
Qed.

(** C3 as stated fails: with callbacks registered under [m1] and [m2], a
    push message echoing [m1] also reaches the callback of [m2]. *)
Lemma handleMessage_reaches_other_handler :
  let ev := {| echoed_message_id := Some "m1"; body := reply "for m1" |} in
  In "m1" (registered (pending ["m1"; "m2"]))
  /\ snd (on_message ev (pending ["m1"; "m2"], []))
     = [("m1", reply "for m1"); ("m2", reply "for m1")]
  /\ snd (on_message ev (pending ["m1"; "m2"], [])) <> [("m1", reply "for m1")].
Proof.
  cbv zeta. split; [simpl; tauto|]. split; [reflexivity|]. discriminate.
Qed.

(** C8, as the code has it: no operation of the client removes a pending
    exchange.  An identifier registered at some point is registered
    after any further sequence of connects, disconnects, sends and
    incoming messages; and a callback that has received one message
    receives the next one as well. *)
Theorem messageHandlers_never_removed :
  (forall (W : Type) (ops : list (ClientOp W)) cw w cur k,
      In k (registered (fst cw)) ->
      In k (registered (fst (fst (run_ops ops cw w cur)))))
  /\ (forall (ks : list string) (ev1 ev2 : PushEvent) (tr : Trace),
         on_message ev2 (on_message ev1 (pending ks, tr))
         = (pending ks,
            (tr ++ List.map (fun k => (k, body ev1)) ks
                ++ List.map (fun k => (k, body ev2)) ks)%list)).
Proof.
  split.
  - intros W ops; induction ops as [|op ops IH]; intros cw w cur k Hin.
    + exact Hin.
    + simpl. rewrite bind_run. apply IH. now apply apply_op_keeps.
  - intros ks ev1 ev2 tr.
    rewrite !on_message_pending. now rewrite <- app_assoc.
Qed.

Lemma messageHandlers_never_removed_witness :
  In "m1" (registered (fst (fst (run_ops
             [OpMessage {| echoed_message_id := Some "m1"; body := reply "done" |};
              OpDisconnect; OpSend (ask "again") (recorder "later")]
             (pending ["m1"], []) world0 cursor0)))).
Proof.
  apply (proj1 messageHandlers_never_removed). simpl. tauto.
Defined.

(** C8 as stated fails: the callback registered by [sendMessage] under
    [m1] is still registered after it has received its response, and the
    next push message, meant for somebody else, invokes it again. *)
Lemma handler_survives_its_response :
  let cw1 := fst (sendMessage (ask "hello") (recorder "cb") (fresh_client, []) world0 cursor0) in
  let cw2 := on_message {| echoed_message_id := Some "m1"; body := reply "first" |} cw1 in
  let cw3 := on_message {| echoed_message_id := Some "other"; body := reply "second" |} cw2 in
  registered (fst cw1) = ["m1"]
  /\ snd cw2 = [("cb", reply "first")]
  /\ registered (fst cw2) = ["m1"]
  /\ snd cw3 = [("cb", reply "first"); ("cb", reply "second")].
Proof.
  cbv zeta. repeat split; reflexivity.
Qed.

End SocketSpec.

(** * The conversation store *)
Module ChatStoreSpec.

Import Socket ChatStore ChatRuns.

(** C6, as the code has it: when the active conversation is deleted, the
    new active conversation is the first one left in list order (the
    first conversation of the list with another identifier), or [null]
    when none is left; deleting a conversation that is not the active one
    leaves the selection alone.  The conversations left are those with
    another identifier. *)
Theorem deleteConversation_selects_first_remaining :
  forall (id : string) (s : ChatState),
    (activeConversationId s = Some id ->
     activeConversationId (deleteConversation id s)
     = option_map conv_id
         (List.find (fun conv => negb (String.eqb (conv_id conv) id)) (conversations s)))
    /\ (activeConversationId s <> Some id ->
        activeConversationId (deleteConversation id s) = activeConversationId s)
    /\ (forall conv,
           In conv (conversations (deleteConversation id s))
           <-> In conv (conversations s) /\ conv_id conv <> id).
Proof.
  intros id s. unfold deleteConversation; simpl. repeat split.
  - intros ->. simpl. rewrite String.eqb_refl.
    rewrite <- filter_head_find.
    destruct (List.filter _ (conversations s)); reflexivity.
  - intros Hne. destruct (activeConversationId s) as [a|]; simpl; [|reflexivity].
    destruct (String.eqb_spec a id) as [->|]; [congruence|reflexivity].
  - apply filter_In in H; tauto.
  - apply filter_In in H as [_ H]. intros E.
    apply (f_equal negb) in H. rewrite negb_involutive in H.
    apply String.eqb_neq in H. contradiction.
  - intros [Hin Hne]. apply filter_In. split; auto.
    apply String.eqb_neq in Hne. now rewrite Hne.
Qed.

Lemma deleteConversation_selects_first_remaining_witness :
  activeConversationId three_conversations = Some "c3"
  /\ activeConversationId (deleteConversation "c3" three_conversations) = Some "c2".
Proof.
  split; [reflexivity|].
  rewrite (proj1 (deleteConversation_selects_first_remaining "c3" three_conversations));
    reflexivity.
Defined.

(** C6 as stated fails: after three conversations were created and the
    oldest one was written to, deleting the active (newest) one selects
    the second, although the oldest one was updated more recently. *)
Lemma deleteConversation_not_most_recently_updated :
  let s' := deleteConversation "c3" three_conversations in
  activeConversationId three_conversations = Some "c3"
  /\ List.map (fun conv => (conv_id conv, conv_updatedAt conv)) (conversations s')
     = [("c2", 3); ("c1", 6)]
  /\ activeConversationId s' = Some "c2"
  /\ exists newer,
       In newer (conversations s')
       /\ forall conv, In conv (active_conversations s') ->
                       conv_updatedAt conv < conv_updatedAt newer.
Proof.
  cbv zeta. split; [reflexivity|]. split; [reflexivity|]. split; [reflexivity|].
  eexists. split.
  - right; left; reflexivity.
  - intros conv [<-|[]]. reflexivity.
Qed.

(** What [on_active] does to each conversation when there is an active
    identifier: the ones carrying it get [f] applied to their messages
    and a reading of the clock taken during the call, the others are
    left as they are. *)
Lemma on_active_spec (f : list ChatMessage -> list ChatMessage) s w c a :
  activeConversationId s = Some a -> a <> "" ->
  let s' := fst (on_active f s w c) in
  activeConversationId s' = Some a
  /\ isLoading s' = isLoading s
  /\ error s' = error s
  /\ Forall2 (fun conv conv' =>
                if String.eqb a (conv_id conv)
                then exists j, (ticks c <= j)%nat
                               /\ conv' = with_messages conv (f (conv_messages conv)) (clock w j)
                else conv' = conv)
             (conversations s) (conversations s').
Proof.
  intros Ha Hne. unfold on_active. rewrite Ha. simpl.
  apply String.eqb_neq in Hne. rewrite Hne. simpl.
  rewrite bind_run, ret_run. simpl. repeat split; auto.
  eapply Forall2_impl; [|apply mapM_Forall2].
  - intros conv conv' (c0 & Hle & ->).
    destruct (String.eqb a (conv_id conv)).
    + rewrite bind_run, ret_run. simpl. eauto.
    + reflexivity.
  - intros conv. destruct (String.eqb a (conv_id conv)); auto with eff.
Qed.

(** C10: with an active conversation and an identifier that none of its
    messages carries, [updateMessage] and [deleteMessage] leave every
    conversation's messages (and identifier, title, creation time and
    system prompt) as they were, yet the active conversation gets a
    fresh [updatedAt], read from the clock during the call; so the state
    changes as soon as that reading is not the old [updatedAt]. *)
Theorem stale_message_id_still_bumps_updatedAt :
  forall (w : World) (c : Cursor) (s : ChatState) (a id content : string),
    activeConversationId s = Some a ->
    a <> "" ->
    (forall conv m, In conv (conversations s) -> conv_id conv = a ->
                    In m (conv_messages conv) -> msg_id m <> id) ->
    forall s' : ChatState,
      s' = fst (updateMessage id content s w c) \/ s' = fst (deleteMessage id s w c) ->
      activeConversationId s' = Some a
      /\ Forall2 (fun conv conv' =>
                    conv_messages conv' = conv_messages conv
                    /\ conv_id conv' = conv_id conv
                    /\ conv_title conv' = conv_title conv
                    /\ conv_createdAt conv' = conv_createdAt conv
                    /\ conv_systemPrompt conv' = conv_systemPrompt conv
                    /\ if String.eqb a (conv_id conv)
                       then exists j, (ticks c <= j)%nat /\ conv_updatedAt conv' = clock w j
                       else conv_updatedAt conv' = conv_updatedAt conv)
                 (conversations s) (conversations s')
      /\ forall conv, In conv (conversations s) -> conv_id conv = a ->
                      (forall j, clock w j <> conv_updatedAt conv) ->
                      s' <> s.
Proof.
  intros w c s a id content Ha Hne Hstale s' Hs'.
  assert (Hshape : activeConversationId s' = Some a
            /\ Forall2 (fun conv conv' =>
                          if String.eqb a (conv_id conv)
                          then exists j, (ticks c <= j)%nat
                                 /\ conv' = with_messages conv (conv_messages conv) (clock w j)
                          else conv' = conv)
                       (conversations s) (conversations s')).
  { destruct Hs' as [-> | ->].
    - destruct (on_active_spec
                  (List.map (fun msg => if String.eqb (msg_id msg) id
                                        then with_content msg content else msg))
                  s w c a Ha Hne) as (Hact & _ & _ & HF).
      split; [exact Hact|].
      eapply Forall2_impl_In; [|exact HF]. intros conv conv' Hin H.
      cbv beta in H |- *.
      destruct (String.eqb_spec a (conv_id conv)) as [E|]; [|exact H].
      destruct H as (j & Hj & ->). exists j; split; [exact Hj|].
      f_equal. apply map_untouched. intros m Hm.
      apply String.eqb_neq. eapply Hstale; eauto.
    - destruct (on_active_spec
                  (List.filter (fun msg => negb (String.eqb (msg_id msg) id)))
                  s w c a Ha Hne) as (Hact & _ & _ & HF).
      split; [exact Hact|].
      eapply Forall2_impl_In; [|exact HF]. intros conv conv' Hin H.
      cbv beta in H |- *.
      destruct (String.eqb_spec a (conv_id conv)) as [E|]; [|exact H].
      destruct H as (j & Hj & ->). exists j; split; [exact Hj|].
      f_equal. apply filter_untouched. intros m Hm.
      apply negb_true_iff. apply String.eqb_neq. eapply Hstale; eauto. }
  destruct Hshape as [Hact HF]. split; [exact Hact|]. split.
  - eapply Forall2_impl; [|exact HF]. intros conv conv' H.
    cbv beta in H |- *.
    destruct (String.eqb a (conv_id conv)).
    + destruct H as (j & Hj & ->). simpl. repeat split; eauto.
    + subst conv'. repeat split; reflexivity.
  - intros conv Hin Hid Hfresh Heq. rewrite Heq in HF.
    pose proof (Forall2_diag _ _ conv HF Hin) as H. cbv beta in H.
    rewrite Hid, String.eqb_refl in H. destruct H as (j & _ & E).
    apply (Hfresh j). rewrite E. reflexivity.
Qed.

Lemma stale_message_id_still_bumps_updatedAt_witness :
  let s' := fst (updateMessage "gone" "late answer" one_conversation world0
                               {| ticks := 3; draws := 1 |}) in
  List.map (fun conv => (conv_id conv, List.map msg_content (conv_messages conv),
                         conv_updatedAt conv)) (conversations one_conversation)
  = [("c1", ["earlier"], 2)]
  /\ List.map (fun conv => (conv_id conv, List.map msg_content (conv_messages conv),
                            conv_updatedAt conv)) (conversations s')
     = [("c1", ["earlier"], 3)]
  /\ activeConversationId s' = Some "c1".
Proof.
  cbv zeta. split; [reflexivity|]. split; [reflexivity|].
  refine (proj1 (stale_message_id_still_bumps_updatedAt
                   world0 {| ticks := 3; draws := 1 |} one_conversation
                   "c1" "gone" "late answer" _ _ _ _ (or_introl eq_refl))).
  - reflexivity.
  - discriminate.
  - intros conv m [<-|[]] _ [<-|[]]. discriminate.
Defined.

(** ** Loading the history *)

Lemma advances_timestamp_or_now md : advances (timestamp_or_now md).
Proof.
  unfold timestamp_or_now. apply advances_bind; [|auto with eff].
  destruct (md_timestamp md) as [t|]; [destruct (t =? 0)|]; auto with eff.
Qed.

Lemma advances_history_user n item : advances (history_user n item).
Proof.
  unfold history_user.
  apply advances_bind; [auto with eff|intros stamp].
  apply advances_bind; [apply advances_timestamp_or_now|intros t]. auto with eff.
Qed.

Lemma advances_history_pair history n u : advances (history_pair history n u).
Proof.
  unfold history_pair. destruct (nth_error history n); [|auto with eff].
  apply advances_bind; [auto with eff|intros stamp].
  apply advances_bind; [apply advances_timestamp_or_now|intros t]. auto with eff.
Qed.

(** What the callback of [map] builds, and which reading it takes. *)
Lemma history_user_run n item w c0 :
  let u := fst (history_user n item w c0) in
  msg_role u = user
  /\ msg_content u = Api.user item
  /\ match md_timestamp (Api.cm_metadata item) with
     | Some t =>
         if t =? 0
         then msg_timestamp u = Date_getTime (clock w (S (ticks c0)))
              /\ ticks (snd (history_user n item w c0)) = S (S (ticks c0))
         else msg_timestamp u = Date_getTime t
     | None => msg_timestamp u = Date_getTime (clock w (S (ticks c0)))
               /\ ticks (snd (history_user n item w c0)) = S (S (ticks c0))
     end.
Proof.
  unfold history_user, timestamp_or_now, bind, Date_now, ret; simpl.
  destruct (md_timestamp (Api.cm_metadata item)) as [t|]; [destruct (t =? 0)|];
    simpl; auto.
Qed.

(** What the callback of [flatMap] builds, and which reading it takes. *)
Lemma history_pair_run history n item u w c0 :
  nth_error history n = Some item ->
  exists a,
    fst (history_pair history n u w c0) = [u; a]
    /\ msg_role a = assistant
    /\ msg_content a = Api.assistant item
    /\ match md_timestamp (Api.cm_metadata item) with
       | Some t =>
           if t =? 0
           then msg_timestamp a = plus_millis (Date_getTime (clock w (S (ticks c0)))) 1
           else msg_timestamp a = plus_millis (Date_getTime t) 1
       | None => msg_timestamp a = plus_millis (Date_getTime (clock w (S (ticks c0)))) 1
       end.
Proof.
  intros Hn. unfold history_pair, timestamp_or_now, bind, Date_now, ret. rewrite Hn; simpl.
  destruct (md_timestamp (Api.cm_metadata item)) as [t|]; [destruct (t =? 0)|];
    simpl; eexists; repeat split; reflexivity.
Qed.

Lemma concat_pairs {A : Type} (yss : list (list A)) :
  (forall n, (n < List.length yss)%nat -> exists u a, nth_error yss n = Some [u; a]) ->
  List.length (List.concat yss) = (2 * List.length yss)%nat
  /\ forall n u a, nth_error yss n = Some [u; a] ->
                   nth_error (List.concat yss) (2 * n) = Some u
                   /\ nth_error (List.concat yss) (2 * n + 1) = Some a.
Proof.
  induction yss as [|ys yss IH]; intros H.
  - split; [reflexivity|]. intros n u a Hn. destruct n; discriminate.
  - destruct (H 0%nat) as (u0 & a0 & E0); [simpl; lia|].
    simpl in E0. injection E0 as ->.
    destruct IH as [IHlen IHnth].
    { intros n Hn. apply (H (S n)). simpl; lia. }
    split.
    + simpl. rewrite IHlen. lia.
    + intros n u a Hn. destruct n as [|n]; simpl in Hn.
      * injection Hn as -> ->. split; reflexivity.
      * destruct (IHnth n u a Hn) as [Hu Ha].
        replace (2 * S n)%nat with (S (S (2 * n))) by lia.
        replace (S (S (2 * n)) + 1)%nat with (S (S (2 * n + 1))) by lia.
        simpl. split; assumption.
Qed.

(** The reconstructed message list: two messages per turn, in turn
    order, the user's first. *)
Lemma history_messages_spec history w c :
  let msgs := fst (history_messages history w c) in
  List.length msgs = (2 * List.length history)%nat
  /\ forall n item,
       nth_error history n = Some item ->
       exists u a,
         nth_error msgs (2 * n) = Some u
         /\ nth_error msgs (2 * n + 1) = Some a
         /\ msg_role u = user /\ msg_content u = Api.user item
         /\ msg_role a = assistant /\ msg_content a = Api.assistant item
         /\ stamped w item u a.
Proof.
  unfold history_messages, flatMapiM. rewrite !bind_run, ret_run. simpl.
  unfold mapiM.
  set (users := fst (mapiM_from 0 history_user history w c)).
  set (c1 := snd (mapiM_from 0 history_user history w c)).
  set (yss := fst (mapiM_from 0 (history_pair history) users w c1)).
  assert (Hlen_users : List.length users = List.length history)
    by apply mapiM_from_length.
  assert (Hlen_yss : List.length yss = List.length users)
    by apply mapiM_from_length.
  assert (Hturn : forall n item, nth_error history n = Some item ->
            exists u a, nth_error yss n = Some [u; a]
              /\ msg_role u = user /\ msg_content u = Api.user item
              /\ msg_role a = assistant /\ msg_content a = Api.assistant item
              /\ stamped w item u a).
  { intros n item Hn.
    destruct (mapiM_from_nth history_user w advances_history_user history 0 c n item Hn)
      as (c0 & Hu & _ & Hhi). fold users in Hu. fold c1 in Hhi. simpl in Hu, Hhi.
    destruct (mapiM_from_nth (history_pair history) w (advances_history_pair history)
                users 0 c1 n _ Hu) as (c0' & Hp & Hlo & _). fold yss in Hp. simpl in Hp.
    destruct (history_pair_run history n item (fst (history_user n item w c0)) w c0' Hn)
      as (a & Epair & Hrole & Hcontent & Hstamp).
    destruct (history_user_run n item w c0) as (Hurole & Hucontent & Hustamp).
    exists (fst (history_user n item w c0)), a.
    rewrite Hp, Epair. repeat split; auto.
    unfold stamped, two_readings.
    destruct (md_timestamp (Api.cm_metadata item)) as [t|]; [destruct (t =? 0)|].
    - destruct Hustamp as [Hts Hticks].
      exists (S (ticks c0)), (S (ticks c0')). repeat split; auto; lia.
    - split; assumption.
    - destruct Hustamp as [Hts Hticks].
      exists (S (ticks c0)), (S (ticks c0')). repeat split; auto; lia. }
  destruct (concat_pairs yss) as [Hlen Hnth].
  { intros n Hn. rewrite Hlen_yss, Hlen_users in Hn.
    destruct (nth_error history n) as [item|] eqn:E.
    - destruct (Hturn n item E) as (u & a & Hy & _). eauto.
    - apply nth_error_None in E. lia. }
  split.
  - rewrite Hlen, Hlen_yss, Hlen_users. reflexivity.
  - intros n item Hn.
    destruct (Hturn n item Hn) as (u & a & Hy & H).
    destruct (Hnth n u a Hy) as [Hu Ha].
    exists u, a. repeat split; try assumption; apply H.
Qed.

Lemma Date_getTime_in_range n :
  Z.abs n <= max_time -> Date_getTime n = Millis n.
Proof.
  intros H. unfold Date_getTime. apply Z.leb_le in H. now rewrite H.
Qed.

Lemma Date_getTime_out_of_range n :
  max_time < Z.abs n -> Date_getTime n = NaN.
Proof.
  intros H. unfold Date_getTime. apply Z.leb_gt in H. now rewrite H.
Qed.

(** A turn timestamp the code uses: what the two messages carry. *)
Lemma stamped_from_turn w item u a t :
  md_timestamp (Api.cm_metadata item) = Some t -> t <> 0 ->
  stamped w item u a ->
  if Z.abs t <=? max_time
  then msg_timestamp u = Millis t /\ msg_timestamp a = Millis (t + 1)
  else msg_timestamp u = NaN /\ msg_timestamp a = NaN.
Proof.
  intros Hmd Hnz. unfold stamped. rewrite Hmd.
  apply Z.eqb_neq in Hnz. rewrite Hnz. intros [-> ->].
  unfold Date_getTime. destruct (Z.abs t <=? max_time); split; reflexivity.
Qed.

(** No turn timestamp the code can use: the clock decides. *)
Lemma stamped_from_clock w item u a :
  monotone w -> time_valued w ->
  md_timestamp (Api.cm_metadata item) = None
  \/ md_timestamp (Api.cm_metadata item) = Some 0 ->
  stamped w item u a ->
  exists tu ta, msg_timestamp u = Millis tu /\ msg_timestamp a = Millis ta
                /\ tu + 1 <= ta.
Proof.
  intros Hmono Hvalid Hmd. unfold stamped.
  assert (Hread : two_readings w u a ->
                  exists tu ta, msg_timestamp u = Millis tu /\ msg_timestamp a = Millis ta
                                /\ tu + 1 <= ta).
  { intros (j & j' & Hlt & -> & ->).
    rewrite !Date_getTime_in_range by apply Hvalid.
    exists (clock w j), (clock w j' + 1). repeat split.
    specialize (Hmono j j'). lia. }
  destruct Hmd as [-> | ->]; [exact Hread|]. cbn [Z.eqb]. exact Hread.
Qed.

(** No index handed to the callback of [flatMap] lies beyond the end of
    the history. *)
Lemma history_pair_in_range history w c n u :
  nth_error (fst (mapiM history_user history w c)) n = Some u ->
  nth_error history n <> None.
Proof.
  intros Hu Hnone. apply nth_error_None in Hnone.
  assert (n < List.length (fst (mapiM history_user history w c)))%nat as Hlt
      by (apply nth_error_Some; congruence).
  unfold mapiM in Hlt. rewrite mapiM_from_length in Hlt. lia.
Qed.

(** C7, as the code has it: a successful [loadConversationHistory] on a
    history of [n] turns replaces the messages of the conversation with
    that identifier by [2n] messages, user then assistant in turn order,
    with the turn's texts.  When the turn carries a non-zero timestamp
    that is an instant a [Date] can hold, the user's timestamp is that
    instant and the assistant's is the user's plus one; when it carries
    one that no [Date] can hold, both timestamps are [NaN].  When it
    carries none (or zero), the two timestamps come from two separate
    readings of the clock, the user's being the earlier one, and the
    assistant's is its own reading plus one; with a clock that never
    goes backwards the assistant's timestamp is then at least the user's
    plus one. *)
Theorem loadConversationHistory_rebuilds_pairs :
  forall (api : Api.apiClient) (conversationId : string)
         (response : Api.ConversationHistoryResponse) (s : ChatState)
         (w : World) (c : Cursor),
    Api.memory_getConversation api conversationId = Resolved response ->
    let history := Api.history response in
    let s' := fst (loadConversationHistory api conversationId s w c) in
    exists msgs : list ChatMessage,
      List.length msgs = (2 * List.length history)%nat
      /\ (forall n item,
             nth_error history n = Some item ->
             exists u a,
               nth_error msgs (2 * n) = Some u
               /\ nth_error msgs (2 * n + 1) = Some a
               /\ msg_role u = user /\ msg_content u = Api.user item
               /\ msg_role a = assistant /\ msg_content a = Api.assistant item
               /\ stamped w item u a
               /\ (forall t, md_timestamp (Api.cm_metadata item) = Some t -> t <> 0 ->
                              if Z.abs t <=? max_time
                              then msg_timestamp u = Millis t
                                   /\ msg_timestamp a = Millis (t + 1)
                              else msg_timestamp u = NaN /\ msg_timestamp a = NaN)
               /\ (monotone w -> time_valued w ->
                   md_timestamp (Api.cm_metadata item) = None
                   \/ md_timestamp (Api.cm_metadata item) = Some 0 ->
                   exists tu ta, msg_timestamp u = Millis tu
                                 /\ msg_timestamp a = Millis ta
                                 /\ tu + 1 <= ta))
      /\ Forall2 (fun conv conv' =>
                    if String.eqb (conv_id conv) conversationId
                    then conv_messages conv' = msgs
                         /\ conv_id conv' = conv_id conv
                         /\ conv_title conv' = conv_title conv
                         /\ conv_createdAt conv' = conv_createdAt conv
                         /\ conv_systemPrompt conv' = conv_systemPrompt conv
                    else conv' = conv)
                 (conversations s) (conversations s')
      /\ activeConversationId s' = activeConversationId s
      /\ isLoading s' = false
      /\ error s' = None.
Proof.
  intros api conversationId response s w c Hok history s'.
  subst s'. unfold loadConversationHistory. rewrite Hok.
  unfold loadConversationHistory_resolved. rewrite !bind_run, ret_run. simpl.
  exists (fst (history_messages (Api.history response) w c)).
  destruct (history_messages_spec (Api.history response) w c) as [Hlen Hnth].
  split; [exact Hlen|]. split.
  { intros n item Hn.
    destruct (Hnth n item Hn) as (u & a & Hu & Ha & Hur & Huc & Har & Hac & Hst).
    exists u, a. repeat split; try assumption.
    - intros t Hmd Hnz. now apply (stamped_from_turn w item).
    - intros Hmono Hvalid Hmd. now apply (stamped_from_clock w item). }
  split; [|auto].
  eapply Forall2_impl; [|apply mapM_Forall2].
  - intros conv conv' (c0 & _ & ->).
    destruct (String.eqb (conv_id conv) conversationId).
    + rewrite bind_run, ret_run. simpl. auto.
    + reflexivity.
  - intros conv. destruct (String.eqb (conv_id conv) conversationId); auto with eff.
Qed.

Lemma loadConversationHistory_rebuilds_pairs_witness :
  (exists (msgs : list ChatMessage) (u a : ChatMessage),
      List.length msgs = 4%nat
      /\ nth_error msgs 2 = Some u /\ msg_role u = user /\ msg_content u = "c"
      /\ nth_error msgs 3 = Some a /\ msg_role a = assistant /\ msg_content a = "d"
      /\ exists tu ta, msg_timestamp u = Millis tu /\ msg_timestamp a = Millis ta
                       /\ tu + 1 <= ta)
  /\ (exists (msgs : list ChatMessage) (u a : ChatMessage),
         nth_error msgs 0 = Some u /\ nth_error msgs 1 = Some a
         /\ msg_timestamp u = Millis 1700000000000
         /\ msg_timestamp a = Millis 1700000000001).
Proof.
  split.
  - destruct (loadConversationHistory_rebuilds_pairs
                (history_backend "c1" two_turns) "c1" {| Api.history := two_turns |}
                one_conversation late_tick {| ticks := 3; draws := 1 |} eq_refl)
      as (msgs & Hlen & Hnth & _).
    destruct (Hnth 1%nat (turn "c" "d" no_metadata) eq_refl)
      as (u & a & Hu & Ha & Hur & Huc & Har & Hac & _ & _ & Hclock).
    exists msgs, u, a. repeat split; try assumption.
    apply Hclock.
    + intros i j Hij. cbn [clock late_tick].
      destruct (i <? 4)%nat eqn:Ei; destruct (j <? 4)%nat eqn:Ej; try lia.
      apply Nat.ltb_lt in Ej. apply Nat.ltb_ge in Ei. lia.
    + intros n. cbn [clock late_tick]. unfold max_time.
      destruct (n <? 4)%nat; lia.
    + left. reflexivity.
  - destruct (loadConversationHistory_rebuilds_pairs
                (history_backend "c1" [turn "a" "b" (sent_at 1700000000000)]) "c1"
                {| Api.history := [turn "a" "b" (sent_at 1700000000000)] |}
                one_conversation world0 {| ticks := 3; draws := 1 |} eq_refl)
      as (msgs & Hlen & Hnth & _).
    destruct (Hnth 0%nat (turn "a" "b" (sent_at 1700000000000)) eq_refl)
      as (u & a & Hu & Ha & _ & _ & _ & _ & _ & Hturn & _).
    exists msgs, u, a. split; [exact Hu|]. split; [exact Ha|].
    exact (Hturn 1700000000000 eq_refl ltac:(discriminate)).
Defined.

(** C7 as stated fails: for the two turns of the scenario, returned
    without turn timestamps, and a clock that moves on by a millisecond
    between the two passes over the history, each assistant message is
    stamped two units after its user message, not one. *)
Lemma loadConversationHistory_stamp_not_plus_one :
  let s' := fst (loadConversationHistory (history_backend "c1" two_turns) "c1"
                   one_conversation late_tick cursor0) in
  List.map (fun conv =>
              List.map (fun m => (msg_role m, msg_content m, msg_timestamp m))
                       (conv_messages conv))
           (conversations s')
  = [[(user, "a", Millis 1000); (assistant, "b", Millis 1002);
      (user, "c", Millis 1000); (assistant, "d", Millis 1002)]]
  /\ 1002 <> 1000 + 1.
Proof.
  cbv zeta. split; [reflexivity|lia].
Qed.

(** A turn stamped one millisecond past the last instant a [Date] can
    hold: both messages of the pair carry [NaN]. *)
Example loadConversationHistory_stamp_out_of_range :
  let s' := fst (loadConversationHistory
                   (history_backend "c1" [turn "a" "b" (sent_at 8640000000000001)]) "c1"
                   one_conversation world0 cursor0) in
  List.map (fun conv =>
              List.map (fun m => (msg_role m, msg_content m, msg_timestamp m))
                       (conv_messages conv))
           (conversations s')
  = [[(user, "a", NaN); (assistant, "b", NaN)]].
Proof. reflexivity. Qed.

End ChatStoreSpec.

(** * The send-turn handler *)
Module ChatContainerSpec.

Import Socket ChatStore ChatContainer ChatRuns ContainerRuns.

(** [on_active] seen through identifiers and messages. *)
Lemma on_active_view (f : list ChatMessage -> list ChatMessage) s w c a :
  activeConversationId s = Some a -> a <> "" ->
  activeConversationId (fst (on_active f s w c)) = Some a
  /\ view (fst (on_active f s w c))
     = List.map (fun cm => (fst cm, if String.eqb a (fst cm) then f (snd cm) else snd cm))
                (view s).
Proof.
  intros Ha Hne.
  destruct (ChatStoreSpec.on_active_spec f s w c a Ha Hne) as (Hact & _ & _ & HF).
  split; [exact Hact|].
  unfold view. rewrite map_map. apply Forall2_map_eq.
  eapply Forall2_impl; [|exact HF]. intros conv conv' H. cbv beta in H |- *. simpl.
  destruct (String.eqb a (conv_id conv)).
  - destruct H as (j & _ & ->). reflexivity.
  - now subst.
Qed.

(** The parts of the send-turn protocol the handler does carry out: the
    user message, then the placeholder, are appended to the active
    conversation; when the backend has answered (or failed), the
    placeholder carries the returned text (or the failure notice) and
    its identifier is the one captured before the request. *)
Lemma handleSendMessage_reconciles api settings content s w c a :
  activeConversationId s = Some a -> a <> "" ->
  exists fl s1 u p,
    fst (handleSendMessage_start settings content s s w c) = (Some fl, s1)
    /\ msg_role u = user /\ msg_content u = content
    /\ msg_id p = assistantMessageId fl /\ msg_role p = assistant /\ msg_content p = "..."
    /\ view s1
       = List.map (fun cm => (fst cm, if String.eqb a (fst cm)
                                      then (snd cm ++ [u; p])%list else snd cm))
                  (view s)
    /\ let final := match Api.chat_send api (chat_request fl) with
                    | Resolved response => Api.text response
                    | Rejected _ => failure_notice
                    end in
       view (fst (handleSendMessage api settings content s s w c))
       = List.map (fun cm =>
                     (fst cm,
                      if String.eqb a (fst cm)
                      then (List.map (rewritten (msg_id p) final) (snd cm ++ [u])
                              ++ [with_content p final])%list
                      else snd cm))
                  (view s).
Proof.
  intros Ha Hne.
  assert (Htruthy : truthy (Some a) = true).
  { simpl. apply String.eqb_neq in Hne. now rewrite Hne. }
  unfold handleSendMessage, handleSendMessage_start. rewrite Ha, Htruthy.
  cbn [negb]. rewrite !bind_run. unfold addMessage.
  set (c1 := snd (uuidv4 w c)). set (uid := fst (uuidv4 w c)).
  set (c2 := snd (Date_now w c1)). set (t_user := fst (Date_now w c1)).
  set (u := {| msg_id := uid; msg_role := user; msg_content := content;
               msg_timestamp := Millis t_user; msg_model := None; msg_provider := None;
               msg_tokens := None; msg_cost := None; msg_metadata := None |}).
  set (r1 := on_active (fun ms => (ms ++ [u])%list) s w c2).
  destruct (on_active_view (fun ms => (ms ++ [u])%list) s w c2 a Ha Hne) as [Hact1 Hview1].
  fold r1 in Hact1, Hview1.
  set (c4 := snd (uuidv4 w (snd r1))). set (aid := fst (uuidv4 w (snd r1))).
  set (c5 := snd (Date_now w c4)). set (t_assistant := fst (Date_now w c4)).
  set (p := {| msg_id := aid; msg_role := assistant; msg_content := "...";
               msg_timestamp := Millis t_assistant; msg_model := None; msg_provider := None;
               msg_tokens := None; msg_cost := None; msg_metadata := None |}).
  set (r2 := on_active (fun ms => (ms ++ [p])%list) (fst r1) w c5).
  destruct (on_active_view (fun ms => (ms ++ [p])%list) (fst r1) w c5 a Hact1 Hne)
    as [Hact2 Hview2].
  fold r2 in Hact2, Hview2.
  rewrite ret_run. cbn [fst snd].
  set (fl := {| assistantMessageId := aid; chat_request := _ |}).
  assert (Hstart : view (fst r2)
            = List.map (fun cm => (fst cm, if String.eqb a (fst cm)
                                           then (snd cm ++ [u; p])%list else snd cm))
                       (view s)).
  { rewrite Hview2, Hview1, map_map. apply map_ext. intros [i ms]; simpl.
    destruct (String.eqb a i); [|reflexivity]. now rewrite <- app_assoc. }
  exists fl, (fst r2), u, p. repeat split; try assumption.
  cbv zeta.
  assert (Hupd : forall final cur,
            view (fst (updateMessage aid final (fst r2) w cur))
            = List.map (fun cm =>
                          (fst cm,
                           if String.eqb a (fst cm)
                           then (List.map (rewritten aid final) (snd cm ++ [u])
                                   ++ [with_content p final])%list
                           else snd cm))
                       (view s)).
  { intros final cur. unfold updateMessage.
    destruct (on_active_view
                (List.map (fun msg => if String.eqb (msg_id msg) aid
                                      then with_content msg final else msg))
                (fst r2) w cur a Hact2 Hne) as [_ Hview3].
    rewrite Hview3, Hstart, map_map. apply map_ext. intros [i ms]; simpl.
    destruct (String.eqb a i); [|reflexivity].
    change [u; p] with ([u] ++ [p])%list. rewrite app_assoc, map_app. simpl.
    f_equal. unfold rewritten. simpl. now rewrite String.eqb_refl. }
  destruct (Api.chat_send api (chat_request fl)) as [response|e].
  - unfold handleSendMessage_resolved. rewrite bind_run. apply Hupd.
  - unfold handleSendMessage_rejected. apply Hupd.
Qed.

(** C2 at the scenario of the specification: "hello" in a fresh session,
    answered with "hi there".  The user message and the placeholder are
    appended in that order and the placeholder, identifier unchanged,
    ends up with exactly the returned text -- but with no provenance at
    all: the message built from the response is never handed to the
    store. *)
Theorem handleSendMessage_drops_provenance :
  let started := fst (handleSendMessage_start default_settings "hello"
                        fresh_session fresh_session world0 after_creation) in
  let s' := fst (handleSendMessage (answering (Resolved hi_there)) default_settings "hello"
                   fresh_session fresh_session world0 after_creation) in
  List.map (fun cm => (fst cm, List.map (fun m => (msg_id m, msg_role m, msg_content m)) (snd cm)))
           (view (snd started))
  = [("c1", [("c2", user, "hello"); ("c3", assistant, "...")])]
  /\ List.map (fun cm => (fst cm, List.map (fun m => (msg_id m, msg_role m, msg_content m)) (snd cm)))
              (view s')
     = [("c1", [("c2", user, "hello"); ("c3", assistant, "hi there")])]
  /\ List.map (fun cm => List.map provenance (snd cm)) (view s')
     = [[(None, None, None, None, None); (None, None, None, None, None)]].
Proof.
  cbv zeta. repeat split; reflexivity.
Qed.

End ChatContainerSpec.

(** * The crew store *)
Module AgentStoreSpec.

Import AgentStore AgentRuns.

Lemma map_crew_spec (id : string) (f : Crew -> Eff Crew) w :
  (forall crew, advances (f crew)) ->
  forall cs c,
    Forall2 (fun crew crew' =>
               if String.eqb (crew_id crew) id
               then exists c0, (ticks c <= ticks c0)%nat /\ crew' = fst (f crew w c0)
               else crew' = crew)
            cs (fst (map_crew id f cs w c)).
Proof.
  intros Hf cs c. unfold map_crew.
  eapply Forall2_impl; [|apply mapM_Forall2].
  - intros crew crew' (c0 & Hle & ->). cbv beta.
    destruct (String.eqb (crew_id crew) id); eauto.
  - intros crew. destruct (String.eqb (crew_id crew) id); auto with eff.
Qed.

(** The three segments of [runCrew], crew by crew. *)
Lemma runCrew_start_spec id s w c :
  let s1 := fst (runCrew_start id s w c) in
  agents s1 = agents s
  /\ availableTemplates s1 = availableTemplates s
  /\ availableTools s1 = availableTools s
  /\ isLoading s1 = true
  /\ error s1 = None
  /\ Forall2 (fun crew crew' =>
                if String.eqb (crew_id crew) id
                then exists t, crew' = with_status crew running t
                else crew' = crew)
             (crews s) (crews s1).
Proof.
  unfold runCrew_start. rewrite bind_run, ret_run. simpl. repeat split.
  eapply Forall2_impl; [|apply map_crew_spec].
  - intros crew crew' H. cbv beta in H |- *.
    destruct (String.eqb (crew_id crew) id); [|exact H].
    destruct H as (c0 & _ & ->). rewrite bind_run, ret_run. simpl. eauto.
  - intros crew. auto with eff.
Qed.

Lemma runCrew_rejected_spec id s w c :
  let s2 := fst (runCrew_rejected id s w c) in
  agents s2 = agents s
  /\ availableTemplates s2 = availableTemplates s
  /\ availableTools s2 = availableTools s
  /\ isLoading s2 = false
  /\ error s2 = Some "Failed to run crew"
  /\ Forall2 (fun crew crew' =>
                if String.eqb (crew_id crew) id
                then exists t, crew' = with_status crew failed t
                else crew' = crew)
             (crews s) (crews s2).
Proof.
  unfold runCrew_rejected. rewrite bind_run, ret_run. simpl. repeat split.
  eapply Forall2_impl; [|apply map_crew_spec].
  - intros crew crew' H. cbv beta in H |- *.
    destruct (String.eqb (crew_id crew) id); [|exact H].
    destruct H as (c0 & _ & ->). rewrite bind_run, ret_run. simpl. eauto.
  - intros crew. auto with eff.
Qed.

Lemma runCrew_resolved_spec id response s w c :
  let s2 := fst (runCrew_resolved id response s w c) in
  agents s2 = agents s
  /\ availableTemplates s2 = availableTemplates s
  /\ availableTools s2 = availableTools s
  /\ isLoading s2 = false
  /\ error s2 = error s
  /\ Forall2 (fun crew crew' =>
                if String.eqb (crew_id crew) id
                then crew_id crew' = crew_id crew
                     /\ crew_status crew' = completed
                     /\ crew_result crew' = Some (Api.result response)
                     /\ crew_duration crew' = Some (Api.duration response)
                     /\ exists t, crew_completedAt crew' = Some t
                else crew' = crew)
             (crews s) (crews s2).
Proof.
  unfold runCrew_resolved. rewrite bind_run, ret_run. simpl. repeat split.
  eapply Forall2_impl; [|apply map_crew_spec].
  - intros crew crew' H. cbv beta in H |- *.
    destruct (String.eqb (crew_id crew) id); [|exact H].
    destruct H as (c0 & _ & ->). rewrite !bind_run, ret_run. simpl. eauto 10.
  - intros crew. auto with eff.
Qed.

(** [runCrew], cut at its [await]. *)
Lemma runCrew_run api id s w c :
  runCrew api id s w c
  = let r1 := runCrew_start id s w c in
    match Api.crew_run api id with
    | Resolved response =>
        let r2 := runCrew_resolved id response (fst r1) w (snd r1) in
        ((Returned tt, fst r2), snd r2)
    | Rejected _ =>
        let r2 := runCrew_rejected id (fst r1) w (snd r1) in
        ((Returned tt, fst r2), snd r2)
    end.
Proof.
  unfold runCrew. rewrite bind_run. cbv zeta.
  destruct (Api.crew_run api id); rewrite bind_run, ret_run; reflexivity.
Qed.

(** [createCrew], cut at its [await]. *)
Lemma createCrew_run api crewData s w c :
  createCrew api crewData s w c
  = let r1 := createCrew_start crewData s w c in
    (match Api.crew_create api (draft_request (fst (fst r1))) with
     | Resolved response => createCrew_resolved (fst (fst r1)) response (snd (fst r1))
     | Rejected e => createCrew_rejected e (snd (fst r1))
     end, snd r1).
Proof.
  unfold createCrew. rewrite bind_run. cbv zeta.
  destruct (createCrew_start crewData s w c) as [[d s1] c1]. simpl.
  destruct (Api.crew_create api (draft_request d)); reflexivity.
Qed.

Lemma createCrew_start_state crewData s w c :
  snd (fst (createCrew_start crewData s w c)) = set_flags true None s
  /\ crew_status (draft_crew (fst (fst (createCrew_start crewData s w c)))) = idle
  /\ crew_name (draft_crew (fst (fst (createCrew_start crewData s w c)))) = data_name crewData
  /\ crew_agents (draft_crew (fst (fst (createCrew_start crewData s w c)))) = data_agents crewData
  /\ crew_tasks (draft_crew (fst (fst (createCrew_start crewData s w c)))) = data_tasks crewData.
Proof. repeat split. Qed.

Lemma entries_app id s crew :
  List.length (List.filter (fun x => String.eqb (crew_id x) id) (crews s ++ [crew]))
  = (entries id s + (if String.eqb (crew_id crew) id then 1 else 0))%nat.
Proof.
  unfold entries. rewrite filter_app, length_app. simpl.
  destruct (String.eqb (crew_id crew) id); reflexivity.
Qed.

(** C4, as the code has it.  When the backend call fails, the store is
    what it was before the call except for [error], now the fixed
    message, and [isLoading], now [false]: no crew is added.  When it
    succeeds, the crew built before the call is given the backend's
    identifier and appended: the list is the old list followed by that
    one crew, with status [idle], so the number of entries carrying the
    backend's identifier goes up by exactly one. *)
Theorem createCrew_outcomes :
  forall (api : Api.apiClient) (crewData : CrewData) (s : AgentState) (w : World) (c : Cursor),
    let d := fst (fst (createCrew_start crewData s w c)) in
    let r := fst (createCrew api crewData s w c) in
    match Api.crew_create api (draft_request d) with
    | Rejected e =>
        r = (Thrown e, set_flags false (Some "Failed to create crew") s)
    | Resolved response =>
        let crew := assign_id (draft_crew d) (Api.crew_id response) in
        fst r = Returned (Api.crew_id response)
        /\ snd r = set_crews (crews s ++ [crew]) false None s
        /\ crew_id crew = Api.crew_id response
        /\ crew_status crew = idle
        /\ entries (Api.crew_id response) (snd r) = S (entries (Api.crew_id response) s)
    end.
Proof.
  intros api crewData s w c d r. subst d r. rewrite createCrew_run. cbv zeta.
  destruct (Api.crew_create api _) as [response|e]; [|reflexivity].
  cbn [fst snd]. unfold createCrew_resolved. cbn [fst snd].
  repeat split.
  unfold entries at 1. cbn [crews set_crews].
  destruct (createCrew_start_state crewData s w c) as (-> & _).
  cbn [crews set_flags]. rewrite entries_app. cbn [crew_id assign_id].
  rewrite String.eqb_refl. lia.
Qed.

(** C4 as stated fails: a backend that issues [abc123] a second time
    leaves two entries with that identifier in the list. *)
Lemma createCrew_duplicate_identifier :
  let r := fst (createCrew (crew_backend (issues "abc123") (Rejected "unused"))
                  two_agents_one_task one_idle_crew world0 after_one_crew) in
  statuses one_idle_crew = [("abc123", idle)]
  /\ fst r = Returned "abc123"
  /\ statuses (snd r) = [("abc123", idle); ("abc123", idle)]
  /\ entries "abc123" (snd r) = 2%nat.
Proof.
  cbv zeta. repeat split; reflexivity.
Qed.

(** The readings the [catch] block of [runCrew] stamps the crews with. *)
Lemma runCrew_rejected_stamps id s w c :
  Forall2 (fun crew crew' =>
             if String.eqb (crew_id crew) id
             then exists n : nat,
                 (ticks c <= n)%nat /\ crew' = with_status crew failed (clock w n)
             else crew' = crew)
          (crews s) (crews (fst (runCrew_rejected id s w c))).
Proof.
  unfold runCrew_rejected. rewrite bind_run, ret_run. cbn [fst crews set_crews].
  eapply Forall2_impl; [|apply map_crew_spec].
  - intros crew crew' H. cbv beta in H |- *.
    destruct (String.eqb (crew_id crew) id); [|exact H].
    destruct H as (c0 & Hle & ->). rewrite bind_run, ret_run. simpl.
    exists (ticks c0). split; [exact Hle|reflexivity].
  - intros crew. auto with eff.
Qed.

Lemma advances_runCrew_start id s : advances (runCrew_start id s).
Proof.
  unfold runCrew_start. apply advances_bind; [|auto with eff].
  unfold map_crew. apply advances_mapM. intros crew.
  destruct (String.eqb (crew_id crew) id); auto with eff.
Qed.

(** C5, as the code has it: when the backend call of [runCrew] throws,
    every crew with the targeted identifier ends with status [failed]
    and with the [result], [completedAt] and [duration] it had before
    the call (and the same identifier, name, agents, tasks, process type
    and creation time), but with its [updatedAt] refreshed by a reading
    of the clock taken during the call; the other crews are untouched;
    at store level [error] holds the fixed message and [isLoading] is
    [false], and nothing else has changed.  The [catch] block does the
    same to the store as it is when the call is rejected, whatever has
    been written to it in the meantime. *)
Theorem runCrew_failure_keeps_results :
  forall (api : Api.apiClient) (id e : string) (s : AgentState) (w : World) (c : Cursor),
    Api.crew_run api id = Rejected e ->
    let s' := snd (fst (runCrew api id s w c)) in
    error s' = Some "Failed to run crew"
    /\ isLoading s' = false
    /\ agents s' = agents s
    /\ availableTemplates s' = availableTemplates s
    /\ availableTools s' = availableTools s
    /\ Forall2 (fun crew crew' =>
                  if String.eqb (crew_id crew) id
                  then crew_status crew' = failed
                       /\ crew_result crew' = crew_result crew
                       /\ crew_completedAt crew' = crew_completedAt crew
                       /\ crew_duration crew' = crew_duration crew
                       /\ crew_id crew' = crew_id crew
                       /\ crew_name crew' = crew_name crew
                       /\ crew_agents crew' = crew_agents crew
                       /\ crew_tasks crew' = crew_tasks crew
                       /\ crew_processType crew' = crew_processType crew
                       /\ crew_createdAt crew' = crew_createdAt crew
                       /\ exists n : nat,
                            (ticks c <= n)%nat /\ crew_updatedAt crew' = clock w n
                  else crew' = crew)
               (crews s) (crews s')
    /\ (forall (s0 : AgentState) (c0 : Cursor),
           let s2 := fst (runCrew_rejected id s0 w c0) in
           error s2 = Some "Failed to run crew"
           /\ isLoading s2 = false
           /\ agents s2 = agents s0
           /\ availableTemplates s2 = availableTemplates s0
           /\ availableTools s2 = availableTools s0
           /\ Forall2 (fun crew crew' =>
                         if String.eqb (crew_id crew) id
                         then exists n : nat,
                             (ticks c0 <= n)%nat
                             /\ crew' = with_status crew failed (clock w n)
                         else crew' = crew)
                      (crews s0) (crews s2)).
Proof.
  intros api id e s w c Hfail s'.
  assert (Hcatch : forall (s0 : AgentState) (c0 : Cursor),
             let s2 := fst (runCrew_rejected id s0 w c0) in
             error s2 = Some "Failed to run crew"
             /\ isLoading s2 = false
             /\ agents s2 = agents s0
             /\ availableTemplates s2 = availableTemplates s0
             /\ availableTools s2 = availableTools s0
             /\ Forall2 (fun crew crew' =>
                           if String.eqb (crew_id crew) id
                           then exists n : nat,
                               (ticks c0 <= n)%nat
                               /\ crew' = with_status crew failed (clock w n)
                           else crew' = crew)
                        (crews s0) (crews s2)).
  { intros s0 c0 s2. subst s2.
    destruct (runCrew_rejected_spec id s0 w c0) as (Ha & Ht & Hl & Hload & Herr & _).
    repeat (split; [assumption|]). apply runCrew_rejected_stamps. }
  cut (error s' = Some "Failed to run crew"
       /\ isLoading s' = false
       /\ agents s' = agents s
       /\ availableTemplates s' = availableTemplates s
       /\ availableTools s' = availableTools s
       /\ Forall2 (fun crew crew' =>
                  if String.eqb (crew_id crew) id
                  then crew_status crew' = failed
                       /\ crew_result crew' = crew_result crew
                       /\ crew_completedAt crew' = crew_completedAt crew
                       /\ crew_duration crew' = crew_duration crew
                       /\ crew_id crew' = crew_id crew
                       /\ crew_name crew' = crew_name crew
                       /\ crew_agents crew' = crew_agents crew
                       /\ crew_tasks crew' = crew_tasks crew
                       /\ crew_processType crew' = crew_processType crew
                       /\ crew_createdAt crew' = crew_createdAt crew
                       /\ exists n : nat,
                            (ticks c <= n)%nat /\ crew_updatedAt crew' = clock w n
                  else crew' = crew)
               (crews s) (crews s')).
  { intros (H1 & H2 & H3 & H4 & H5 & H6). repeat (split; [assumption|]). exact Hcatch. }
  clear Hcatch.
  subst s'. rewrite runCrew_run, Hfail. cbv zeta.
  cbn [fst snd].
  destruct (runCrew_start_spec id s w c) as (Ha1 & Ht1 & Hl1 & _ & _ & HF1).
  destruct (runCrew_rejected_spec id (fst (runCrew_start id s w c)) w
              (snd (runCrew_start id s w c))) as (Ha2 & Ht2 & Hl2 & Hload & Herr & _).
  pose proof (runCrew_rejected_stamps id (fst (runCrew_start id s w c)) w
                (snd (runCrew_start id s w c))) as HF2.
  pose proof (advances_runCrew_start id s w c) as Hadv.
  repeat split; try congruence.
  eapply Forall2_impl; [|exact (Forall2_compose _ _ _ _ _ HF1 HF2)].
  intros crew crew' (crew1 & H1 & H2). cbv beta in H1, H2 |- *.
  destruct (String.eqb (crew_id crew) id) eqn:E.
  - destruct H1 as (t1 & ->). simpl in H2. rewrite E in H2.
    destruct H2 as (n & Hn & ->). simpl. repeat split.
    exists n. split; [lia|reflexivity].
  - subst crew1. rewrite E in H2. exact H2.
Qed.

Lemma runCrew_failure_keeps_results_witness :
  let s' := snd (fst (runCrew (crew_backend (issues "abc123") (Rejected "Network Error"))
                        "abc123" one_idle_crew world0 after_one_crew)) in
  error s' = Some "Failed to run crew"
  /\ List.map (fun crew => (crew_id crew, crew_status crew, crew_result crew)) (crews s')
     = [("abc123", failed, None)].
Proof.
  cbv zeta. split; [|reflexivity].
  apply (runCrew_failure_keeps_results
           (crew_backend (issues "abc123") (Rejected "Network Error"))
           "abc123" "Network Error" one_idle_crew world0 after_one_crew eq_refl).
Defined.

(** C5 as stated fails: when the run of the idle crew [abc123] is
    rejected, its [updatedAt] moves from the reading taken at creation to
    the one taken in the [catch] block, so the store is not the one in
    which only the status and the error message have changed. *)
Lemma runCrew_failure_refreshes_updatedAt :
  let s' := snd (fst (runCrew (crew_backend (issues "abc123") (Rejected "Network Error"))
                        "abc123" one_idle_crew world0 after_one_crew)) in
  List.map crew_updatedAt (crews one_idle_crew) = [1001]
  /\ List.map crew_updatedAt (crews s') = [1003]
  /\ List.map crew_updatedAt (crews (only_failed_and_error "abc123" one_idle_crew)) = [1001]
  /\ s' <> only_failed_and_error "abc123" one_idle_crew.
Proof.
  cbv zeta. split; [reflexivity|]. split; [reflexivity|]. split; [reflexivity|].
  intros H. apply (f_equal (fun st => List.map crew_updatedAt (crews st))) in H.
  vm_compute in H. discriminate H.
Qed.

Lemma lawful_to_running st : lawful st running.
Proof. destruct st; [right|left|right|right]; reflexivity. Qed.

Lemma updateCrew_statuses id updates s w c :
  statuses (fst (updateCrew id updates s w c))
  = List.map (fun p => (fst p, if String.eqb (fst p) id
                               then patched (patch_status updates) (snd p)
                               else snd p))
             (statuses s).
Proof.
  unfold updateCrew, statuses. rewrite bind_run, ret_run. cbn [fst crews set_crews].
  rewrite map_map. apply Forall2_map_eq.
  eapply Forall2_impl; [|apply map_crew_spec].
  - intros crew crew' H. cbv beta in H |- *. cbn [fst snd].
    destruct (String.eqb (crew_id crew) id).
    + destruct H as (c0 & _ & ->). rewrite bind_run, ret_run. reflexivity.
    + now subst.
  - intros crew. auto with eff.
Qed.

(** The happy path of the scenario: the idle crew [abc123] is run and the
    backend answers. *)
Example runCrew_success_run :
  let r := fst (runCrew (crew_backend (issues "abc123") (finishes "report"))
                  "abc123" one_idle_crew world0 after_one_crew) in
  statuses (fst (runCrew_start "abc123" one_idle_crew world0 after_one_crew))
  = [("abc123", running)]
  /\ List.map (fun crew => (crew_id crew, crew_status crew, crew_result crew,
                            crew_completedAt crew, crew_duration crew, crew_updatedAt crew))
              (crews (snd r))
     = [("abc123", completed, Some "report", Some 1003, Some 42, 1004)].
Proof. cbv zeta. split; reflexivity. Qed.

(** C1, as the code has it.  [runCrew] takes every crew with the targeted
    identifier to [running] before its backend call, whatever its status
    was.  When the call has settled, it writes [completed] (call
    resolved) or [failed] (call rejected) into every crew with that
    identifier in the store as it then is, without reading the status
    the crew has by then: a transition of the state machine when the
    crew is still [running], which it is when nothing else has written
    its status while the call was pending.  The other crews keep their
    status.  [createCrew] leaves the existing crews alone and adds at
    most one crew, with status [idle]; [deleteCrew] only removes crews
    and [fetchTemplates] touches none; for these too this holds of each
    of their writes on the store as it then is.  [updateCrew] writes the
    status of its patch, whatever it is, into the targeted crews, and
    leaves every status alone when the patch has none. *)
Theorem crew_status_transitions :
  (forall id response s w c,
      Forall2 (fun crew crew' =>
                 crew_id crew' = crew_id crew
                 /\ crew_status crew'
                    = (if String.eqb (crew_id crew) id then completed else crew_status crew)
                 /\ (crew_status crew = running ->
                     lawful (crew_status crew) (crew_status crew')))
              (crews s) (crews (fst (runCrew_resolved id response s w c))))
  /\ (forall id s w c,
         Forall2 (fun crew crew' =>
                    crew_id crew' = crew_id crew
                    /\ crew_status crew'
                       = (if String.eqb (crew_id crew) id then failed else crew_status crew)
                    /\ (crew_status crew = running ->
                        lawful (crew_status crew) (crew_status crew')))
                 (crews s) (crews (fst (runCrew_rejected id s w c))))
  /\ (forall api id s w c,
      let s1 := fst (runCrew_start id s w c) in
      let s2 := snd (fst (runCrew api id s w c)) in
      Forall2 (fun crew crew1 =>
                 crew_id crew1 = crew_id crew
                 /\ lawful (crew_status crew) (crew_status crew1)
                 /\ crew_status crew1
                    = if String.eqb (crew_id crew) id then running else crew_status crew)
              (crews s) (crews s1)
      /\ Forall2 (fun crew1 crew2 =>
                    crew_id crew2 = crew_id crew1
                    /\ lawful (crew_status crew1) (crew_status crew2)
                    /\ crew_status crew2
                       = if String.eqb (crew_id crew1) id
                         then match Api.crew_run api id with
                              | Resolved _ => completed
                              | Rejected _ => failed
                              end
                         else crew_status crew1)
                 (crews s1) (crews s2))
  /\ (forall api crewData s w c,
         let s' := snd (fst (createCrew api crewData s w c)) in
         statuses s' = statuses s
         \/ exists id, statuses s' = (statuses s ++ [(id, idle)])%list)
  /\ (forall id s,
         statuses (deleteCrew id s)
         = List.filter (fun p => negb (String.eqb (fst p) id)) (statuses s))
  /\ (forall api s, statuses (snd (fetchTemplates api s)) = statuses s)
  /\ (forall id updates s w c,
         statuses (fst (updateCrew id updates s w c))
         = List.map (fun p => (fst p, if String.eqb (fst p) id
                                      then patched (patch_status updates) (snd p)
                                      else snd p))
                    (statuses s))
  /\ (forall crewData s w c,
         let started := fst (createCrew_start crewData s w c) in
         statuses (snd started) = statuses s
         /\ crew_status (draft_crew (fst started)) = idle)
  /\ (forall d response e s,
         statuses (snd (createCrew_resolved d response s))
         = (statuses s ++ [(Api.crew_id response, crew_status (draft_crew d))])%list
         /\ statuses (snd (createCrew_rejected e s)) = statuses s)
  /\ (forall response loading err s,
         statuses (fetchTemplates_resolved response s) = statuses s
         /\ statuses (set_flags loading err s) = statuses s).
Proof.
  split; [|split; [|split; [|split; [|split; [|split; [|split; [|split; [|split]]]]]]]].
  - intros id response s w c.
    destruct (runCrew_resolved_spec id response s w c) as (_ & _ & _ & _ & _ & HF).
    eapply Forall2_impl; [|exact HF]. intros crew crew' H. cbv beta in H |- *.
    destruct (String.eqb (crew_id crew) id).
    + destruct H as (Hid & Hst & _). rewrite Hst. repeat split; auto.
      intros ->. now right.
    + subst crew'. repeat split. now left.
  - intros id s w c.
    destruct (runCrew_rejected_spec id s w c) as (_ & _ & _ & _ & _ & HF).
    eapply Forall2_impl; [|exact HF]. intros crew crew' H. cbv beta in H |- *.
    destruct (String.eqb (crew_id crew) id).
    + destruct H as (t & ->). simpl. repeat split. intros ->. now right.
    + subst crew'. repeat split. now left.
  - intros api id s w c s1 s2.
    destruct (runCrew_start_spec id s w c) as (_ & _ & _ & _ & _ & HF1). fold s1 in HF1.
    split.
    + eapply Forall2_impl; [|exact HF1]. intros crew crew1 H. cbv beta in H |- *.
      destruct (String.eqb (crew_id crew) id).
      * destruct H as (t & ->). simpl. repeat split. apply lawful_to_running.
      * subst crew1. repeat split. now left.
    + assert (Hrun : forall crew1, In crew1 (crews s1) ->
                String.eqb (crew_id crew1) id = true -> crew_status crew1 = running).
      { intros crew1 Hin Hid.
        destruct (Forall2_In_l _ _ _ crew1
                    (Forall2_flip HF1) Hin) as (crew & _ & H).
        cbv beta in H. destruct (String.eqb (crew_id crew) id) eqn:E.
        - destruct H as (t & ->). reflexivity.
        - subst crew1. congruence. }
      subst s2. rewrite runCrew_run. cbv zeta.
      destruct (Api.crew_run api id) as [response|e]; cbn [fst snd].
      * destruct (runCrew_resolved_spec id response s1 w (snd (runCrew_start id s w c)))
          as (_ & _ & _ & _ & _ & HF2).
        eapply Forall2_impl_In; [|exact HF2].
        intros crew1 crew2 Hin H. cbv beta in H |- *.
        destruct (String.eqb (crew_id crew1) id) eqn:E.
        -- destruct H as (Hid & Hst & _). rewrite Hst, (Hrun crew1 Hin E).
           repeat split; auto. now right.
        -- subst crew2. repeat split. now left.
      * destruct (runCrew_rejected_spec id s1 w (snd (runCrew_start id s w c)))
          as (_ & _ & _ & _ & _ & HF2).
        eapply Forall2_impl_In; [|exact HF2].
        intros crew1 crew2 Hin H. cbv beta in H |- *.
        destruct (String.eqb (crew_id crew1) id) eqn:E.
        -- destruct H as (t & ->). simpl. rewrite (Hrun crew1 Hin E).
           repeat split. now right.
        -- subst crew2. repeat split. now left.
  - intros api crewData s w c s'. subst s'. rewrite createCrew_run. cbv zeta.
    destruct (Api.crew_create api _) as [response|e]; cbn [fst snd].
    + right. exists (Api.crew_id response). unfold statuses. simpl.
      now rewrite map_app.
    + left. reflexivity.
  - intros id s. unfold statuses, deleteCrew. cbn [crews set_crews].
    induction (crews s) as [|crew cs IH]; simpl; [reflexivity|].
    destruct (String.eqb (crew_id crew) id); simpl; now rewrite IH.
  - intros api s. unfold fetchTemplates.
    destruct (Api.crew_getTemplates api); reflexivity.
  - apply updateCrew_statuses.
  - intros crewData s w c started. split; reflexivity.
  - intros d response e s. split; [|reflexivity].
    unfold statuses, createCrew_resolved. cbn [snd crews set_crews].
    rewrite map_app. reflexivity.
  - intros response loading err s. split; reflexivity.
Qed.

(** C1 as stated fails: [updateCrew] with a patch that carries the status
    [completed] moves an idle crew to [completed] in one step, which is
    no transition of the state machine. *)
Lemma updateCrew_jumps_idle_to_completed :
  let s' := fst (updateCrew "abc123" (mark completed) one_idle_crew world0 after_one_crew) in
  statuses one_idle_crew = [("abc123", idle)]
  /\ statuses s' = [("abc123", completed)]
  /\ ~ lawful idle completed.
Proof.
  cbv zeta. split; [reflexivity|]. split; [reflexivity|].
  intros [H|H]; discriminate.
Qed.

(** Two [runCrew] calls on the same crew, the second started before the
    first has settled: the first resolves, then the second is rejected.
    The write of the second takes the crew from [completed] to [failed],
    which is no transition of the state machine. *)
Example runCrew_overlapping_calls :
  let r1 := runCrew_start "abc123" one_idle_crew world0 after_one_crew in
  let r2 := runCrew_start "abc123" (fst r1) world0 (snd r1) in
  let r3 := runCrew_resolved "abc123"
              {| Api.run_crew_id := "abc123"; Api.result := "report"; Api.duration := 42 |}
              (fst r2) world0 (snd r2) in
  let r4 := runCrew_rejected "abc123" (fst r3) world0 (snd r3) in
  List.map statuses [one_idle_crew; fst r1; fst r2; fst r3; fst r4]
  = [[("abc123", idle)]; [("abc123", running)]; [("abc123", running)];
     [("abc123", completed)]; [("abc123", failed)]]
  /\ ~ lawful completed failed.
Proof.
  cbv zeta. split; [reflexivity|]. intros [H|H]; discriminate.
Qed.

(** C9, as the code has it.  [runCrew] and [fetchTemplates] always return
    normally: a failure of their backend call ends in the store-level
    [error] (and, for [runCrew], in the status [failed] of the targeted
    crews).  [createCrew] records the failure in [error] as well, but
    then throws it on to its caller. *)
Theorem network_failures_at_the_boundary :
  (forall api id s w c,
      fst (fst (runCrew api id s w c)) = Returned tt
      /\ forall e, Api.crew_run api id = Rejected e ->
                   error (snd (fst (runCrew api id s w c))) = Some "Failed to run crew"
                   /\ isLoading (snd (fst (runCrew api id s w c))) = false)
  /\ (forall api s,
         fst (fetchTemplates api s) = Returned tt
         /\ forall e, Api.crew_getTemplates api = Rejected e ->
                      snd (fetchTemplates api s)
                      = set_flags false (Some "Failed to fetch agent templates") s)
  /\ (forall api crewData s w c e,
         Api.crew_create api (draft_request (fst (fst (createCrew_start crewData s w c))))
         = Rejected e ->
         fst (createCrew api crewData s w c)
         = (Thrown e, set_flags false (Some "Failed to create crew") s)).
Proof.
  split; [|split].
  - intros api id s w c. rewrite runCrew_run. cbv zeta. split.
    + destruct (Api.crew_run api id); reflexivity.
    + intros e ->. cbn [fst snd].
      destruct (runCrew_rejected_spec id (fst (runCrew_start id s w c)) w
                  (snd (runCrew_start id s w c))) as (_ & _ & _ & Hl & He & _).
      split; assumption.
  - intros api s. unfold fetchTemplates. split.
    + destruct (Api.crew_getTemplates api); reflexivity.
    + intros e ->. reflexivity.
  - intros api crewData s w c e H. rewrite createCrew_run. cbv zeta.
    rewrite H. reflexivity.
Qed.

Lemma network_failures_at_the_boundary_witness :
  fst (createCrew (crew_backend (Rejected "Network Error") (Rejected "Network Error"))
                  two_agents_one_task empty_store world0 cursor0)
  = (Thrown "Network Error", set_flags false (Some "Failed to create crew") empty_store)
  /\ error (snd (fst (runCrew (crew_backend (Rejected "Network Error") (Rejected "Network Error"))
                              "abc123" one_idle_crew world0 after_one_crew)))
     = Some "Failed to run crew".
Proof.
  split.
  - apply (proj2 (proj2 network_failures_at_the_boundary)). reflexivity.
  - exact (proj1 (proj2 (proj1 network_failures_at_the_boundary
                           (crew_backend (Rejected "Network Error") (Rejected "Network Error"))
                           "abc123" one_idle_crew world0 after_one_crew)
                        "Network Error" eq_refl)).
Defined.

(** C9 as stated fails: a network failure during [createCrew] reaches
    the caller as a thrown error. *)
Lemma createCrew_rethrows :
  let r := fst (createCrew (crew_backend (Rejected "Network Error") (Rejected "Network Error"))
                  two_agents_one_task empty_store world0 cursor0) in
  fst r = Thrown "Network Error"
  /\ error (snd r) = Some "Failed to create crew"
  /\ crews (snd r) = [].
Proof.
  cbv zeta. repeat split; reflexivity.
Qed.

End AgentStoreSpec.

(** * More about running effectful code *)

Lemma keeps_draws_ret {A : Type} (a : A) : keeps_draws (ret a).
Proof. intros w c; reflexivity. Qed.

Lemma keeps_draws_Date_now : keeps_draws Date_now.
Proof. intros w c; reflexivity. Qed.

Lemma keeps_draws_bind {A B : Type} (m : Eff A) (k : A -> Eff B) :
  keeps_draws m -> (forall a, keeps_draws (k a)) -> keeps_draws (bind m k).
Proof.
  intros Hm Hk w c. rewrite bind_run. rewrite Hk. apply Hm.
Qed.

Lemma keeps_draws_mapiM_from {A B : Type} (f : nat -> A -> Eff B) :
  (forall i x, keeps_draws (f i x)) ->
  forall l i, keeps_draws (mapiM_from i f l).
Proof.
  intros Hf l; induction l as [|x xs IH]; intros i w c.
  - reflexivity.
  - rewrite mapiM_from_cons; simpl. rewrite IH. apply Hf.
Qed.

Lemma keeps_draws_mapM {A B : Type} (f : A -> Eff B) l :
  (forall x, keeps_draws (f x)) -> keeps_draws (mapM f l).
Proof. intros Hf. apply keeps_draws_mapiM_from. intros _; apply Hf. Qed.

#[local] Hint Resolve keeps_draws_ret keeps_draws_Date_now keeps_draws_bind
  keeps_draws_mapM : eff.

(** A traversal whose callback leaves every element alone returns the
    list it was given and reads nothing. *)
Lemma mapiM_from_idle {A : Type} (f : nat -> A -> Eff A) w :
  forall l i c,
    (forall j x, In x l -> f j x w = ret x w) ->
    mapiM_from i f l w c = (l, c).
Proof.
  induction l as [|x xs IH]; intros i c H.
  - reflexivity.
  - rewrite mapiM_from_cons. rewrite (H i x (or_introl eq_refl)). simpl.
    rewrite IH; [reflexivity|]. intros j y Hy. apply H. now right.
Qed.

Lemma mapM_idle {A : Type} (f : A -> Eff A) w l c :
  (forall x, In x l -> f x w = ret x w) -> mapM f l w c = (l, c).
Proof. intros H. apply mapiM_from_idle. intros _ x Hx. now apply H. Qed.

Lemma filter_map_frame {A : Type} (p : A -> bool) (g : A -> A) (l : list A) :
  (forall x, p (g x) = p x) ->
  (forall x, p x = true -> g x = x) ->
  List.filter p (List.map g l) = List.filter p l.
Proof.
  intros Hp Hg. induction l as [|x xs IH]; simpl; [reflexivity|].
  rewrite Hp. destruct (p x) eqn:E; [rewrite (Hg x E)|]; now rewrite IH.
Qed.

(** * More about the conversation store *)
Module ChatStoreMore.

Import Socket ChatStore ChatRuns ContainerRuns ChatOps.

Lemma on_active_without_target (f : list ChatMessage -> list ChatMessage) s w c :
  (forall conv, In conv (conversations s) ->
                is_id (activeConversationId s) (conv_id conv) = false) ->
  on_active f s w c = (s, c).
Proof.
  intros H. unfold on_active.
  destruct (negb (truthy (activeConversationId s))); [reflexivity|].
  rewrite bind_run, mapM_idle.
  - destruct s; reflexivity.
  - intros conv Hin. now rewrite (H conv Hin).
Qed.

(** X1.  When no conversation carries the selected identifier -- nothing
    is selected, the selected identifier is the empty string, or it is
    the identifier of a conversation that is not in the list --
    [addMessage], [updateMessage] and [deleteMessage] hand the store back
    exactly as it was and do not even read the clock: the message is
    dropped without a trace. *)
Theorem message_ops_without_target :
  forall (s : ChatState) (w : World) (c : Cursor) (m : ChatMessage) (id content : string),
    (forall conv, In conv (conversations s) ->
                  is_id (activeConversationId s) (conv_id conv) = false) ->
    addMessage m s w c = (s, c)
    /\ updateMessage id content s w c = (s, c)
    /\ deleteMessage id s w c = (s, c).
Proof.
  intros s w c m id content H. repeat split; now apply on_active_without_target.
Qed.

Lemma message_ops_without_target_witness :
  let s := setActiveConversation "elsewhere" one_conversation in
  addMessage (note "n2" "lost") s world0 {| ticks := 3; draws := 1 |}
  = (s, {| ticks := 3; draws := 1 |}).
Proof.
  cbv zeta.
  apply (message_ops_without_target
           (setActiveConversation "elsewhere" one_conversation) world0
           {| ticks := 3; draws := 1 |} (note "n2" "lost") "n1" "x").
  intros conv [<-|[]]. reflexivity.
Defined.

Lemma addMessages_view ms :
  forall s w c a,
    activeConversationId s = Some a -> a <> "" ->
    activeConversationId (fst (addMessages ms s w c)) = Some a
    /\ view (fst (addMessages ms s w c))
       = List.map (fun cm => (fst cm, if String.eqb a (fst cm)
                                      then (snd cm ++ ms)%list else snd cm))
                  (view s).
Proof.
  induction ms as [|m rest IH]; intros s w c a Ha Hne.
  - simpl. split; [exact Ha|]. rewrite <- (map_id (view s)) at 1.
    apply map_ext. intros [i l]; simpl.
    destruct (String.eqb a i); now rewrite ?app_nil_r.
  - simpl. rewrite bind_run. unfold addMessage.
    destruct (ChatContainerSpec.on_active_view (fun l => (l ++ [m])%list) s w c a Ha Hne)
      as [Ha1 Hv1].
    destruct (IH _ w (snd (on_active (fun l => (l ++ [m])%list) s w c)) a Ha1 Hne)
      as [Ha2 Hv2].
    split; [exact Ha2|]. rewrite Hv2, Hv1, map_map. apply map_ext.
    intros [i l]; simpl. destruct (String.eqb a i); [|reflexivity].
    now rewrite <- app_assoc.
Qed.

(** X2.  Messages added one after the other end up, in call order, behind
    the messages the selected conversation already had; the messages of
    the other conversations are not touched. *)
Theorem addMessage_keeps_call_order :
  forall (ms : list ChatMessage) (s : ChatState) (w : World) (c : Cursor) (a : string),
    activeConversationId s = Some a -> a <> "" ->
    view (fst (addMessages ms s w c))
    = List.map (fun cm => (fst cm, if String.eqb a (fst cm)
                                   then (snd cm ++ ms)%list else snd cm))
               (view s).
Proof.
  intros ms s w c a Ha Hne. now apply addMessages_view.
Qed.

Lemma addMessage_keeps_call_order_witness :
  List.map (fun cm => (fst cm, List.map msg_content (snd cm)))
           (view (fst (addMessages [note "n2" "second"; note "n3" "third"]
                                   one_conversation world0 {| ticks := 3; draws := 1 |})))
  = [("c1", ["earlier"; "second"; "third"])].
Proof.
  rewrite (addMessage_keeps_call_order
             [note "n2" "second"; note "n3" "third"] one_conversation world0
             {| ticks := 3; draws := 1 |} "c1" eq_refl); [reflexivity|discriminate].
Defined.

Lemma rewritten_twice id c1 c2 m :
  rewritten id c2 (rewritten id c1 m) = rewritten id c2 m.
Proof.
  unfold rewritten. destruct (String.eqb (msg_id m) id) eqn:E; simpl; now rewrite E.
Qed.

Lemma rewritten_commute id1 id2 c1 c2 m :
  id1 <> id2 ->
  rewritten id1 c1 (rewritten id2 c2 m) = rewritten id2 c2 (rewritten id1 c1 m).
Proof.
  intros Hne. unfold rewritten.
  destruct (String.eqb (msg_id m) id1) eqn:E1;
    destruct (String.eqb (msg_id m) id2) eqn:E2; simpl; rewrite ?E1, ?E2;
    try reflexivity.
  apply String.eqb_eq in E1, E2. congruence.
Qed.

Lemma updateMessage_view id content s w c a :
  activeConversationId s = Some a -> a <> "" ->
  activeConversationId (fst (updateMessage id content s w c)) = Some a
  /\ view (fst (updateMessage id content s w c))
     = List.map (fun cm => (fst cm, if String.eqb a (fst cm)
                                    then List.map (rewritten id content) (snd cm)
                                    else snd cm))
                (view s).
Proof.
  intros Ha Hne. unfold updateMessage.
  apply (ChatContainerSpec.on_active_view
           (List.map (fun msg => if String.eqb (msg_id msg) id
                                 then with_content msg content else msg)) s w c a Ha Hne).
Qed.

(** X3.  Two [updateMessage] calls on the same identifier leave what the
    second one alone would have left: the last content wins, and no
    message is added, removed or given another identifier. *)
Theorem updateMessage_last_write_wins :
  forall (s : ChatState) (w : World) (c c' : Cursor) (a id content1 content2 : string),
    activeConversationId s = Some a -> a <> "" ->
    let s1 := fst (updateMessage id content1 s w c) in
    let s2 := fst (updateMessage id content2 s1 w c') in
    view s2 = view (fst (updateMessage id content2 s w c))
    /\ List.map (fun cm => List.map msg_id (snd cm)) (view s2)
       = List.map (fun cm => List.map msg_id (snd cm)) (view s).
Proof.
  intros s w c c' a id content1 content2 Ha Hne s1 s2. subst s1 s2.
  destruct (updateMessage_view id content1 s w c a Ha Hne) as [Ha1 Hv1].
  destruct (updateMessage_view id content2 _ w c' a Ha1 Hne) as [_ Hv2].
  destruct (updateMessage_view id content2 s w c a Ha Hne) as [_ Hv].
  rewrite Hv2, Hv1, Hv, !map_map. split; apply map_ext; intros [i l]; simpl.
  - destruct (String.eqb a i); [|reflexivity]. f_equal.
    rewrite map_map. apply map_ext. intros m. apply rewritten_twice.
  - destruct (String.eqb a i); [|reflexivity].
    rewrite !map_map. apply map_ext. intros m. unfold rewritten.
    destruct (String.eqb (msg_id m) id) eqn:E; simpl; rewrite ?E; reflexivity.
Qed.

Lemma updateMessage_last_write_wins_witness :
  List.map (fun cm => List.map msg_content (snd cm))
           (view (fst (updateMessage "n1" "second"
                         (fst (updateMessage "n1" "first" one_conversation world0
                                             {| ticks := 3; draws := 1 |}))
                         world0 {| ticks := 4; draws := 1 |})))
  = [["second"]].
Proof.
  rewrite (proj1 (updateMessage_last_write_wins one_conversation world0
                    {| ticks := 3; draws := 1 |} {| ticks := 4; draws := 1 |}
                    "c1" "n1" "first" "second" eq_refl ltac:(discriminate))).
  reflexivity.
Defined.

(** X4.  [updateMessage] calls on different identifiers commute: two
    exchanges in flight in one conversation may resolve in either order
    and leave the same messages. *)
Theorem updateMessage_distinct_ids_commute :
  forall (s : ChatState) (w : World) (c1 c2 c3 c4 : Cursor)
         (a id1 id2 content1 content2 : string),
    activeConversationId s = Some a -> a <> "" ->
    id1 <> id2 ->
    view (fst (updateMessage id2 content2 (fst (updateMessage id1 content1 s w c1)) w c2))
    = view (fst (updateMessage id1 content1 (fst (updateMessage id2 content2 s w c3)) w c4)).
Proof.
  intros s w c1 c2 c3 c4 a id1 id2 content1 content2 Ha Hne Hids.
  destruct (updateMessage_view id1 content1 s w c1 a Ha Hne) as [Ha1 Hv1].
  destruct (updateMessage_view id2 content2 _ w c2 a Ha1 Hne) as [_ Hv12].
  destruct (updateMessage_view id2 content2 s w c3 a Ha Hne) as [Ha2 Hv2].
  destruct (updateMessage_view id1 content1 _ w c4 a Ha2 Hne) as [_ Hv21].
  rewrite Hv12, Hv1, Hv21, Hv2, !map_map. apply map_ext. intros [i l]; simpl.
  destruct (String.eqb a i); [|reflexivity]. f_equal.
  rewrite !map_map. apply map_ext. intros m.
  apply rewritten_commute. congruence.
Qed.

Lemma updateMessage_distinct_ids_commute_witness :
  let s := fst (addMessages [note "p1" "..."; note "p2" "..."] one_conversation world0
                            {| ticks := 3; draws := 1 |}) in
  List.map (fun cm => List.map msg_content (snd cm))
           (view (fst (updateMessage "p2" "two"
                         (fst (updateMessage "p1" "one" s world0 {| ticks := 5; draws := 1 |}))
                         world0 {| ticks := 6; draws := 1 |})))
  = [["earlier"; "one"; "two"]].
Proof.
  cbv zeta.
  rewrite (updateMessage_distinct_ids_commute
             (fst (addMessages [note "p1" "..."; note "p2" "..."] one_conversation world0
                               {| ticks := 3; draws := 1 |})) world0
             {| ticks := 5; draws := 1 |} {| ticks := 6; draws := 1 |}
             {| ticks := 5; draws := 1 |} {| ticks := 6; draws := 1 |}
             "c1" "p1" "p2" "one" "two" eq_refl ltac:(discriminate) ltac:(discriminate)).
  reflexivity.
Defined.

Lemma deleteMessage_view id s w c a :
  activeConversationId s = Some a -> a <> "" ->
  activeConversationId (fst (deleteMessage id s w c)) = Some a
  /\ view (fst (deleteMessage id s w c))
     = List.map (fun cm => (fst cm,
                            if String.eqb a (fst cm)
                            then List.filter (fun m => negb (String.eqb (msg_id m) id)) (snd cm)
                            else snd cm))
                (view s).
Proof.
  intros Ha Hne. unfold deleteMessage.
  apply (ChatContainerSpec.on_active_view
           (List.filter (fun msg => negb (String.eqb (msg_id msg) id))) s w c a Ha Hne).
Qed.

Lemma filter_twice {A : Type} (p : A -> bool) (l : list A) :
  List.filter p (List.filter p l) = List.filter p l.
Proof.
  induction l as [|x xs IH]; simpl; [reflexivity|].
  destruct (p x) eqn:E; simpl; rewrite ?E, IH; reflexivity.
Qed.

(** X5.  After [deleteMessage], no message of the selected conversation
    carries the identifier any more -- every message that carried it is
    gone, not only the first --, the remaining messages keep their
    order, the other conversations keep their messages, and deleting
    the same identifier again changes no message. *)
Theorem deleteMessage_removes_every_occurrence :
  forall (s : ChatState) (w : World) (c c' : Cursor) (a id : string),
    activeConversationId s = Some a -> a <> "" ->
    let s' := fst (deleteMessage id s w c) in
    view s'
    = List.map (fun cm => (fst cm,
                           if String.eqb a (fst cm)
                           then List.filter (fun m => negb (String.eqb (msg_id m) id)) (snd cm)
                           else snd cm))
               (view s)
    /\ (forall conv m, In conv (conversations s') -> conv_id conv = a ->
                       In m (conv_messages conv) -> msg_id m <> id)
    /\ view (fst (deleteMessage id s' w c')) = view s'.
Proof.
  intros s w c c' a id Ha Hne s'.
  destruct (deleteMessage_view id s w c a Ha Hne) as [Ha1 Hv1]. fold s' in Ha1, Hv1.
  destruct (deleteMessage_view id s' w c' a Ha1 Hne) as [_ Hv2].
  split; [exact Hv1|]. split.
  - intros conv m Hconv Hid Hm.
    assert (Hin : In (conv_id conv, conv_messages conv) (view s')).
    { unfold view. apply (in_map (fun x => (conv_id x, conv_messages x))). exact Hconv. }
    rewrite Hv1 in Hin. apply in_map_iff in Hin. destruct Hin as ([i l] & E & _).
    simpl in E. injection E as Ei El. subst i. rewrite <- Hid, String.eqb_refl in El.
    rewrite <- El in Hm. apply filter_In in Hm. destruct Hm as [_ Hm].
    apply negb_true_iff, String.eqb_neq in Hm. exact Hm.
  - rewrite Hv2, Hv1, map_map. apply map_ext. intros [i l]; simpl.
    destruct (String.eqb a i); [|reflexivity]. now rewrite filter_twice.
Qed.

Lemma deleteMessage_removes_every_occurrence_witness :
  let s := fst (addMessages [note "dup" "a"; note "keep" "b"; note "dup" "c"]
                            one_conversation world0 {| ticks := 3; draws := 1 |}) in
  List.map (fun cm => List.map msg_content (snd cm))
           (view (fst (deleteMessage "dup" s world0 {| ticks := 6; draws := 1 |})))
  = [["earlier"; "b"]].
Proof.
  cbv zeta.
  rewrite (proj1 (deleteMessage_removes_every_occurrence
                    (fst (addMessages [note "dup" "a"; note "keep" "b"; note "dup" "c"]
                                      one_conversation world0 {| ticks := 3; draws := 1 |}))
                    world0 {| ticks := 6; draws := 1 |} {| ticks := 6; draws := 1 |}
                    "c1" "dup" eq_refl ltac:(discriminate))).
  reflexivity.
Defined.

(** X6.  [createConversation] returns the identifier it drew, puts the
    new, empty conversation in front of the list and selects it.
    Deleting it again gives the old list back, provided no older
    conversation has the same identifier -- but the selection does not
    come back: it is the first conversation of the list (or nothing),
    whichever conversation was selected before. *)
Theorem createConversation_then_delete :
  forall (title systemPrompt : option string) (s : ChatState) (w : World) (c : Cursor),
    let r := fst (createConversation title systemPrompt s w c) in
    let id := uuids w (draws c) in
    fst r = id
    /\ activeConversationId (snd r) = Some id
    /\ (exists conv, conversations (snd r) = conv :: conversations s
                     /\ conv_id conv = id /\ conv_messages conv = []
                     /\ conv_title conv = match title with
                                          | Some t => t
                                          | None => "New Conversation"
                                          end)
    /\ ((forall conv, In conv (conversations s) -> conv_id conv <> id) ->
        conversations (deleteConversation id (snd r)) = conversations s
        /\ activeConversationId (deleteConversation id (snd r))
           = option_map conv_id (hd_error (conversations s))).
Proof.
  intros title systemPrompt s w c r id. subst r id.
  unfold createConversation. rewrite !bind_run, ret_run. cbn [fst snd].
  cbn [uuidv4 fst snd Date_now ticks draws].
  split; [reflexivity|]. split; [reflexivity|]. split.
  - eexists. repeat split.
  - intros Hfresh. unfold deleteConversation.
    cbn [conversations activeConversationId is_id List.filter conv_id].
    rewrite String.eqb_refl. cbn [negb].
    rewrite filter_untouched.
    + split; [reflexivity|]. destruct (conversations s); reflexivity.
    + intros conv Hin. apply negb_true_iff, String.eqb_neq. now apply Hfresh.
Qed.

Lemma createConversation_then_delete_witness :
  let r := fst (createConversation None None three_conversations world0
                                   {| ticks := 7; draws := 3 |}) in
  activeConversationId three_conversations = Some "c3"
  /\ fst r = "c4"
  /\ ids (deleteConversation "c4" (snd r)) = ["c3"; "c2"; "c1"]
  /\ activeConversationId (deleteConversation "c4" (snd r)) = Some "c3".
Proof.
  cbv zeta. split; [reflexivity|]. split; [reflexivity|].
  destruct (proj2 (proj2 (proj2 (createConversation_then_delete
                                   None None three_conversations world0
                                   {| ticks := 7; draws := 3 |})))) as [Hl Ha].
  - intros conv [<-|[<-|[<-|[]]]]; discriminate.
  - split.
    + exact (f_equal (List.map conv_id) Hl).
    + exact Ha.
Defined.

(** X7.  After [deleteConversation], no conversation of the list carries
    the identifier and the identifier is not the selected one; deleting
    it once more changes nothing; and a selection that designated a
    listed conversation (or nothing) still does. *)
Theorem deleteConversation_forgets_identifier :
  forall (id : string) (s : ChatState),
    let s' := deleteConversation id s in
    ~ In id (ids s')
    /\ activeConversationId s' <> Some id
    /\ deleteConversation id s' = s'
    /\ (selection_valid s -> selection_valid s').
Proof.
  intros id s s'.
  assert (Hgone : ~ In id (ids s')).
  { unfold ids. intros Hin. apply in_map_iff in Hin. destruct Hin as (conv & E & Hin).
    subst s'. unfold deleteConversation in Hin; simpl in Hin.
    apply filter_In in Hin. destruct Hin as [_ H].
    apply negb_true_iff, String.eqb_neq in H. congruence. }
  assert (Hvalid' : is_id (activeConversationId s) id = true -> selection_valid s').
  { intros E. subst s'. unfold selection_valid, deleteConversation, ids; simpl. rewrite E.
    destruct (List.filter _ (conversations s)) as [|conv l]; simpl; auto. }
  assert (Hact : activeConversationId s' <> Some id).
  { destruct (is_id (activeConversationId s) id) eqn:E.
    - specialize (Hvalid' eq_refl). unfold selection_valid in Hvalid'.
      intros Heq. rewrite Heq in Hvalid'. contradiction.
    - subst s'. unfold deleteConversation; simpl. rewrite E.
      intros Heq. rewrite Heq in E. simpl in E. now rewrite String.eqb_refl in E. }
  split; [exact Hgone|]. split; [exact Hact|]. split.
  - unfold deleteConversation at 1.
    assert (E : is_id (activeConversationId s') id = false).
    { destruct (activeConversationId s') as [x|]; [|reflexivity]. simpl.
      apply String.eqb_neq. congruence. }
    rewrite E. rewrite filter_untouched.
    + destruct s'; reflexivity.
    + intros conv Hin. apply negb_true_iff, String.eqb_neq. intros Heq.
      apply Hgone. unfold ids. rewrite <- Heq. now apply in_map.
  - intros Hvalid. destruct (is_id (activeConversationId s) id) eqn:E; [auto|].
    subst s'. unfold selection_valid, deleteConversation, ids in *; simpl. rewrite E.
    destruct (activeConversationId s) as [a|]; [|exact I].
    simpl in E. apply in_map_iff in Hvalid. destruct Hvalid as (conv & Hid & Hin).
    apply in_map_iff. exists conv. split; [exact Hid|].
    apply filter_In. split; [exact Hin|].
    rewrite Hid. apply negb_true_iff. exact E.
Qed.

Lemma deleteConversation_forgets_identifier_witness :
  selection_valid (deleteConversation "c3" three_conversations)
  /\ activeConversationId (deleteConversation "c3" three_conversations) = Some "c2".
Proof.
  split; [|reflexivity].
  apply (proj2 (proj2 (proj2 (deleteConversation_forgets_identifier
                                "c3" three_conversations)))).
  left. reflexivity.
Defined.

(** ** The selection always designates a listed conversation *)

Lemma mapiM_from_keeps {A C : Type} (g : nat -> A -> Eff A) (proj : A -> C) w :
  (forall i x c, proj (fst (g i x w c)) = proj x) ->
  forall l i c, List.map proj (fst (mapiM_from i g l w c)) = List.map proj l.
Proof.
  intros Hg l; induction l as [|x xs IH]; intros i c.
  - reflexivity.
  - rewrite mapiM_from_cons; simpl. now rewrite Hg, IH.
Qed.

Lemma mapM_keeps {A C : Type} (g : A -> Eff A) (proj : A -> C) w l c :
  (forall x c, proj (fst (g x w c)) = proj x) ->
  List.map proj (fst (mapM g l w c)) = List.map proj l.
Proof. intros Hg. apply mapiM_from_keeps. intros _; apply Hg. Qed.

Lemma same_frame_refl s : same_frame s s.
Proof. split; reflexivity. Qed.

Lemma same_frame_trans s1 s2 s3 :
  same_frame s1 s2 -> same_frame s2 s3 -> same_frame s1 s3.
Proof. intros [H1 H2] [H3 H4]. split; congruence. Qed.

Lemma same_frame_valid s s' : same_frame s s' -> selection_valid s -> selection_valid s'.
Proof. intros [Hi Ha]. unfold selection_valid. now rewrite Hi, Ha. Qed.

Lemma on_active_frame f s w c : same_frame s (fst (on_active f s w c)).
Proof.
  unfold on_active. destruct (negb (truthy (activeConversationId s))).
  - apply same_frame_refl.
  - rewrite bind_run, ret_run. split; [|reflexivity]. unfold ids; simpl.
    apply mapM_keeps. intros conv c0.
    destruct (is_id (activeConversationId s) (conv_id conv)); [|reflexivity].
    rewrite bind_run. reflexivity.
Qed.

Lemma relabel_frame (g : Conversation -> Z -> Conversation) id s w c :
  (forall conv now, conv_id (g conv now) = conv_id conv) ->
  List.map conv_id
           (fst (mapM (fun conv => if String.eqb (conv_id conv) id
                                   then bind Date_now (fun now => ret (g conv now))
                                   else ret conv)
                      (conversations s) w c))
  = List.map conv_id (conversations s).
Proof.
  intros Hg. apply mapM_keeps. intros conv c0.
  destruct (String.eqb (conv_id conv) id); [|reflexivity].
  rewrite bind_run. simpl. apply Hg.
Qed.

Lemma loadConversationHistory_frame api id s w c :
  same_frame s (fst (loadConversationHistory api id s w c)).
Proof.
  unfold loadConversationHistory.
  destruct (Api.memory_getConversation api id) as [response|e].
  - unfold loadConversationHistory_resolved. rewrite !bind_run, ret_run.
    split; [|reflexivity]. unfold ids; simpl.
    apply mapM_keeps. intros conv c0.
    destruct (String.eqb (conv_id conv) id); [|reflexivity].
    rewrite bind_run. reflexivity.
  - split; reflexivity.
Qed.

Lemma handleSendMessage_frame api settings content s w c :
  same_frame s (fst (ChatContainer.handleSendMessage api settings content s s w c)).
Proof.
  unfold ChatContainer.handleSendMessage, ChatContainer.handleSendMessage_start.
  destruct (negb (truthy (activeConversationId s))).
  - rewrite bind_run, ret_run. apply same_frame_refl.
  - rewrite !bind_run, ret_run. cbn [fst snd]. unfold addMessage.
    set (r1 := on_active _ s w _).
    set (r2 := on_active _ (fst r1) w _).
    assert (H12 : same_frame s (fst r2)).
    { eapply same_frame_trans; [apply on_active_frame|apply on_active_frame]. }
    destruct (Api.chat_send api _).
    + unfold ChatContainer.handleSendMessage_resolved. rewrite bind_run.
      eapply same_frame_trans; [exact H12|apply on_active_frame].
    + unfold ChatContainer.handleSendMessage_rejected.
      eapply same_frame_trans; [exact H12|apply on_active_frame].
Qed.

Lemma apply_op_valid op s w c :
  selection_valid s -> selection_valid (fst (apply_op op s w c)).
Proof.
  intros Hv. destruct op; unfold apply_op.
  - unfold createConversation. rewrite !bind_run, ret_run. simpl. now left.
  - destruct (nth_error (conversations s) n) as [conv|] eqn:E; rewrite ret_run; [|exact Hv].
    unfold selection_valid, ids; simpl. apply in_map. eapply nth_error_In; eauto.
  - eapply same_frame_valid; [apply on_active_frame|exact Hv].
  - eapply same_frame_valid; [apply on_active_frame|exact Hv].
  - eapply same_frame_valid; [apply on_active_frame|exact Hv].
  - rewrite ret_run. now apply deleteConversation_forgets_identifier.
  - exact I.
  - eapply same_frame_valid; [apply loadConversationHistory_frame|exact Hv].
  - exact Hv.
  - exact Hv.
  - unfold updateConversationTitle. rewrite bind_run, ret_run.
    eapply same_frame_valid; [|exact Hv]. split; [|reflexivity].
    unfold ids; simpl.
    apply (relabel_frame (fun conv now => with_title conv title now)). reflexivity.
  - unfold updateSystemPrompt. rewrite bind_run, ret_run.
    eapply same_frame_valid; [|exact Hv]. split; [|reflexivity].
    unfold ids; simpl.
    apply (relabel_frame (fun conv now => with_systemPrompt conv systemPrompt now)).
    reflexivity.
  - eapply same_frame_valid; [apply handleSendMessage_frame|exact Hv].
  - unfold ChatContainer.ensureConversation.
    destruct (conversations s) as [|conv l] eqn:E.
    + unfold createConversation. rewrite !bind_run, ret_run. simpl. now left.
    + destruct (negb (truthy (activeConversationId s))); rewrite ret_run; [|exact Hv].
      unfold selection_valid, ids; simpl. rewrite E. now left.
Qed.

(** X8.  Whatever sequence of store actions, sent messages, history loads
    and selection effects runs, as long as a conversation is selected the
    way the sidebar does it (by picking a listed one), the selected
    identifier is always that of a conversation in the list, or nothing
    is selected: the store never ends up pointing at a conversation it
    does not hold. *)
Theorem selection_stays_valid :
  forall (ops : list ChatOp) (s : ChatState) (w : World) (c : Cursor),
    selection_valid s ->
    selection_valid (fst (run_ops ops s w c)).
Proof.
  induction ops as [|op ops IH]; intros s w c Hv.
  - exact Hv.
  - simpl. rewrite bind_run. apply IH. now apply apply_op_valid.
Qed.

Lemma selection_stays_valid_witness :
  selection_valid
    (fst (run_ops [OpEnsure; OpCreate (Some "second") None; OpSelectListed 1;
                   OpAddMessage (note "n1" "hello"); OpDeleteConversation "c1";
                   OpUpdateTitle "c2" "kept"; OpSelectListed 7]
                  initial world0 cursor0)).
Proof.
  apply selection_stays_valid. exact I.
Defined.

(** X9.  The edges of [loadConversationHistory].  A failed load is exactly
    [setLoading(false)] and [setError] of the fixed message: conversations
    and selection stay as they were and the clock is not read.  A load
    that resolves with an empty history empties the conversation.  A load
    for an identifier that no conversation carries throws the history
    away and leaves every conversation alone. *)
Theorem loadConversationHistory_edges :
  forall (api : Api.apiClient) (id : string) (s : ChatState) (w : World) (c : Cursor),
    (forall e, Api.memory_getConversation api id = Rejected e ->
               loadConversationHistory api id s w c
               = (setError (Some "Failed to load conversation history")
                           (setLoading false s), c))
    /\ (Api.memory_getConversation api id = Resolved {| Api.history := [] |} ->
        view (fst (loadConversationHistory api id s w c))
        = List.map (fun cm => (fst cm, if String.eqb (fst cm) id then [] else snd cm))
                   (view s))
    /\ (forall response,
           Api.memory_getConversation api id = Resolved response ->
           ~ In id (ids s) ->
           conversations (fst (loadConversationHistory api id s w c)) = conversations s).
Proof.
  intros api id s w c. split; [|split].
  - intros e H. unfold loadConversationHistory. rewrite H. reflexivity.
  - intros H. unfold loadConversationHistory. rewrite H.
    unfold loadConversationHistory_resolved. rewrite !bind_run, ret_run.
    unfold view. cbn [fst conversations loadConversationHistory_start].
    rewrite map_map. apply Forall2_map_eq.
    eapply Forall2_impl; [|apply mapM_Forall2].
    + intros conv conv' (c0 & _ & ->). cbn [fst snd].
      destruct (String.eqb (conv_id conv) id); [|reflexivity].
      rewrite bind_run, ret_run. reflexivity.
    + intros conv. destruct (String.eqb (conv_id conv) id); auto with eff.
  - intros response H Hnone. unfold loadConversationHistory. rewrite H.
    unfold loadConversationHistory_resolved. rewrite !bind_run, ret_run.
    cbn [fst conversations loadConversationHistory_start]. rewrite mapM_idle; [reflexivity|].
    intros conv Hin. destruct (String.eqb_spec (conv_id conv) id) as [E|]; [|reflexivity].
    exfalso. apply Hnone. unfold ids. rewrite <- E. now apply in_map.
Qed.

Lemma loadConversationHistory_edges_witness :
  List.map (fun cm => (fst cm, List.map msg_content (snd cm)))
           (view (fst (loadConversationHistory (history_backend "c1" []) "c1"
                         one_conversation world0 {| ticks := 3; draws := 1 |})))
  = [("c1", [])]
  /\ conversations (fst (loadConversationHistory (history_backend "c9" two_turns) "c9"
                           one_conversation world0 {| ticks := 3; draws := 1 |}))
     = conversations one_conversation.
Proof.
  split.
  - rewrite (proj1 (proj2 (loadConversationHistory_edges
                             (history_backend "c1" []) "c1" one_conversation world0
                             {| ticks := 3; draws := 1 |})) eq_refl).
    reflexivity.
  - apply (proj2 (proj2 (loadConversationHistory_edges
                           (history_backend "c9" two_turns) "c9" one_conversation world0
                           {| ticks := 3; draws := 1 |})) {| Api.history := two_turns |} eq_refl).
    intros [H|[]]. discriminate.
Defined.

End ChatStoreMore.

(** * More about the chat container *)
Module ChatContainerMore.

Import Socket ChatStore ChatContainer ChatRuns ContainerRuns ChatOps.

(** X10.  The placeholder is reconciled through the selection of the
    moment: when another conversation is selected while the request is
    under way, the update with the answer (or the failure notice) is
    applied to that other conversation, and the conversation the message
    was sent in keeps its placeholder, with the sentinel content, as its
    last message. *)
Theorem placeholder_left_behind_after_switch :
  forall (settings : ModelSettings) (content : string) (s s1 : ChatState) (w : World)
         (c c' : Cursor) (a b : string) (fl : InFlight) (response : Api.ChatResponse),
    activeConversationId s = Some a -> a <> "" -> b <> a ->
    fst (handleSendMessage_start settings content s s w c) = (Some fl, s1) ->
    forall s3 : ChatState,
      s3 = fst (handleSendMessage_resolved fl response (setActiveConversation b s1) w c')
      \/ s3 = fst (handleSendMessage_rejected fl (setActiveConversation b s1) w c') ->
      forall cm, In cm (view s3) -> fst cm = a ->
                 exists ms u p,
                   snd cm = (ms ++ [u; p])%list
                   /\ msg_content u = content
                   /\ msg_id p = assistantMessageId fl
                   /\ msg_role p = assistant
                   /\ msg_content p = "...".
Proof.
  intros settings content s s1 w c c' a b fl response Ha Hne Hba Hstart s3 Hs3 cm Hin Hfst.
  destruct (ChatContainerSpec.handleSendMessage_reconciles
              (answering (Rejected "unused")) settings content s w c a Ha Hne)
    as (fl' & s1' & u & p & Hstart' & _ & Hu & Hp & Hrole & Hsentinel & Hview1 & _).
  rewrite Hstart in Hstart'. injection Hstart' as <- <-.
  assert (Hview3 : exists g : string * list ChatMessage -> list ChatMessage,
             view s3 = List.map (fun x => (fst x, if String.eqb b (fst x)
                                                   then g x else snd x)) (view s1)).
  { destruct (String.eqb_spec b "") as [->|Hb].
    - exists snd.
      assert (E : forall id text cur,
                 fst (updateMessage id text (setActiveConversation "" s1) w cur)
                 = setActiveConversation "" s1) by reflexivity.
      destruct Hs3 as [-> | ->];
        [unfold handleSendMessage_resolved; rewrite bind_run|
         unfold handleSendMessage_rejected]; rewrite E;
        change (view (setActiveConversation "" s1)) with (view s1);
        rewrite <- (map_id (view s1)) at 1; apply map_ext;
        intros [i l]; simpl; destruct i; reflexivity.
    - destruct Hs3 as [-> | ->].
      + exists (fun x => List.map (rewritten (assistantMessageId fl) (Api.text response))
                                  (snd x)).
        unfold handleSendMessage_resolved. rewrite bind_run.
        apply (ChatStoreMore.updateMessage_view _ _ (setActiveConversation b s1) w _ b
                 eq_refl Hb).
      + exists (fun x => List.map (rewritten (assistantMessageId fl) failure_notice) (snd x)).
        unfold handleSendMessage_rejected.
        apply (ChatStoreMore.updateMessage_view _ _ (setActiveConversation b s1) w _ b
                 eq_refl Hb). }
  destruct Hview3 as (g & Hview3). rewrite Hview3 in Hin.
  apply in_map_iff in Hin. destruct Hin as (x & <- & Hx). cbn [fst snd] in Hfst |- *.
  assert (Eb : String.eqb b (fst x) = false) by (apply String.eqb_neq; congruence).
  rewrite Eb. rewrite Hview1 in Hx. apply in_map_iff in Hx.
  destruct Hx as (y & <- & _). cbn [fst snd] in Hfst |- *.
  rewrite Hfst, String.eqb_refl. exists (snd y), u, p. repeat split; assumption.
Qed.

Lemma placeholder_left_behind_after_switch_witness :
  let started := fst (handleSendMessage_start default_settings "hello"
                        three_conversations three_conversations world0
                        {| ticks := 7; draws := 3 |}) in
  exists fl s1,
    started = (Some fl, s1)
    /\ let s3 := fst (handleSendMessage_resolved fl hi_there
                        (setActiveConversation "c1" s1) world0
                        {| ticks := 11; draws := 5 |}) in
       List.map (fun cm => (fst cm, List.map msg_content (snd cm))) (view s3)
       = [("c3", ["hello"; "..."]); ("c2", []); ("c1", ["hello"])]
       /\ forall cm, In cm (view s3) -> fst cm = "c3" ->
                     exists ms u p, snd cm = (ms ++ [u; p])%list /\ msg_content p = "...".
Proof.
  cbv zeta. eexists. eexists. split; [reflexivity|]. split; [reflexivity|].
  intros cm Hin Hfst.
  destruct (placeholder_left_behind_after_switch default_settings "hello"
              three_conversations _ world0 {| ticks := 7; draws := 3 |}
              {| ticks := 11; draws := 5 |} "c3" "c1" _ hi_there
              eq_refl ltac:(discriminate) ltac:(discriminate) eq_refl _
              (or_introl eq_refl) cm Hin Hfst)
    as (ms & u & p & E & _ & _ & _ & Hs).
  exists ms, u, p. split; assumption.
Defined.

(** X11.  The selection effect of the container reaches a fixed point in
    one run: afterwards there is at least one conversation and a
    non-empty identifier is selected, and running the effect again on
    that state changes nothing and reads neither clock nor identifier
    source.  Conversations that were already there are kept as they
    are.  (Identifiers are never empty strings.) *)
Theorem ensureConversation_settles :
  forall (s : ChatState) (w : World) (c : Cursor),
    (forall conv, In conv (conversations s) -> conv_id conv <> "") ->
    uuids w (draws c) <> "" ->
    let r := ensureConversation s s w c in
    truthy (activeConversationId (fst r)) = true
    /\ conversations (fst r) <> []
    /\ ensureConversation (fst r) (fst r) w (snd r) = r
    /\ (conversations s <> [] -> conversations (fst r) = conversations s /\ snd r = c).
Proof.
  intros s w c Hids Hfresh r.
  destruct (conversations s) as [|conv l] eqn:E.
  - set (s' := setActiveConversation (uuids w (draws c))
                 (snd (fst (createConversation (Some "New Conversation") None s w c)))).
    assert (Hr : r = (s', {| ticks := S (S (ticks c)); draws := S (draws c) |})).
    { subst r s'. unfold ensureConversation. rewrite E.
      unfold createConversation. rewrite !bind_run, !ret_run. reflexivity. }
    assert (Hact : activeConversationId s' = Some (uuids w (draws c))) by reflexivity.
    assert (Hconv : conversations s' <> []).
    { subst s'. unfold createConversation. rewrite !bind_run, !ret_run. discriminate. }
    assert (Ht : truthy (activeConversationId s') = true).
    { rewrite Hact. simpl. apply String.eqb_neq in Hfresh. now rewrite Hfresh. }
    rewrite Hr. cbn [fst snd]. split; [exact Ht|]. split; [exact Hconv|]. split.
    + unfold ensureConversation. destruct (conversations s'); [contradiction|].
      now rewrite Ht.
    + intros H. contradiction.
  - destruct (truthy (activeConversationId s)) eqn:T.
    + assert (Hr : r = (s, c)).
      { subst r. unfold ensureConversation. now rewrite E, T. }
      rewrite Hr. cbn [fst snd].
      split; [exact T|]. split; [rewrite ?E; discriminate|]. split; [exact Hr|].
      intros _. split; [exact E|reflexivity].
    + assert (Hr : r = (setActiveConversation (conv_id conv) s, c)).
      { subst r. unfold ensureConversation. now rewrite E, T. }
      assert (Hc : String.eqb (conv_id conv) "" = false).
      { apply String.eqb_neq. apply Hids. now left. }
      rewrite Hr. cbn [fst snd]. split; [simpl; now rewrite Hc|].
      split; [simpl; rewrite ?E; discriminate|]. split.
      * unfold ensureConversation. cbn [setActiveConversation conversations
                                         activeConversationId truthy].
        now rewrite E, Hc.
      * intros _. split; [exact E|reflexivity].
Qed.

Lemma ensureConversation_settles_witness :
  let r := ensureConversation initial initial world0 cursor0 in
  ids (fst r) = ["c1"]
  /\ activeConversationId (fst r) = Some "c1"
  /\ ensureConversation (fst r) (fst r) world0 (snd r) = r.
Proof.
  cbv zeta. split; [reflexivity|]. split; [reflexivity|].
  apply (ensureConversation_settles initial world0 cursor0).
  - intros conv [].
  - discriminate.
Defined.

(** X12.  The whole send turn in a fresh session.  From the empty store,
    once the selection effect has run and a message is submitted, the
    store holds one conversation with exactly two messages: the user's,
    with the submitted text, and the assistant's, with the returned text
    or, when the request failed, the fixed notice; the request carried
    the submitted text and the identifier of the new conversation.
    (The three identifiers drawn are a non-empty one for the
    conversation and two different ones for the messages.) *)
Theorem fresh_session_send_turn :
  forall (api : Api.apiClient) (settings : ModelSettings) (content : string)
         (w : World) (c : Cursor),
    let cid := uuids w (draws c) in
    let uid := uuids w (S (draws c)) in
    let aid := uuids w (S (S (draws c))) in
    cid <> "" -> uid <> aid ->
    let r := ensureConversation initial initial w c in
    let started := fst (handleSendMessage_start settings content (fst r) (fst r) w (snd r)) in
    let s' := fst (handleSendMessage api settings content (fst r) (fst r) w (snd r)) in
    exists fl,
      fst started = Some fl
      /\ assistantMessageId fl = aid
      /\ Api.prompt (chat_request fl) = content
      /\ Api.conversation_id (chat_request fl) = Some cid
      /\ let final := match Api.chat_send api (chat_request fl) with
                      | Resolved response => Api.text response
                      | Rejected _ => failure_notice
                      end in
         List.map (fun cm => (fst cm,
                              List.map (fun m => (msg_id m, msg_role m, msg_content m)) (snd cm)))
                  (view s')
         = [(cid, [(uid, user, content); (aid, assistant, final)])].
Proof.
  intros api settings content w c cid uid aid Hcid Hids r started s'.
  apply String.eqb_neq in Hcid, Hids.
  assert (Hrefl : String.eqb cid cid = true) by apply String.eqb_refl.
  assert (Hrefl' : String.eqb aid aid = true) by apply String.eqb_refl.
  subst r started s'.
  unfold handleSendMessage, handleSendMessage_start, ensureConversation, initial.
  cbn [conversations]. unfold createConversation, addMessage, on_active.
  unfold mapM, mapiM.
  repeat (rewrite ?bind_run, ?ret_run;
          cbn [fst snd uuidv4 Date_now ticks draws setActiveConversation conversations
               activeConversationId truthy negb is_id conv_id mapiM_from
               set_conversations with_messages conv_messages app];
          fold cid uid aid; rewrite ?Hcid, ?Hrefl).
  eexists. split; [reflexivity|]. cbn [assistantMessageId chat_request
                                        Api.prompt Api.conversation_id].
  split; [reflexivity|]. split; [reflexivity|]. split; [reflexivity|].
  cbv zeta.
  destruct (Api.chat_send api _) as [response|e];
    unfold handleSendMessage_resolved, handleSendMessage_rejected, updateMessage, on_active,
      mapM, mapiM, view;
    repeat (rewrite ?bind_run, ?ret_run;
            cbn [fst snd uuidv4 Date_now ticks draws setActiveConversation conversations
                 activeConversationId truthy negb is_id conv_id mapiM_from
                 set_conversations with_messages conv_messages app assistantMessageId
                 List.map msg_id msg_role msg_content with_content];
            fold cid uid aid; rewrite ?Hcid, ?Hrefl, ?Hids, ?Hrefl');
    reflexivity.
Qed.

Lemma fresh_session_send_turn_witness :
  List.map (fun cm => (fst cm, List.map (fun m => (msg_id m, msg_role m, msg_content m)) (snd cm)))
           (view (fst (handleSendMessage (answering (Rejected "timeout")) default_settings
                         "hello"
                         (fst (ensureConversation initial initial world0 cursor0))
                         (fst (ensureConversation initial initial world0 cursor0))
                         world0
                         (snd (ensureConversation initial initial world0 cursor0)))))
  = [("c1", [("c2", user, "hello"); ("c3", assistant, failure_notice)])].
Proof.
  destruct (fresh_session_send_turn (answering (Rejected "timeout")) default_settings
              "hello" world0 cursor0 ltac:(discriminate) ltac:(discriminate))
    as (fl & _ & _ & _ & _ & H).
  exact H.
Defined.

End ChatContainerMore.

(** * More about the crew store *)
Module AgentStoreMore.

Import AgentStore AgentRuns.

Lemma findIndex_from_spec {A : Type} (p : A -> bool) (l : list A) :
  forall i,
    (findIndex_from i p l = -1 /\ forall x, In x l -> p x = false)
    \/ exists (n : nat) (x : A),
         findIndex_from i p l = i + Z.of_nat n
         /\ nth_error l n = Some x /\ p x = true
         /\ forall m y, (m < n)%nat -> nth_error l m = Some y -> p y = false.
Proof.
  induction l as [|a l IH]; intros i.
  - left. split; [reflexivity|]. intros x [].
  - simpl. destruct (p a) eqn:E.
    + right. exists 0%nat, a. repeat split; auto; [lia|]. intros m y Hm; lia.
    + destruct (IH (i + 1)) as [[Hnone Hall]|(n & x & Hidx & Hnth & Hp & Hbefore)].
      * left. split; [exact Hnone|]. intros x [<-|Hin]; auto.
      * right. exists (S n), x. repeat split; auto; [lia|].
        intros m y Hm Hy. destruct m as [|m]; simpl in Hy.
        -- now injection Hy as <-.
        -- apply (Hbefore m y); [lia|exact Hy].
Qed.

(** X13.  In the request [createCrew] sends, every task carries the
    position of its agent in the crew's agent list: an index that is in
    range and points at the first occurrence of the task's agent
    identifier -- or [-1], and that exactly when the task's agent is not
    a member of the crew. *)
Theorem createCrew_agent_index :
  forall (crewData : CrewData) (s : AgentState) (w : World) (c : Cursor),
    let req := draft_request (fst (fst (createCrew_start crewData s w c))) in
    let members := data_agents crewData in
    Forall2 (fun task rq =>
               Api.description rq = task_description task
               /\ Api.expected_output rq = task_expectedOutput task
               /\ ((Api.agent_index rq = -1 /\ ~ In (task_agentId task) members)
                   \/ exists n : nat,
                        Api.agent_index rq = Z.of_nat n
                        /\ (n < List.length members)%nat
                        /\ nth_error members n = Some (task_agentId task)
                        /\ forall m, (m < n)%nat ->
                                     nth_error members m <> Some (task_agentId task)))
            (data_tasks crewData) (Api.tasks req).
Proof.
  intros crewData s w c req members. subst req.
  unfold createCrew_start. rewrite !bind_run, ret_run.
  cbn [fst snd draft_request Api.tasks crew_tasks crew_agents].
  fold members. induction (data_tasks crewData) as [|task tasks IH]; simpl; constructor;
    [|exact IH].
  cbn [Api.description Api.expected_output Api.agent_index].
  split; [reflexivity|]. split; [reflexivity|]. unfold findIndex.
  destruct (findIndex_from_spec (fun agentId => String.eqb agentId (task_agentId task))
              members 0) as [[Hnone Hall]|(n & x & Hidx & Hnth & Hp & Hbefore)].
  - left. split; [exact Hnone|]. intros Hin. specialize (Hall _ Hin).
    now rewrite String.eqb_refl in Hall.
  - right. exists n. apply String.eqb_eq in Hp. subst x.
    split; [rewrite Hidx; lia|]. split; [apply nth_error_Some; congruence|].
    split; [exact Hnth|]. intros m Hm Hy.
    specialize (Hbefore m _ Hm Hy). now rewrite String.eqb_refl in Hbefore.
Qed.




(** X15.  A crew created and then deleted by the identifier the backend
    issued leaves the list of crews as it was before, provided no older
    crew carried that identifier ([deleteCrew] removes every crew with
    the identifier, the older ones too). *)
Theorem createCrew_then_deleteCrew :
  forall (api : Api.apiClient) (crewData : CrewData) (s : AgentState) (w : World) (c : Cursor)
         (id : string),
    fst (fst (createCrew api crewData s w c)) = Returned id ->
    let s' := snd (fst (createCrew api crewData s w c)) in
    (crews (deleteCrew id s')
     = List.filter (fun crew => negb (String.eqb (crew_id crew) id)) (crews s))
    /\ (entries id s = 0%nat -> crews (deleteCrew id s') = crews s).
Proof.
  intros api crewData s w c id Hret s'.
  assert (Hcrews : exists crew, crews s' = (crews s ++ [crew])%list /\ crew_id crew = id).
  { subst s'. rewrite AgentStoreSpec.createCrew_run in Hret |- *. cbv zeta in Hret |- *.
    cbn [fst snd] in Hret |- *.
    destruct (Api.crew_create api _) as [response|e]; [|discriminate].
    unfold createCrew_resolved in Hret |- *. cbn [fst snd] in Hret |- *.
    injection Hret as <-. eexists. split; reflexivity. }
  destruct Hcrews as (crew & Hcrews & Hid).
  assert (Hdel : crews (deleteCrew id s')
                 = List.filter (fun crew => negb (String.eqb (crew_id crew) id)) (crews s)).
  { unfold deleteCrew. cbn [crews set_crews]. rewrite Hcrews, filter_app. simpl.
    rewrite Hid, String.eqb_refl. simpl. apply app_nil_r. }
  split; [exact Hdel|]. intros Hnone. rewrite Hdel. apply filter_untouched.
  intros x Hx. unfold entries in Hnone. apply negb_true_iff.
  destruct (String.eqb (crew_id x) id) eqn:E; [|reflexivity].
  assert (Hin : In x (List.filter (fun crew => String.eqb (crew_id crew) id) (crews s))).
  { apply filter_In. split; assumption. }
  destruct (List.filter (fun crew => String.eqb (crew_id crew) id) (crews s));
    [destruct Hin|discriminate Hnone].
Qed.

Lemma createCrew_then_deleteCrew_witness :
  crews (deleteCrew "abc123" one_idle_crew) = crews empty_store.
Proof.
  apply (proj2 (createCrew_then_deleteCrew
                  (crew_backend (issues "abc123") (Rejected "unused"))
                  two_agents_one_task empty_store world0 cursor0 "abc123" eq_refl)).
  reflexivity.
Defined.

Lemma runCrew_resolved_stamps id response s w c :
  Forall2 (fun crew crew' =>
             if String.eqb (crew_id crew) id
             then exists n : nat,
                 (ticks c <= n)%nat
                 /\ crew' = {| crew_id := crew_id crew;
                               crew_name := crew_name crew;
                               crew_agents := crew_agents crew;
                               crew_tasks := crew_tasks crew;
                               crew_processType := crew_processType crew;
                               crew_status := completed;
                               crew_result := Some (Api.result response);
                               crew_createdAt := crew_createdAt crew;
                               crew_updatedAt := clock w (S n);
                               crew_completedAt := Some (clock w n);
                               crew_duration := Some (Api.duration response) |}
             else crew' = crew)
          (crews s) (crews (fst (runCrew_resolved id response s w c))).
Proof.
  unfold runCrew_resolved. rewrite bind_run, ret_run. cbn [fst crews set_crews].
  eapply Forall2_impl; [|apply AgentStoreSpec.map_crew_spec].
  - intros crew crew' H. cbv beta in H |- *.
    destruct (String.eqb (crew_id crew) id); [|exact H].
    destruct H as (c0 & Hle & ->). rewrite !bind_run, ret_run. simpl.
    exists (ticks c0). split; [exact Hle|reflexivity].
  - intros crew. auto with eff.
Qed.

(** X16.  When the backend call of [runCrew] resolves, every crew with the
    targeted identifier ends [completed] with the result and the duration
    of the response and a completion time read from the clock; its
    modification time is the next reading, so that with a clock that
    does not go backwards a crew is never completed after it was last
    modified.  Identifier, name, agents, tasks, process type and
    creation time are kept, the other crews are untouched, the loading
    flag and any earlier error are cleared. *)
Theorem runCrew_success_records_result :
  forall (api : Api.apiClient) (id : string) (response : Api.CrewRunResponse)
         (s : AgentState) (w : World) (c : Cursor),
    Api.crew_run api id = Resolved response ->
    let s' := snd (fst (runCrew api id s w c)) in
    error s' = None
    /\ isLoading s' = false
    /\ Forall2 (fun crew crew' =>
                  if String.eqb (crew_id crew) id
                  then crew_status crew' = completed
                       /\ crew_result crew' = Some (Api.result response)
                       /\ crew_duration crew' = Some (Api.duration response)
                       /\ (exists n : nat,
                              crew_completedAt crew' = Some (clock w n)
                              /\ crew_updatedAt crew' = clock w (S n))
                       /\ (ChatRuns.monotone w ->
                           exists t, crew_completedAt crew' = Some t
                                     /\ t <= crew_updatedAt crew')
                       /\ crew_id crew' = crew_id crew
                       /\ crew_name crew' = crew_name crew
                       /\ crew_agents crew' = crew_agents crew
                       /\ crew_tasks crew' = crew_tasks crew
                       /\ crew_processType crew' = crew_processType crew
                       /\ crew_createdAt crew' = crew_createdAt crew
                  else crew' = crew)
               (crews s) (crews s').
Proof.
  intros api id response s w c Hok s'. subst s'.
  rewrite AgentStoreSpec.runCrew_run, Hok. cbv zeta. cbn [fst snd].
  destruct (AgentStoreSpec.runCrew_start_spec id s w c) as (_ & _ & _ & _ & Herr & HF1).
  destruct (AgentStoreSpec.runCrew_resolved_spec id response (fst (runCrew_start id s w c)) w
              (snd (runCrew_start id s w c))) as (_ & _ & _ & Hload & Herr2 & _).
  split; [congruence|]. split; [exact Hload|].
  eapply Forall2_impl;
    [|exact (Forall2_compose _ _ _ _ _ HF1
               (runCrew_resolved_stamps id response (fst (runCrew_start id s w c)) w
                  (snd (runCrew_start id s w c))))].
  intros crew crew' (crew1 & H1 & H2). cbv beta in H1, H2 |- *.
  destruct (String.eqb (crew_id crew) id) eqn:E.
  - destruct H1 as (t1 & ->). simpl in H2. rewrite E in H2.
    destruct H2 as (n & _ & ->). simpl. repeat split; eauto.
  - subst crew1. rewrite E in H2. exact H2.
Qed.

Lemma runCrew_success_records_result_witness :
  let s' := snd (fst (runCrew (crew_backend (issues "abc123") (finishes "report"))
                        "abc123" one_idle_crew world0 after_one_crew)) in
  error s' = None
  /\ List.map (fun crew => (crew_status crew, crew_result crew, crew_duration crew)) (crews s')
     = [(completed, Some "report", Some 42)].
Proof.
  cbv zeta. split; [|reflexivity].
  apply (runCrew_success_records_result
           (crew_backend (issues "abc123") (finishes "report")) "abc123"
           {| Api.run_crew_id := "abc123"; Api.result := "report"; Api.duration := 42 |}
           one_idle_crew world0 after_one_crew eq_refl).
Defined.

Lemma map_crew_unknown id (f : Crew -> Eff Crew) cs w c :
  ~ In id (List.map crew_id cs) -> map_crew id f cs w c = (cs, c).
Proof.
  intros Hnone. unfold map_crew. apply mapM_idle. intros crew Hin.
  destruct (String.eqb_spec (crew_id crew) id) as [E|]; [|reflexivity].
  exfalso. apply Hnone. rewrite <- E. now apply in_map.
Qed.

(** X17.  [runCrew] with an identifier that no crew carries still calls
    the backend and still reports the outcome in the store -- loading
    flag cleared, [error] cleared on success and set to the fixed message
    on failure -- but changes no crew and reads no clock. *)
Theorem runCrew_unknown_identifier :
  forall (api : Api.apiClient) (id : string) (s : AgentState) (w : World) (c : Cursor),
    ~ In id (List.map crew_id (crews s)) ->
    runCrew api id s w c
    = ((Returned tt,
        set_flags false
                  match Api.crew_run api id with
                  | Resolved _ => None
                  | Rejected _ => Some "Failed to run crew"
                  end s), c).
Proof.
  intros api id s w c Hnone. rewrite AgentStoreSpec.runCrew_run. cbv zeta.
  assert (H1 : runCrew_start id s w c = (set_flags true None s, c)).
  { unfold runCrew_start. rewrite bind_run, ret_run.
    cbn [crews set_flags]. rewrite map_crew_unknown by exact Hnone. reflexivity. }
  rewrite H1. cbn [fst snd].
  destruct (Api.crew_run api id) as [response|e].
  - unfold runCrew_resolved. rewrite bind_run, ret_run. cbn [crews set_flags].
    rewrite map_crew_unknown by exact Hnone. reflexivity.
  - unfold runCrew_rejected. rewrite bind_run, ret_run. cbn [crews set_flags].
    rewrite map_crew_unknown by exact Hnone. reflexivity.
Qed.

Lemma runCrew_unknown_identifier_witness :
  runCrew (crew_backend (issues "abc123") (Rejected "404")) "gone" one_idle_crew
          world0 after_one_crew
  = ((Returned tt, set_flags false (Some "Failed to run crew") one_idle_crew), after_one_crew).
Proof.
  apply (runCrew_unknown_identifier
           (crew_backend (issues "abc123") (Rejected "404")) "gone" one_idle_crew
           world0 after_one_crew).
  intros [H|[]]. discriminate.
Defined.

(** X18.  Whatever state the store was in and whatever the backend
    answers, [createCrew], [runCrew] and [fetchTemplates] end with the
    loading flag cleared, and with [error] cleared when the call resolved
    and set to the operation's fixed message when it was rejected: an
    earlier error never survives a later operation.  [fetchTemplates]
    replaces both vocabularies on success and keeps them on failure. *)
Theorem async_operations_settle_flags :
  forall (api : Api.apiClient) (s : AgentState) (w : World) (c : Cursor),
    (forall crewData,
        let d := fst (fst (createCrew_start crewData s w c)) in
        let s' := snd (fst (createCrew api crewData s w c)) in
        isLoading s' = false
        /\ error s' = match Api.crew_create api (draft_request d) with
                      | Resolved _ => None
                      | Rejected _ => Some "Failed to create crew"
                      end)
    /\ (forall id,
           let s' := snd (fst (runCrew api id s w c)) in
           isLoading s' = false
           /\ error s' = match Api.crew_run api id with
                         | Resolved _ => None
                         | Rejected _ => Some "Failed to run crew"
                         end)
    /\ (let s' := snd (fetchTemplates api s) in
        isLoading s' = false
        /\ crews s' = crews s /\ agents s' = agents s
        /\ match Api.crew_getTemplates api with
           | Resolved response =>
               error s' = None
               /\ availableTemplates s' = Api.tpl_agent_templates response
               /\ availableTools s' = Api.tpl_tools response
           | Rejected _ =>
               error s' = Some "Failed to fetch agent templates"
               /\ availableTemplates s' = availableTemplates s
               /\ availableTools s' = availableTools s
           end).
Proof.
  intros api s w c. split; [|split].
  - intros crewData d s'. subst d s'. rewrite AgentStoreSpec.createCrew_run. cbv zeta.
    cbn [fst snd]. destruct (Api.crew_create api _); split; reflexivity.
  - intros id s'. subst s'. rewrite AgentStoreSpec.runCrew_run. cbv zeta.
    destruct (AgentStoreSpec.runCrew_start_spec id s w c) as (_ & _ & _ & _ & Herr & _).
    destruct (Api.crew_run api id) as [response|e]; cbn [fst snd].
    + destruct (AgentStoreSpec.runCrew_resolved_spec id response
                  (fst (runCrew_start id s w c)) w (snd (runCrew_start id s w c)))
        as (_ & _ & _ & Hl & He & _).
      split; congruence.
    + destruct (AgentStoreSpec.runCrew_rejected_spec id
                  (fst (runCrew_start id s w c)) w (snd (runCrew_start id s w c)))
        as (_ & _ & _ & Hl & He & _).
      split; assumption.
  - unfold fetchTemplates. destruct (Api.crew_getTemplates api); repeat split.
Qed.

End AgentStoreMore.

(** * The new-crew form *)
Module AgentManagerMore.

Import AgentStore AgentManager FormOps AgentRuns.

Lemma map_at_Forall {A : Type} (P : A -> Prop) (f : A -> A) :
  (forall x, P x -> P (f x)) ->
  forall l index, Forall P l -> Forall P (map_at index f l).
Proof.
  intros Hf l; induction l as [|x xs IH]; intros index H; simpl; [constructor|].
  inversion H; subst. destruct index; constructor; auto.
Qed.

Lemma remove_at_Forall {A : Type} (P : A -> Prop) :
  forall (l : list A) index, Forall P l -> Forall P (remove_at index l).
Proof.
  induction l as [|x xs IH]; intros index H; simpl; [constructor|].
  inversion H; subst. destruct index; [assumption|constructor; auto].
Qed.

Lemma apply_form_op_assigned op form :
  assigned_to_members form -> assigned_to_members (apply_form_op op form).
Proof.
  unfold assigned_to_members. intros H. destruct op; simpl; try exact H.
  - eapply Forall_impl; [|exact H]. intros task Hin. apply in_or_app. now left.
  - unfold handleAddTask. destruct (nc_agents form) as [|first l] eqn:E;
      [rewrite ?E; exact H|].
    simpl. rewrite ?E. apply Forall_app. split; [exact H|].
    constructor; [now left|constructor].
  - apply map_at_Forall; [|exact H]. intros task Hin. exact Hin.
  - apply map_at_Forall; [|exact H]. intros task Hin. exact Hin.
  - destruct (nth_error (nc_agents form) choice) as [agentId|] eqn:E; [|exact H].
    simpl. apply map_at_Forall; [|exact H]. intros task _. simpl.
    eapply nth_error_In; eauto.
  - now apply remove_at_Forall.
Qed.

Lemma requested_tasks_eq form s w c :
  requested_tasks form s w c
  = List.map (fun task =>
                {| Api.description := ft_description task;
                   Api.agent_index :=
                     findIndex (fun agentId => String.eqb agentId (ft_agentId task))
                               (nc_agents form);
                   Api.expected_output := ft_expectedOutput task |})
             (nc_tasks form).
Proof.
  unfold requested_tasks, createCrew_start. rewrite !bind_run, ret_run.
  cbn [fst snd draft_request Api.tasks crew_tasks crew_agents draft_of data_tasks
       data_agents]. now rewrite map_map.
Qed.

(** X19.  However the new-crew form is filled in -- agents checked, tasks
    added, edited, reassigned through the select and removed -- as long
    as no agent is unchecked, every task stays assigned to a member of
    the crew, and the request [createCrew] builds from the form gives
    every task an agent position inside the member list. *)
Theorem form_tasks_stay_assigned :
  forall (ops : list FormOp) (s : AgentState) (w : World) (c : Cursor),
    let form := run_form ops blank_crew in
    assigned_to_members form
    /\ Forall (fun rq => 0 <= Api.agent_index rq < Z.of_nat (List.length (nc_agents form)))
              (requested_tasks form s w c).
Proof.
  intros ops s w c form.
  assert (Hinv : assigned_to_members form).
  { subst form. unfold run_form.
    assert (H0 : assigned_to_members blank_crew) by constructor.
    revert H0. generalize blank_crew. induction ops as [|op ops IH]; intros f Hf.
    - exact Hf.
    - simpl. apply IH. now apply apply_form_op_assigned. }
  split; [exact Hinv|]. rewrite requested_tasks_eq. apply Forall_map.
  eapply Forall_impl; [|exact Hinv]. intros task Hin. cbn [Api.agent_index]. unfold findIndex.
  destruct (AgentStoreMore.findIndex_from_spec
              (fun agentId => String.eqb agentId (ft_agentId task)) (nc_agents form) 0)
    as [[_ Hall]|(n & x & Hidx & Hnth & _)].
  - specialize (Hall _ Hin). now rewrite String.eqb_refl in Hall.
  - rewrite Hidx. assert (n < List.length (nc_agents form))%nat
      by (apply nth_error_Some; congruence). lia.
Qed.

(** X20.  Unchecking an agent takes it out of the member list and leaves
    its tasks in the form: in the request built from the form, every
    task still assigned to the unchecked agent carries the agent
    position [-1]. *)
Theorem unchecked_agent_orphans_its_tasks :
  forall (agentId : string) (form : NewCrew) (s : AgentState) (w : World) (c : Cursor),
    let form' := toggleAgent false agentId form in
    nc_tasks form' = nc_tasks form
    /\ ~ In agentId (nc_agents form')
    /\ Forall2 (fun task rq => ft_agentId task = agentId -> Api.agent_index rq = -1)
               (nc_tasks form) (requested_tasks form' s w c).
Proof.
  intros agentId form s w c form'.
  assert (Hgone : ~ In agentId (nc_agents form')).
  { subst form'. simpl. intros Hin. apply filter_In in Hin. destruct Hin as [_ H].
    now rewrite String.eqb_refl in H. }
  split; [reflexivity|]. split; [exact Hgone|].
  rewrite requested_tasks_eq. change (nc_tasks form') with (nc_tasks form).
  induction (nc_tasks form) as [|task tasks IH]; simpl; constructor; [|exact IH].
  intros E. cbn [Api.agent_index]. unfold findIndex.
  destruct (AgentStoreMore.findIndex_from_spec
              (fun a => String.eqb a (ft_agentId task)) (nc_agents form') 0)
    as [[Hnone _]|(n & x & _ & Hnth & Hp & _)]; [exact Hnone|].
  exfalso. apply Hgone. apply String.eqb_eq in Hp. rewrite <- E, <- Hp.
  eapply nth_error_In; eauto.
Qed.

Lemma unchecked_agent_orphans_its_tasks_witness :
  let form := run_form [FCheck "agent-1"; FCheck "agent-2"; FAddTask] blank_crew in
  List.map ft_agentId (nc_tasks form) = ["agent-1"]
  /\ List.map Api.agent_index
              (requested_tasks form AgentRuns.empty_store AgentRuns.world0 AgentRuns.cursor0)
     = [0]
  /\ hd 0 (List.map Api.agent_index
                    (requested_tasks (toggleAgent false "agent-1" form) AgentRuns.empty_store
                                     AgentRuns.world0 AgentRuns.cursor0))
     = -1.
Proof.
  cbv zeta. split; [reflexivity|]. split; [reflexivity|].
  pose proof (proj2 (proj2 (unchecked_agent_orphans_its_tasks
    "agent-1" (run_form [FCheck "agent-1"; FCheck "agent-2"; FAddTask] blank_crew)
    AgentRuns.empty_store AgentRuns.world0 AgentRuns.cursor0))) as H.
  cbv zeta in H.
  change (nc_tasks (run_form [FCheck "agent-1"; FCheck "agent-2"; FAddTask] blank_crew))
    with [{| ft_description := ""; ft_agentId := "agent-1";
             ft_expectedOutput := "Comprehensive analysis" |}] in H.
  inversion H as [|task rq tasks rqs Hhead Htail Hm Ht].
  cbn [List.map hd]. apply Hhead. reflexivity.
Defined.

(** X21.  [handleCreateCrew] never throws.  Without a name, a member or a
    task it does nothing at all.  Otherwise it calls [createCrew]: when
    that fails, the error it throws stops here, the form keeps what was
    typed and stays open, and the store shows the error; when it
    succeeds, the form is cleared and hidden and the store holds one more
    crew, idle, with the backend's identifier. *)
Theorem handleCreateCrew_outcomes :
  forall (api : Api.apiClient) (panel : CrewPanel) (s : AgentState) (w : World) (c : Cursor),
    let form := newCrew panel in
    let d := fst (fst (createCrew_start (draft_of form) s w c)) in
    let r := fst (handleCreateCrew api panel s w c) in
    fst (fst r) = Returned tt
    /\ if String.eqb (nc_name form) ""
       then handleCreateCrew api panel s w c = ((Returned tt, panel, s), c)
       else match nc_agents form, nc_tasks form with
            | [], _ | _, [] => handleCreateCrew api panel s w c = ((Returned tt, panel, s), c)
            | _ :: _, _ :: _ =>
                match Api.crew_create api (draft_request d) with
                | Rejected _ =>
                    snd (fst r) = panel
                    /\ snd r = set_flags false (Some "Failed to create crew") s
                | Resolved response =>
                    snd (fst r) = {| newCrew := blank_crew; showNewCrewForm := false |}
                    /\ snd r = set_crews (crews s ++
                                          [assign_id (draft_crew d) (Api.crew_id response)])
                                         false None s
                end
            end.
Proof.
  intros api panel s w c form d r. subst r d. unfold handleCreateCrew. fold form.
  destruct (String.eqb (nc_name form) "") eqn:En; cbn [negb andb].
  - split; reflexivity.
  - destruct (nc_agents form) as [|a l] eqn:Ea;
      [split; reflexivity|].
    destruct (nc_tasks form) as [|t ts] eqn:Et;
      [split; reflexivity|].
    cbn [List.length Z.of_nat Z.ltb Z.compare andb].
    replace (0 <? Z.of_nat (S (List.length l))) with true
      by (symmetry; apply Z.ltb_lt; lia).
    replace (0 <? Z.of_nat (S (List.length ts))) with true
      by (symmetry; apply Z.ltb_lt; lia).
    cbn [andb]. rewrite bind_run, AgentStoreSpec.createCrew_run. cbv zeta. cbn [fst snd].
    destruct (Api.crew_create api _) as [response|e]; cbn [fst snd createCrew_resolved
                                                            createCrew_rejected];
      rewrite ret_run; cbn [fst snd]; repeat split.
Qed.

End AgentManagerMore.

(** * The chat input *)
Module ChatInputMore.

Import ChatInput MoreVocabulary.

Lemma trimEnd_empty s : trimEnd s = EmptyString <-> all_space s = true.
Proof.
  induction s as [|ch rest IH]; simpl; [tauto|].
  destruct (trimEnd rest) eqn:E.
  - destruct (is_space ch); simpl; [tauto|]. split; discriminate.
  - split; [discriminate|]. intros H. apply andb_true_iff in H.
    destruct H as [_ H]. apply IH in H. discriminate.
Qed.

Lemma all_space_trimStart s : all_space (trimStart s) = all_space s.
Proof.
  induction s as [|ch rest IH]; simpl; [reflexivity|].
  destruct (is_space ch) eqn:E; simpl; [exact IH|]. now rewrite E.
Qed.

Lemma trim_blank s : String.eqb (trim s) "" = all_space s.
Proof.
  unfold trim. destruct (all_space s) eqn:E.
  - apply String.eqb_eq. apply trimEnd_empty. now rewrite all_space_trimStart.
  - apply String.eqb_neq. intros H. apply trimEnd_empty in H.
    rewrite all_space_trimStart in H. congruence.
Qed.

(** X22.  [handleSubmit] hands the text over exactly when it holds at least
    one character that is not white space and no request is under way.
    It hands over the text as typed, surrounding white space included,
    and empties the box; in every other case the box keeps its text. *)
Theorem handleSubmit_sends_nonblank :
  forall (isLoading : bool) (st : InputState),
    handleSubmit isLoading st
    = if negb (all_space (message st)) && negb isLoading
      then (Some (message st), {| message := "" |})
      else (None, st).
Proof.
  intros isLoading st. unfold handleSubmit. now rewrite trim_blank.
Qed.

End ChatInputMore.

(** * More about the push channel *)
Module SocketMore.

Import Socket SocketRuns MoreVocabulary.

Lemma Map_get_set_same {W : Type} (k : string) (h : Handler W) m :
  Map_get k (Map_set k h m) = Some h.
Proof.
  induction m as [|[k0 h0] m IH]; simpl.
  - now rewrite String.eqb_refl.
  - destruct (String.eqb k0 k) eqn:E; simpl.
    + now rewrite String.eqb_refl.
    + now rewrite E.
Qed.

Lemma Map_get_set_other {W : Type} (k k' : string) (h : Handler W) m :
  k' <> k -> Map_get k' (Map_set k h m) = Map_get k' m.
Proof.
  intros Hne. induction m as [|[k0 h0] m IH]; simpl.
  - destruct (String.eqb_spec k k'); [congruence|reflexivity].
  - destruct (String.eqb_spec k0 k) as [->|Hk]; simpl.
    + destruct (String.eqb_spec k k'); [congruence|reflexivity].
    + destruct (String.eqb k0 k'); [reflexivity|exact IH].
Qed.

(** X23.  [sendMessage] always ends connected and never calls the callback
    itself: the reply "WebSocket not connected" cannot occur.  The
    request goes out last on the socket, tagged with the identifier just
    drawn; the callback is what the map holds under that very
    identifier, and what the map holds under any other identifier is
    what it held before. *)
Theorem sendMessage_registers_what_it_emits :
  forall (W : Type) (req : ChatRequest) (h : Handler W) (c : WebSocketClient W) (x : W)
         (w : World) (cur : Cursor),
    let r := fst (sendMessage req h (c, x) w cur) in
    let id := uuids w (draws cur) in
    snd r = x
    /\ (exists io,
           socket (fst r) = Some io
           /\ outbox io
              = (match socket c with Some old => outbox old | None => [] end
                 ++ [{| request := req; message_id := id |}])%list)
    /\ Map_get id (messageHandlers (fst r)) = Some h
    /\ forall k, k <> id ->
                 Map_get k (messageHandlers (fst r)) = Map_get k (messageHandlers c).
Proof.
  intros W req h c x w cur r id. subst r id.
  unfold sendMessage. rewrite bind_run. cbn [uuidv4 fst snd].
  destruct (socket c) as [io|] eqn:E.
  - rewrite E, ret_run. cbn [fst snd socket messageHandlers]. repeat split.
    + eexists. split; reflexivity.
    + apply Map_get_set_same.
    + intros k Hk. now apply Map_get_set_other.
  - unfold connect. rewrite E. cbn [socket]. rewrite ret_run.
    cbn [fst snd socket messageHandlers outbox]. repeat split.
    + eexists. split; reflexivity.
    + apply Map_get_set_same.
    + intros k Hk. now apply Map_get_set_other.
Qed.

Lemma sendMessage_registers_what_it_emits_witness :
  let r := fst (sendMessage (ask "hello") (recorder "new") (pending ["older"], []) world0 cursor0) in
  Map_get "older" (messageHandlers (fst r)) = Map_get "older" (messageHandlers (pending ["older"])).
Proof.
  cbv zeta.
  apply (proj2 (proj2 (proj2 (sendMessage_registers_what_it_emits
           Trace (ask "hello") (recorder "new") (pending ["older"]) [] world0 cursor0)))).
  discriminate.
Defined.

(** X24.  [connect] and [disconnect] are idempotent: connecting a connected
    client keeps its socket, with everything emitted on it, and
    disconnecting a disconnected client does nothing.  After [connect]
    there is a socket, after [disconnect] there is none, and a socket
    opened after a disconnect starts with nothing emitted.  Neither
    touches the registered callbacks. *)
Theorem connect_disconnect_lifecycle :
  forall (W : Type) (c : WebSocketClient W),
    connect (connect c) = connect c
    /\ disconnect (disconnect c) = disconnect c
    /\ socket (connect c) <> None
    /\ socket (disconnect c) = None
    /\ socket (connect (disconnect c)) = Some {| outbox := [] |}
    /\ (socket c <> None -> connect c = c)
    /\ (socket c = None -> disconnect c = c)
    /\ messageHandlers (connect c) = messageHandlers c
    /\ messageHandlers (disconnect c) = messageHandlers c.
Proof.
  intros W c. unfold connect, disconnect.
  destruct (socket c) as [io|] eqn:E; simpl; rewrite ?E; simpl;
    repeat split; try reflexivity; try discriminate; try congruence.
Qed.

Lemma connect_disconnect_lifecycle_witness :
  connect (pending ["m1"]) = pending ["m1"].
Proof.
  apply (proj1 (proj2 (proj2 (proj2 (proj2 (proj2
           (connect_disconnect_lifecycle Trace (pending ["m1"])))))))).
  discriminate.
Defined.

End SocketMore.

(** * The string helpers *)
Module UtilsMore.

Import Utils MoreVocabulary.

Lemma append_length (a b : string) :
  String.length (a ++ b) = (String.length a + String.length b)%nat.
Proof. induction a as [|ch a IH]; simpl; [reflexivity|]. now rewrite IH. Qed.

Lemma substring0_length n (str : string) :
  String.length (String.substring 0 n str) = Nat.min n (String.length str).
Proof.
  revert str; induction n as [|n IH]; intros str.
  - destruct str; reflexivity.
  - destruct str as [|ch str]; simpl; [reflexivity|]. now rewrite IH.
Qed.

Lemma substring0_app (a b : string) :
  String.substring 0 (String.length a) (a ++ b) = a.
Proof.
  induction a as [|ch a IH]; simpl.
  - destruct b; reflexivity.
  - now rewrite IH.
Qed.

Lemma substring0_prefix n (str : string) :
  exists rest, str = String.substring 0 n str ++ rest.
Proof.
  revert str; induction n as [|n IH]; intros str.
  - exists str. destruct str; reflexivity.
  - destruct str as [|ch str]; simpl.
    + exists EmptyString. reflexivity.
    + destruct (IH str) as (rest & E). exists rest. now rewrite <- E.
Qed.

(** X25.  [truncate] returns a text that fits as it is.  A longer text is
    cut to its first [length] characters (none for a negative [length])
    and gets three dots: the result then has [max(0, length) + 3]
    characters, so it is up to three characters longer than [length]
    and may be longer than the text itself.  Truncating twice is
    truncating once. *)
Theorem truncate_spec :
  forall (str : string) (n : Z),
    (Z.of_nat (String.length str) <= n -> truncate str n = str)
    /\ (n < Z.of_nat (String.length str) ->
        truncate str n = substring0 n str ++ "..."
        /\ Z.of_nat (String.length (truncate str n)) = Z.max 0 n + 3
        /\ exists rest, str = substring0 n str ++ rest)
    /\ truncate (truncate str n) n = truncate str n.
Proof.
  intros str n.
  assert (Hfit : Z.of_nat (String.length str) <= n -> truncate str n = str).
  { intros H. unfold truncate.
    destruct (Z.gtb_spec (Z.of_nat (String.length str)) n); [lia|reflexivity]. }
  assert (Hcut : n < Z.of_nat (String.length str) ->
                 truncate str n = substring0 n str ++ "..."
                 /\ String.length (substring0 n str) = Z.to_nat n).
  { intros H. unfold truncate.
    destruct (Z.gtb_spec (Z.of_nat (String.length str)) n); [|lia].
    split; [reflexivity|]. unfold substring0. rewrite substring0_length. lia. }
  split; [exact Hfit|]. split.
  - intros H. destruct (Hcut H) as [E Hlen]. split; [exact E|]. split.
    + rewrite E, append_length, Hlen. simpl. lia.
    + apply substring0_prefix.
  - destruct (Z.le_gt_cases (Z.of_nat (String.length str)) n) as [H|H].
    + now rewrite (Hfit H), (Hfit H).
    + destruct (Hcut H) as [E Hlen]. rewrite E. unfold truncate at 1.
      rewrite append_length, Hlen. simpl String.length.
      destruct (Z.gtb_spec (Z.of_nat (Z.to_nat n + 3)) n); [|lia].
      unfold substring0 at 1. rewrite <- Hlen at 1. now rewrite substring0_app.
Qed.

Lemma truncate_spec_witness :
  truncate "abcd" 3 = "abc..." /\ Z.of_nat (String.length (truncate "abcd" 3)) = 6.
Proof.
  destruct (proj1 (proj2 (truncate_spec "abcd" 3)) ltac:(simpl; lia)) as (E & Hlen & _).
  split; [exact E|exact Hlen].
Defined.

Lemma first_units_of_split s :
  exists word words,
    split_space s = word :: words
    /\ join_units (List.map first_unit words) = word_starts false s
    /\ join_units (List.map first_unit (word :: words)) = word_starts true s.
Proof.
  induction s as [|ch rest (word & words & E & Hfalse & Htrue)].
  - exists EmptyString, []. repeat split.
  - simpl. destruct (Ascii.eqb ch " ") eqn:Ech.
    + exists EmptyString, (split_space rest). split; [reflexivity|].
      rewrite E. split; [exact Htrue|].
      change (join_units (List.map first_unit (word :: words)) = word_starts true rest).
      exact Htrue.
    + rewrite E. exists (String ch word), words. split; [reflexivity|].
      split; [exact Hfalse|].
      change (String ch (join_units (List.map first_unit words))
              = String ch (word_starts false rest)).
      now rewrite Hfalse.
Qed.

Lemma word_starts_spaceless b s : spaceless (word_starts b s) = true.
Proof.
  revert b; induction s as [|ch rest IH]; intros b; simpl; [reflexivity|].
  destruct (Ascii.eqb ch " ") eqn:E; [apply IH|].
  destruct b; simpl; rewrite ?E; apply IH.
Qed.

(** X26.  [getInitials] upper-cases exactly the characters that start a
    word -- the characters that are not a space and stand first in the
    name or right after a space --, in order.  Leading, trailing and
    repeated spaces contribute nothing, and the text handed to
    [toUpperCase] contains no space. *)
Theorem getInitials_takes_word_starts :
  forall (toUpperCase : string -> string) (name : string),
    getInitials toUpperCase name = toUpperCase (word_starts true name)
    /\ spaceless (word_starts true name) = true.
Proof.
  intros up name. split; [|apply word_starts_spaceless].
  unfold getInitials. destruct (first_units_of_split name) as (word & words & E & _ & H).
  now rewrite E, H.
Qed.

(** ** Thousands separators *)

Lemma digit_is_word ch : is_digit ch = true -> is_word ch = true.
Proof. intros H. unfold is_word. now rewrite H. Qed.

Lemma groups_of_three_digits :
  forall n l, (List.length l <= n)%nat -> all_digits l ->
              groups_of_three l
              = ((0 <? List.length l)%nat && (List.length l mod 3 =? 0)%nat).
Proof.
  induction n as [|n IH]; intros l Hlen Hd.
  - destruct l; [reflexivity|simpl in Hlen; lia].
  - destruct l as [|d1 [|d2 [|d3 rest]]]; try reflexivity.
    inversion Hd as [|? ? H1 Hd1]; subst. inversion Hd1 as [|? ? H2 Hd2]; subst.
    inversion Hd2 as [|? ? H3 Hd3]; subst.
    cbn [groups_of_three]. rewrite H1, H2, H3. cbn [andb].
    destruct rest as [|r rest']; [reflexivity|].
    inversion Hd3 as [|? ? Hr _]; subst.
    cbn [starts_with_digit]. rewrite Hr. cbn [negb orb].
    rewrite IH; [|simpl in Hlen |- *; lia|exact Hd3].
    cbn [List.length].
    replace (S (S (S (S (List.length rest'))))) with (S (List.length rest') + 1 * 3)%nat
      by lia.
    rewrite Nat.Div0.mod_add.
    destruct (S (List.length rest') + 1 * 3)%nat eqn:E; [lia|reflexivity].
Qed.

Lemma groups_of_three_shift l d1 d2 d3 :
  all_digits l -> l <> [] -> all_digits [d1; d2; d3] ->
  groups_of_three (l ++ [d1; d2; d3]) = groups_of_three l.
Proof.
  intros Hl Hne Ht.
  rewrite (groups_of_three_digits _ (l ++ [d1; d2; d3]) (Nat.le_refl _))
    by (apply Forall_app; split; assumption).
  rewrite (groups_of_three_digits _ l (Nat.le_refl _) Hl).
  rewrite length_app. cbn [List.length].
  replace (List.length l + 3)%nat with (List.length l + 1 * 3)%nat by lia.
  rewrite Nat.Div0.mod_add.
  destruct l; [congruence|reflexivity].
Qed.

Lemma insert_commas_pair prev d1 d2 :
  insert_commas prev [d1; d2] = [d1; d2].
Proof. cbn [insert_commas groups_of_three]. now rewrite !andb_false_r. Qed.

Lemma insert_commas_after_digit d d1 d2 d3 :
  is_digit d = true -> all_digits [d1; d2; d3] ->
  insert_commas (Some d) [d1; d2; d3] = (","%char :: [d1; d2; d3]).
Proof.
  intros Hd Ht. inversion Ht as [|? ? H1 Ht1]; subst.
  inversion Ht1 as [|? ? H2 Ht2]; subst. inversion Ht2 as [|? ? H3 _]; subst.
  change (insert_commas (Some d) [d1; d2; d3])
    with ((if non_boundary (Some d) (Some d1) && groups_of_three [d1; d2; d3]
           then [","%char] else []) ++ d1 :: insert_commas (Some d1) [d2; d3])%list.
  rewrite insert_commas_pair. unfold non_boundary.
  rewrite (digit_is_word _ Hd), (digit_is_word _ H1).
  cbn [groups_of_three starts_with_digit]. rewrite H1, H2, H3. reflexivity.
Qed.

Lemma insert_commas_append_group d1 d2 d3 :
  all_digits [d1; d2; d3] ->
  forall ds prev,
    all_digits ds -> ds <> [] ->
    insert_commas prev (ds ++ [d1; d2; d3])
    = (insert_commas prev ds ++ ","%char :: [d1; d2; d3])%list.
Proof.
  intros Ht ds. induction ds as [|d ds IH]; intros prev Hd Hne; [congruence|].
  inversion Hd as [|? ? Hdig Hds]; subst.
  change (insert_commas prev ((d :: ds) ++ [d1; d2; d3]))
    with ((if non_boundary prev (Some d) && groups_of_three ((d :: ds) ++ [d1; d2; d3])
           then [","%char] else [])
            ++ d :: insert_commas (Some d) (ds ++ [d1; d2; d3]))%list.
  change (insert_commas prev (d :: ds))
    with ((if non_boundary prev (Some d) && groups_of_three (d :: ds)
           then [","%char] else []) ++ d :: insert_commas (Some d) ds)%list.
  rewrite (groups_of_three_shift (d :: ds) d1 d2 d3 Hd Hne Ht).
  rewrite <- app_assoc. f_equal. cbn [app]. f_equal.
  destruct ds as [|d' ds'].
  - cbn [app insert_commas]. now apply insert_commas_after_digit.
  - apply IH; [exact Hds|discriminate].
Qed.

Lemma insert_commas_short ds :
  all_digits ds -> (List.length ds <= 3)%nat -> insert_commas None ds = ds.
Proof.
  intros Hd Hlen.
  destruct ds as [|d1 [|d2 [|d3 [|d4 rest]]]]; try reflexivity.
  - cbn [insert_commas groups_of_three]. now rewrite !andb_false_r.
  - cbn [insert_commas groups_of_three]. now rewrite !andb_false_r.
  - inversion Hd as [|? ? H1 _]; subst.
    change (insert_commas None [d1; d2; d3])
      with ((if non_boundary None (Some d1) && groups_of_three [d1; d2; d3]
             then [","%char] else []) ++ d1 :: insert_commas (Some d1) [d2; d3])%list.
    rewrite insert_commas_pair. unfold non_boundary. now rewrite (digit_is_word _ H1).
  - simpl in Hlen. lia.
Qed.

Lemma insert_commas_after_sign l :
  insert_commas None ("-"%char :: l) = ("-"%char :: insert_commas None l).
Proof.
  change (insert_commas None ("-"%char :: l))
    with ((if non_boundary None (Some "-"%char) && groups_of_three ("-"%char :: l)
           then [","%char] else []) ++ "-"%char :: insert_commas (Some "-"%char) l)%list.
  assert (Hg : groups_of_three ("-"%char :: l) = false).
  { destruct l as [|a [|b rest]]; reflexivity. }
  rewrite Hg, andb_false_r. cbn [app]. f_equal.
  destruct l as [|ch rest]; reflexivity.
Qed.

Lemma uint_digits (d : Decimal.uint) :
  all_digits (list_ascii_of_string (NilEmpty.string_of_uint d)).
Proof.
  induction d; simpl; constructor; auto.
Qed.

Lemma NilZero_uint_digits (d : Decimal.uint) :
  all_digits (list_ascii_of_string (NilZero.string_of_uint d))
  /\ list_ascii_of_string (NilZero.string_of_uint d) <> [].
Proof.
  unfold NilZero.string_of_uint. destruct d;
    (split; [first [apply (uint_digits (Decimal.D0 d)) | apply (uint_digits (Decimal.D1 d))
                   | apply (uint_digits (Decimal.D2 d)) | apply (uint_digits (Decimal.D3 d))
                   | apply (uint_digits (Decimal.D4 d)) | apply (uint_digits (Decimal.D5 d))
                   | apply (uint_digits (Decimal.D6 d)) | apply (uint_digits (Decimal.D7 d))
                   | apply (uint_digits (Decimal.D8 d)) | apply (uint_digits (Decimal.D9 d))
                   | (repeat constructor) ]
           | discriminate]).
Qed.

(** The decimal rendering of an integer: digits, after a minus sign for
    a negative one. *)
Lemma string_of_Z_shape (z : Z) :
  exists ds,
    all_digits ds /\ ds <> []
    /\ list_ascii_of_string (string_of_Z z)
       = ((if z <? 0 then ["-"%char] else []) ++ ds)%list.
Proof.
  unfold string_of_Z. destruct z as [|p|p]; cbn [Z.to_int Z.ltb Z.compare].
  - exists ["0"%char]. repeat split; [repeat constructor|discriminate].
  - exists (list_ascii_of_string (NilZero.string_of_uint (Pos.to_uint p))).
    destruct (NilZero_uint_digits (Pos.to_uint p)) as [Hd Hne].
    repeat split; assumption.
  - exists (list_ascii_of_string (NilZero.string_of_uint (Pos.to_uint p))).
    destruct (NilZero_uint_digits (Pos.to_uint p)) as [Hd Hne].
    repeat split; assumption.
Qed.

(** X27.  [formatNumber] on safe integers groups the digits in threes
    from the right.  A non-negative safe integer is rendered by
    [toString] with digits only; when these are at most three, the
    result has no comma; when they are a digit string followed by three
    more digits, the result is the digit string with its own commas, a
    comma, and the three digits.  A negative safe integer is rendered as
    a minus sign and the rendering of its absolute value: no comma ever
    follows the sign. *)
Theorem formatNumber_groups_of_three :
  forall toString : Z -> string,
    decimal_on_safe_integers toString ->
    forall z, 0 <= z <= MAX_SAFE_INTEGER ->
      let digits := list_ascii_of_string (toString z) in
      all_digits digits
      /\ digits <> []
      /\ ((List.length digits <= 3)%nat -> formatNumber toString z = toString z)
      /\ (forall ds d1 d2 d3,
             digits = (ds ++ [d1; d2; d3])%list -> ds <> [] ->
             list_ascii_of_string (formatNumber toString z)
             = (insert_commas None ds ++ ","%char :: [d1; d2; d3])%list)
      /\ (0 < z -> formatNumber toString (- z) = String "-" (formatNumber toString z)).
Proof.
  intros toString Hts z Hz digits. subst digits.
  assert (Hneg : Z.abs (- z) <= MAX_SAFE_INTEGER) by lia.
  unfold formatNumber. rewrite (Hts (- z) Hneg), (Hts z) by lia.
  destruct (string_of_Z_shape z) as (ds & Hd & Hne & E).
  destruct (Z.ltb_spec z 0) as [Hlt|_]; [lia|]. cbn [app] in E. rewrite E.
  split; [exact Hd|]. split; [exact Hne|]. split; [|split].
  - intros Hlen. rewrite (insert_commas_short ds Hd Hlen), <- E.
    apply string_of_list_ascii_of_string.
  - intros ds' d1 d2 d3 -> Hne'. rewrite list_ascii_of_string_of_list_ascii.
    apply Forall_app in Hd. destruct Hd as [Hd' Ht].
    now apply insert_commas_append_group.
  - intros Hpos. destruct z as [|p|p]; try lia.
    change (string_of_Z (- Z.pos p)) with (String "-" (string_of_Z (Z.pos p))).
    cbn [list_ascii_of_string]. rewrite insert_commas_after_sign. rewrite E. reflexivity.
Qed.

Lemma plain_or_exponent_safe : decimal_on_safe_integers plain_or_exponent.
Proof.
  intros z Hz. unfold plain_or_exponent, MAX_SAFE_INTEGER in *.
  destruct (Z.ltb_spec (Z.abs z) (10 ^ 21)) as [_|Hbig]; [reflexivity|].
  assert (9007199254740991 < 10 ^ 21) by reflexivity. lia.
Qed.

Lemma formatNumber_groups_of_three_witness :
  formatNumber plain_or_exponent 1234567 = "1,234,567"
  /\ formatNumber plain_or_exponent (- 1234567)
     = String "-" (formatNumber plain_or_exponent 1234567)
  /\ list_ascii_of_string (formatNumber plain_or_exponent 1234567)
     = (insert_commas None (list_ascii_of_string "1234")
        ++ ","%char :: list_ascii_of_string "567")%list.
Proof.
  assert (Hz : 0 <= 1234567 <= MAX_SAFE_INTEGER) by (unfold MAX_SAFE_INTEGER; lia).
  destruct (formatNumber_groups_of_three plain_or_exponent plain_or_exponent_safe
              1234567 Hz) as (_ & _ & _ & Hgroup & Hsign).
  split; [reflexivity|]. split.
  - apply Hsign. lia.
  - apply (Hgroup (list_ascii_of_string "1234") "5"%char "6"%char "7"%char).
    + reflexivity.
    + discriminate.
Defined.

Lemma strip_insert_commas :
  forall l prev,
    Forall (fun ch => Ascii.eqb ch ","%char = false) l ->
    strip_commas (insert_commas prev l) = l.
Proof.
  induction l as [|ch rest IH]; intros prev H; [reflexivity|].
  inversion H as [|? ? Hch Hrest]; subst.
  cbn [insert_commas]. unfold strip_commas. rewrite filter_app.
  fold (strip_commas (ch :: insert_commas (Some ch) rest)).
  assert (Hhere : forall b : bool,
             List.filter (fun c => negb (Ascii.eqb c ","%char))
                         (if b then [","%char] else []) = []).
  { intros [|]; reflexivity. }
  rewrite Hhere. cbn [app]. unfold strip_commas. cbn [List.filter].
  rewrite Hch. cbn [negb]. f_equal. apply IH. exact Hrest.
Qed.

Lemma norm_not_nil (d : Decimal.signed_int) :
  Decimal.norm d <> Decimal.Pos Decimal.Nil /\ Decimal.norm d <> Decimal.Neg Decimal.Nil.
Proof.
  destruct d as [u|u]; unfold Decimal.norm, Decimal.unorm;
    destruct (Decimal.nzhead u); split; discriminate.
Qed.

(** X28.  For a safe integer, taking the commas out of what
    [formatNumber] returns gives back what [toString] rendered, which
    reads as the number: no digit is lost, added or moved. *)
Theorem formatNumber_round_trip :
  forall (toString : Z -> string) (z : Z),
    decimal_on_safe_integers toString ->
    Z.abs z <= MAX_SAFE_INTEGER ->
    strip_commas (list_ascii_of_string (formatNumber toString z))
    = list_ascii_of_string (toString z)
    /\ parse_decimal (strip_commas (list_ascii_of_string (formatNumber toString z)))
       = Some z.
Proof.
  intros toString z Hts Hz.
  assert (Hstrip : strip_commas (list_ascii_of_string (formatNumber toString z))
                   = list_ascii_of_string (toString z)).
  { unfold formatNumber. rewrite list_ascii_of_string_of_list_ascii.
    apply strip_insert_commas. rewrite (Hts z Hz).
    destruct (string_of_Z_shape z) as (ds & Hd & _ & E). rewrite E.
    apply Forall_app. split.
    - destruct (z <? 0); repeat constructor.
    - eapply Forall_impl; [|exact Hd]. intros ch Hch.
      destruct (Ascii.eqb_spec ch ","%char) as [->|]; [discriminate Hch|reflexivity]. }
  split; [exact Hstrip|]. rewrite Hstrip, (Hts z Hz). unfold parse_decimal.
  rewrite string_of_list_ascii_of_string. unfold string_of_Z.
  assert (Hnorm : Z.to_int z = Decimal.norm (Z.to_int z)).
  { rewrite <- DecimalZ.to_of. now rewrite DecimalZ.of_to. }
  destruct (norm_not_nil (Z.to_int z)) as [Hp Hn]. rewrite <- Hnorm in Hp, Hn.
  rewrite (NilZero.isi _ Hp Hn). simpl. now rewrite DecimalZ.of_to.
Qed.

Lemma formatNumber_round_trip_witness :
  formatNumber plain_or_exponent (- 9007199254740991) = "-9,007,199,254,740,991"
  /\ parse_decimal (strip_commas (list_ascii_of_string
                                    (formatNumber plain_or_exponent (- 9007199254740991))))
     = Some (- 9007199254740991).
Proof.
  split; [reflexivity|].
  apply (formatNumber_round_trip plain_or_exponent (- 9007199254740991)
           plain_or_exponent_safe).
  unfold MAX_SAFE_INTEGER. lia.
Defined.

End UtilsMore.

(** * The identifiers of a loaded history *)
Module HistoryIds.

Import Socket ChatStore ChatRuns Utils MoreVocabulary.

Lemma unorm_not_nil (d : Decimal.uint) : Decimal.unorm d <> Decimal.Nil.
Proof. unfold Decimal.unorm. destruct (Decimal.nzhead d); discriminate. Qed.

Lemma to_uint_not_nil n : Nat.to_uint n <> Decimal.Nil.
Proof.
  rewrite <- (DecimalNat.Unsigned.of_to n) at 1.
  rewrite DecimalNat.Unsigned.to_of. apply unorm_not_nil.
Qed.

Lemma string_of_nat_inj n m : string_of_nat n = string_of_nat m -> n = m.
Proof.
  unfold string_of_nat. intros E.
  apply DecimalNat.Unsigned.to_uint_inj.
  assert (H : NilZero.uint_of_string (NilZero.string_of_uint (Nat.to_uint n))
              = NilZero.uint_of_string (NilZero.string_of_uint (Nat.to_uint m)))
    by now rewrite E.
  rewrite !NilZero.usu in H by apply to_uint_not_nil. congruence.
Qed.

Lemma string_of_nat_digits n : digit_string (string_of_nat n).
Proof. apply UtilsMore.NilZero_uint_digits. Qed.

(** A digit string is delimited by the dash that follows it. *)
Lemma digits_then_dash D :
  forall D' R R',
    digit_string D -> digit_string D' ->
    D ++ String "-" R = D' ++ String "-" R' -> D = D' /\ R = R'.
Proof.
  unfold digit_string.
  induction D as [|d D IH]; intros [|d' D'] R R' HD HD' E; simpl in *.
  - injection E as <-. split; reflexivity.
  - injection E as <- _. inversion HD' as [|? ? Hd _]; subst. discriminate Hd.
  - injection E as -> _. inversion HD as [|? ? Hd _]; subst. discriminate Hd.
  - injection E as <- E. inversion HD; subst. inversion HD'; subst.
    destruct (IH D' R R') as [-> ->]; auto.
Qed.

Lemma string_of_Z_not_letter z rest : string_of_Z z <> String "a" rest.
Proof.
  intros E. destruct (UtilsMore.string_of_Z_shape z) as (ds & Hd & Hne & Hshape).
  rewrite E in Hshape. simpl in Hshape. destruct (z <? 0); simpl in Hshape.
  - discriminate.
  - destruct ds as [|d ds]; [congruence|]. injection Hshape as <- _.
    inversion Hd as [|? ? H _]; subst. discriminate H.
Qed.

Lemma history_user_id n item w c0 :
  exists t, msg_id (fst (history_user n item w c0))
            = "history-" ++ string_of_nat n ++ "-" ++ string_of_Z t.
Proof.
  unfold history_user, timestamp_or_now, bind, Date_now, ret; simpl.
  destruct (md_timestamp (Api.cm_metadata item)) as [t|]; [destruct (t =? 0)|];
    simpl; eexists; reflexivity.
Qed.

Lemma history_pair_id history n item u w c0 :
  nth_error history n = Some item ->
  exists t a,
    fst (history_pair history n u w c0) = [u; a]
    /\ msg_id a = "history-" ++ string_of_nat n ++ "-assistant-" ++ string_of_Z t.
Proof.
  intros Hn. unfold history_pair, timestamp_or_now, bind, Date_now, ret. rewrite Hn; simpl.
  destruct (md_timestamp (Api.cm_metadata item)) as [t|]; [destruct (t =? 0)|];
    simpl; eexists; eexists; split; reflexivity.
Qed.

(** Position by position, the identifiers of the rebuilt messages. *)
Lemma history_messages_ids history w c :
  let msgs := fst (history_messages history w c) in
  List.length msgs = (2 * List.length history)%nat
  /\ forall n, (n < List.length history)%nat ->
               exists t t' u a,
                 nth_error msgs (2 * n) = Some u
                 /\ nth_error msgs (2 * n + 1) = Some a
                 /\ msg_id u = "history-" ++ string_of_nat n ++ "-" ++ string_of_Z t
                 /\ msg_id a
                    = "history-" ++ string_of_nat n ++ "-assistant-" ++ string_of_Z t'.
Proof.
  unfold history_messages, flatMapiM. rewrite !bind_run, ret_run. simpl.
  unfold mapiM.
  set (users := fst (mapiM_from 0 history_user history w c)).
  set (c1 := snd (mapiM_from 0 history_user history w c)).
  set (yss := fst (mapiM_from 0 (history_pair history) users w c1)).
  assert (Hlen_users : List.length users = List.length history)
    by apply mapiM_from_length.
  assert (Hlen_yss : List.length yss = List.length users)
    by apply mapiM_from_length.
  assert (Hturn : forall n, (n < List.length history)%nat ->
            exists t t' u a, nth_error yss n = Some [u; a]
              /\ msg_id u = "history-" ++ string_of_nat n ++ "-" ++ string_of_Z t
              /\ msg_id a
                 = "history-" ++ string_of_nat n ++ "-assistant-" ++ string_of_Z t').
  { intros n Hn. destruct (nth_error history n) as [item|] eqn:E;
      [|apply nth_error_None in E; lia].
    destruct (mapiM_from_nth history_user w ChatStoreSpec.advances_history_user
                history 0 c n item E) as (c0 & Hu & _). fold users in Hu. simpl in Hu.
    destruct (mapiM_from_nth (history_pair history) w
                (ChatStoreSpec.advances_history_pair history)
                users 0 c1 n _ Hu) as (c0' & Hp & _). fold yss in Hp. simpl in Hp.
    destruct (history_user_id n item w c0) as (t & Hidu).
    destruct (history_pair_id history n item (fst (history_user n item w c0)) w c0' E)
      as (t' & a & Epair & Hida).
    exists t, t', (fst (history_user n item w c0)), a.
    rewrite Hp, Epair. repeat split; assumption. }
  destruct (ChatStoreSpec.concat_pairs yss) as [Hlen Hnth].
  { intros n Hn. rewrite Hlen_yss, Hlen_users in Hn.
    destruct (Hturn n Hn) as (t & t' & u & a & Hy & _). eauto. }
  split.
  - rewrite Hlen, Hlen_yss, Hlen_users. reflexivity.
  - intros n Hn. destruct (Hturn n Hn) as (t & t' & u & a & Hy & Hu & Ha).
    destruct (Hnth n u a Hy) as [Eu Ea].
    exists t, t', u, a. repeat split; assumption.
Qed.

Lemma Some_injective {A : Type} (a b : A) : Some a = Some b -> a = b.
Proof. congruence. Qed.

Lemma user_ids_differ n m t t' :
  "history-" ++ string_of_nat n ++ "-" ++ string_of_Z t
  = "history-" ++ string_of_nat m ++ "-" ++ string_of_Z t' -> n = m.
Proof.
  intros E. simpl in E. injection E as E.
  apply digits_then_dash in E; try apply string_of_nat_digits.
  apply string_of_nat_inj. tauto.
Qed.

Lemma assistant_ids_differ n m t t' :
  "history-" ++ string_of_nat n ++ "-assistant-" ++ string_of_Z t
  = "history-" ++ string_of_nat m ++ "-assistant-" ++ string_of_Z t' -> n = m.
Proof.
  intros E. simpl in E. injection E as E.
  apply digits_then_dash in E; try apply string_of_nat_digits.
  apply string_of_nat_inj. tauto.
Qed.

Lemma user_id_is_no_assistant_id n m t t' :
  "history-" ++ string_of_nat n ++ "-" ++ string_of_Z t
  <> "history-" ++ string_of_nat m ++ "-assistant-" ++ string_of_Z t'.
Proof.
  intros E. simpl in E. injection E as E.
  apply digits_then_dash in E; try apply string_of_nat_digits.
  destruct E as [_ E]. simpl in E. now apply string_of_Z_not_letter in E.
Qed.

Lemma history_messages_NoDup :
  forall (history : list Api.ConversationMessage) (w : World) (c : Cursor),
    NoDup (List.map msg_id (fst (history_messages history w c))).
Proof.
  intros history w c.
  destruct (history_messages_ids history w c) as [Hlen Hids].
  set (msgs := fst (history_messages history w c)) in *.
  assert (Hpos : forall i, (i < List.length msgs)%nat ->
            exists k t,
              (k < List.length history)%nat
              /\ ((i = 2 * k
                   /\ nth_error (List.map msg_id msgs) i
                      = Some ("history-" ++ string_of_nat k ++ "-" ++ string_of_Z t))
                  \/ (i = 2 * k + 1
                      /\ nth_error (List.map msg_id msgs) i
                         = Some ("history-" ++ string_of_nat k ++ "-assistant-"
                                            ++ string_of_Z t)))%nat).
  { intros i Hi. rewrite Hlen in Hi.
    destruct (Nat.Even_or_Odd i) as [[k ->]|[k ->]].
    - destruct (Hids k ltac:(lia)) as (t & t' & u & a & Hu & _ & Hidu & _).
      exists k, t. split; [lia|]. left. split; [reflexivity|].
      rewrite nth_error_map, Hu. simpl. now rewrite Hidu.
    - destruct (Hids k ltac:(lia)) as (t & t' & u & a & _ & Ha & _ & Hida).
      exists k, t'. split; [lia|]. right. split; [reflexivity|].
      rewrite nth_error_map, Ha. simpl. now rewrite Hida. }
  apply NoDup_nth_error. intros i j Hi E. rewrite length_map in Hi.
  assert (Hj : (j < List.length msgs)%nat).
  { destruct (nth_error msgs j) eqn:Ej0; [apply nth_error_Some; congruence|].
    rewrite !nth_error_map, Ej0 in E.
    destruct (nth_error msgs i) eqn:Ei0; [discriminate E|].
    apply nth_error_None in Ei0. lia. }
  destruct (Hpos i Hi) as (k & t & _ & [[-> Ei]|[-> Ei]]);
    destruct (Hpos j Hj) as (k' & t' & _ & [[-> Ej]|[-> Ej]]);
    rewrite Ei, Ej in E; apply Some_injective in E.
  - apply user_ids_differ in E. lia.
  - now apply user_id_is_no_assistant_id in E.
  - symmetry in E. now apply user_id_is_no_assistant_id in E.
  - apply assistant_ids_differ in E. lia.
Qed.

(** X29.  After a successful [loadConversationHistory], the messages of the
    loaded conversation carry pairwise different identifiers, whatever
    the clock shows and however often it shows the same time: the
    identifier holds the position of the turn, and the assistant's
    identifier is marked as such. *)
Theorem history_identifiers_distinct :
  forall (api : Api.apiClient) (id : string) (response : Api.ConversationHistoryResponse)
         (s : ChatState) (w : World) (c : Cursor),
    Api.memory_getConversation api id = Resolved response ->
    forall conv,
      In conv (conversations (fst (loadConversationHistory api id s w c))) ->
      conv_id conv = id ->
      NoDup (List.map msg_id (conv_messages conv)).
Proof.
  intros api id response s w c Hok conv Hin Hid.
  unfold loadConversationHistory in Hin. rewrite Hok in Hin.
  unfold loadConversationHistory_resolved in Hin. rewrite !bind_run, ret_run in Hin.
  cbn [fst conversations loadConversationHistory_start] in Hin.
  set (msgs := fst (history_messages (Api.history response) w c)) in *.
  set (c1 := snd (history_messages (Api.history response) w c)) in *.
  assert (Hadv : forall conv0,
             advances (if String.eqb (conv_id conv0) id
                       then bind Date_now (fun now => ret (with_messages conv0 msgs now))
                       else ret conv0)).
  { intros conv0. destruct (String.eqb (conv_id conv0) id); auto with eff. }
  assert (HF := mapM_Forall2 _ w Hadv (conversations s) c1).
  destruct (Forall2_In_l _ _ _ conv (Forall2_flip HF) Hin) as (conv0 & _ & c0 & _ & E).
  destruct (String.eqb (conv_id conv0) id) eqn:E0.
  - rewrite bind_run, ret_run in E. simpl in E. subst conv. simpl.
    apply history_messages_NoDup.
  - simpl in E. subst conv. apply String.eqb_neq in E0. contradiction.
Qed.

Lemma history_identifiers_distinct_witness :
  List.map (fun conv => List.map msg_id (conv_messages conv))
           (conversations (fst (loadConversationHistory (history_backend "c1" two_turns) "c1"
                                  one_conversation late_tick {| ticks := 3; draws := 1 |})))
  = [["history-0-1000"; "history-0-assistant-1001";
      "history-1-1001"; "history-1-assistant-1001"]]
  /\ Forall (fun conv => NoDup (List.map msg_id (conv_messages conv)))
            (conversations (fst (loadConversationHistory (history_backend "c1" two_turns)
                                   "c1" one_conversation late_tick
                                   {| ticks := 3; draws := 1 |}))).
Proof.
  split; [reflexivity|]. apply Forall_forall. intros conv Hin.
  apply (history_identifiers_distinct (history_backend "c1" two_turns) "c1"
           {| Api.history := two_turns |} one_conversation late_tick
           {| ticks := 3; draws := 1 |} eq_refl conv Hin).
  destruct Hin as [<-|[]]. reflexivity.
Defined.

End HistoryIds.
